(** * CAS_Exporter: the extraction-and-exposition pipeline

    A shallow embedding of the exporter: the [casadm] adapter
    ([casadm/casadm.go]), the scheduler loop [CasExporter.Start]
    ([casexporter]), the HTTP transport ([transport/http]), the entry point
    [main] and the historical single-file exporter ([cas_exporter.go]).

    Conventions.
    - Go [int] and [uint16] are [Z]; [float64] is the kernel's binary64
      [float]; [string] and [[]byte] are [string].
    - A Go [error] is its message; a function returning [(T, error)] returns
      [result T].
    - A [prometheus.GaugeVec] is a finite map from the list of label values
      (in the order the vector declares its label names) to the gauge value.
    - The operating system is a [World]: a monotonic clock and the instant at
      which the context is cancelled.  The [casadm] process and the [gocsv]
      decoder are third-party collaborators and stay parameters. *)

From Stdlib Require Import ZArith String Ascii List Floats Lia.
From stdpp Require Import gmap strings list fin_maps pretty.
Import ListNotations.
Open Scope string_scope.
Open Scope Z_scope.

(** ** Go runtime and standard library *)

Inductive result (A : Type) : Type :=
| Ok (a : A)
| Err (msg : string).
Arguments Ok {A} a.
Arguments Err {A} msg.

Definition is_Err {A} (r : result A) : bool :=
  match r with Ok _ => false | Err _ => true end.

(** [float64(n)] for an integer [n]: round to nearest, ties to even. *)
Definition float64_of_int (n : Z) : float :=
  SF2Prim (binary_normalize prec emax n 0 false).

(** [strconv.Itoa]. *)
Definition strconv_Itoa (n : Z) : string := pretty n.

(** [time.Duration] is a count of nanoseconds. *)
Definition Second : Z := 1000000000.

(** [Duration.Seconds]: [float64(d / Second) + float64(d % Second) / 1e9],
    with Go's truncating division. *)
Definition Seconds (d : Z) : float :=
  PrimFloat.add (float64_of_int (Z.quot d Second))
                (PrimFloat.div (float64_of_int (Z.rem d Second)) 1e9%float).

(** [strings.Contains s substr]. *)
Fixpoint strings_Contains (s substr : string) : bool :=
  String.prefix substr s
  || match s with
     | EmptyString => false
     | String _ s' => strings_Contains s' substr
     end.

(** [strings.Split s sep] for a one-character separator (both call sites
    pass one): the pieces between the separators, never an empty slice. *)
Fixpoint strings_Split (s : string) (sep : ascii) : list string :=
  match s with
  | EmptyString => [EmptyString]
  | String c s' =>
      if Ascii.eqb c sep then EmptyString :: strings_Split s' sep
      else match strings_Split s' sep with
           | [] => [String c EmptyString]
           | piece :: rest => String c piece :: rest
           end
  end.

(** [strings.Join elems sep]. *)
Fixpoint strings_Join (elems : list string) (sep : string) : string :=
  match elems with
  | [] => EmptyString
  | e :: rest =>
      match rest with
      | [] => e
      | _ :: _ => e ++ sep ++ strings_Join rest sep
      end
  end.

Definition newline : ascii := "010"%char.
Definition comma : ascii := ","%char.

(** The outcome of [exec.Cmd.CombinedOutput]: the captured standard output
    and standard error, and the error (a non-zero exit status, a failure to
    start, a kill on cancellation), if any. *)
Record CmdResult : Type := {
  cmd_out : string;
  cmd_err : option string;
}.

(** The part of the operating system the exporter observes. *)
Record World : Type := {
  clock : Z;                (* monotonic time, in nanoseconds *)
  cancel_at : option Z;     (* the instant of [cancel()], if it ever comes *)
}.

(** [time.Now()], as a [Duration] since the start of the clock. *)
Definition time_Now (w : World) : Z := clock w.

(** [<-ctx.Done()] is ready once [cancel()] has been called. *)
Definition ctx_Done (w : World) : bool :=
  match cancel_at w with
  | Some t => t <=? clock w
  | None => false
  end.

(** [time.Sleep d]: the goroutine is paused for [d], whatever happens to
    any context meanwhile; a negative or zero [d] returns at once. *)
Definition time_Sleep (d : Z) (w : World) : World :=
  {| clock := clock w + Z.max 0 d; cancel_at := cancel_at w |}.

(** Time passing while the goroutine waits for something else. *)
Definition elapse (ns : N) (w : World) : World :=
  {| clock := clock w + Z.of_N ns; cancel_at := cancel_at w |}.

(** ** Package [casadm] *)

Module casadm.

Definition casaCmd : string := "casadm".

Module Cache.
Record t : Type := {
  Type_ : string;        (* csv:"type" *)
  ID : Z;                (* csv:"id", uint16 *)
  Disk : string;         (* csv:"disk" *)
  Status : string;       (* csv:"status" *)
  WritePolicy : string;  (* csv:"write policy" *)
  Device : string;       (* csv:"device" *)
}.
End Cache.

Module CacheStats.
Record t : Type := {
  ID : Z;                                     (* Cache Id *)
  Size4K : float;                             (* Cache Size [4KiB Blocks] *)
  SizeGB : float;                             (* Cache Size [GiB] *)
  Device : string;                            (* Cache Device *)
  ExportedObject : string;                    (* Exported Object *)
  CoreDevices : Z;                            (* Core Devices *)
  InactiveCoreDevices : Z;                    (* Inactive Core Devices *)
  WritePolicy : string;                       (* Write Policy *)
  CleaningPolicy : string;                    (* Cleaning Policy *)
  PromotionPolicy : string;                   (* Promotion Policy *)
  CacheLineSizeKB : float;                    (* Cache line size [KiB] *)
  MetadataMemoryFootprintMB : float;          (* Metadata Memory Footprint [MiB] *)
  DirtyForS : Z;                              (* Dirty for [s] *)
  DirtyFor : string;                          (* Dirty for *)
  Status : string;                            (* Status *)
  Occupancy4K : Z;                            (* Occupancy [4KiB Blocks] *)
  OccupancyPercent : float;                   (* Occupancy [%] *)
  Free4K : Z;                                 (* Free [4KiB Blocks] *)
  FreePercent : float;                        (* Free [%] *)
  Clean4K : Z;                                (* Clean [4KiB Blocks] *)
  CleanPercent : float;                       (* Clean [%] *)
  Dirty4K : Z;                                (* Dirty [4KiB Blocks] *)
  DirtyPercent : float;                       (* Dirty [%] *)
  ReadHitsRequests : Z;                       (* Read hits [Requests] *)
  ReadHitsPercent : float;                    (* Read hits [%] *)
  ReadPartialMissesRequests : Z;              (* Read partial misses [Requests] *)
  ReadPartialMissesPercent : float;           (* Read partial misses [%] *)
  ReadFullMissesRequests : Z;                 (* Read full misses [Requests] *)
  ReadFullMissesPercent : float;              (* Read full misses [%] *)
  ReadTotalRequests : Z;                      (* Read total [Requests] *)
  ReadTotalPercent : float;                   (* Read total [%] *)
  WriteHitsRequests : Z;                      (* Write hits [Requests] *)
  WriteHitsPercent : float;                   (* Write hits [%] *)
  WritePartialMissesRequests : Z;             (* Write partial misses [Requests] *)
  WritePartialMissesPercent : float;          (* Write partial misses [%] *)
  WriteFullMissesRequests : Z;                (* Write full misses [Requests] *)
  WriteFullMissesPercent : float;             (* Write full misses [%] *)
  WriteTotalRequests : Z;                     (* Write total [Requests] *)
  WriteTotalPercent : float;                  (* Write total [%] *)
  PassThroughReadsRequests : Z;               (* Pass-Through reads [Requests] *)
  PassThroughReadsPercent : float;            (* Pass-Through reads [%] *)
  PassThroughWritesRequests : Z;              (* Pass-Through writes [Requests] *)
  PassThroughWritesPercent : float;           (* Pass-Through writes [%] *)
  ServicedRequestsRequests : Z;               (* Serviced requests [Requests] *)
  ServicedRequestsPercent : float;            (* Serviced requests [%] *)
  TotalRequestsRequests : Z;                  (* Total requests [Requests] *)
  TotalRequestsPercent : float;               (* Total requests [%] *)
  ReadsFromCores4K : Z;                       (* Reads from core(s) [4KiB Blocks] *)
  ReadsFromCoresPercent : float;              (* Reads from core(s) [%] *)
  WritesFromCores4K : Z;                      (* Writes to core(s) [4KiB Blocks] *)
  WritesFromCoresPercent : float;             (* Writes to core(s) [%] *)
  TotalToFromCores4K : Z;                     (* Total to/from core(s) [4KiB Blocks] *)
  TotalToFromCoresPercent : float;            (* Total to/from core(s) [%] *)
  ReadsFromCache4K : Z;                       (* Reads from cache [4KiB Blocks] *)
  ReadsFromCachePercent : float;              (* Reads from cache [%] *)
  WritesToCachce4K : Z;                       (* Writes to cache [4KiB Blocks] *)
  WritesToCachcePercent : float;              (* Writes to cache [%] *)
  TotalToFromCache4K : Z;                     (* Total to/from cache [4KiB Blocks] *)
  TotalToFromCachePercent : float;            (* Total to/from cache [%] *)
  ReadsFromExportedObjects4K : Z;             (* Reads from exported object(s) [4KiB Blocks] *)
  ReadsFromExportedObjectsPercent : float;    (* Reads from exported object(s) [%] *)
  WritesToExportedObjects4K : Z;              (* Writes to exported object(s) [4KiB Blocks] *)
  WritesToExportedObjectsPercent : float;     (* Writes to exported object(s) [%] *)
  TotalToFromExportedObjects4K : Z;           (* Total to/from exported object(s) [4KiB Blocks] *)
  TotalToFromExportedObjectsPercent : float;  (* Total to/from exported object(s) [%] *)
  CacheReadErrorsRequests : Z;                (* Cache read errors [Requests] *)
  CacheReadErrorsPercent : float;             (* Cache read errors [%] *)
  CacheWriteErrorsRequests : Z;               (* Cache write errors [Requests] *)
  CacheWriteErrorsPercent : float;            (* Cache write errors [%] *)
  CacheTotalErrorsRequests : Z;               (* Cache total errors [Requests] *)
  CacheTotalErrorsPercent : float;            (* Cache total errors [%] *)
  CoreReadErrorsRequests : Z;                 (* Core read errors [Requests] *)
  CoreReadErrorsPercent : float;              (* Core read errors [%] *)
  CoreWriteErrorsRequests : Z;                (* Core write errors [Requests] *)
  CoreWriteErrorsPercent : float;             (* Core write errors [%] *)
  CoreTotalErrorsRequests : Z;                (* Core total errors [Requests] *)
  CoreTotalErrorsPercent : float;             (* Core total errors [%] *)
  TotalErrorsRequests : Z;                    (* Total errors [Requests] *)
  TotalErrorsPercent : float;                 (* Total errors [%] *)
}.
End CacheStats.

(** The collaborators of the adapter: the [casadm] executable, which given
    its arguments and the state of the world produces an outcome after some
    time, and [gocsv.UnmarshalBytes] at the two record types. *)
Record Env : Type := {
  run_casadm : list string -> World -> CmdResult * N;
  unmarshal_caches : string -> result (list Cache.t);
  unmarshal_stats : string -> result (list CacheStats.t);
}.

(** The arguments after [casaCmd] in the two invocations. *)
Definition list_args : list string := ["--list-caches"; "--output-format"; "csv"].
Definition stats_args (cacheID : Z) : list string :=
  ["--stats"; "--cache-id"; strconv_Itoa cacheID; "--output-format"; "csv"].

Section Adapter.
Variable env : Env.

(** [exec.CommandContext(ctx, casaCmd, args...).CombinedOutput()] *)
Definition CombinedOutput (args : list string) (w : World) : CmdResult * World :=
  let '(out, ns) := run_casadm env args w in (out, elapse ns w).

Definition ListCaches (w : World) : result (list Cache.t) * World :=
  let '(r, w') := CombinedOutput list_args w in
  match cmd_err r with
  | Some err =>
      (Err ("list caches: " ++ err ++ ": '" ++ cmd_out r ++ "'"), w')
  | None =>
      match unmarshal_caches env (cmd_out r) with
      | Err err => (Err ("unmarshal list caches csv: " ++ err), w')
      | Ok caches => (Ok caches, w')
      end
  end.

Definition GetCacheStats (w : World) (cacheID : Z) : result CacheStats.t * World :=
  let '(r, w') := CombinedOutput (stats_args cacheID) w in
  match cmd_err r with
  | Some err =>
      (Err ("list caches: " ++ err ++ ": '" ++ cmd_out r ++ "'"), w')
  | None =>
      match unmarshal_stats env (cmd_out r) with
      | Err err => (Err ("unmarshal cache stats csv: " ++ err), w')
      | Ok stats =>
          match stats with
          | [] => (Err "missing cache stats", w')
          | s0 :: _ => (Ok s0, w')
          end
      end
  end.
End Adapter.

End casadm.

(** ** Package [casexporter] *)

Module casexporter.
Import casadm.

(** A gauge vector: label values (in declaration order) to the gauge. *)
Abbreviation GaugeVec := (gmap (list string) float).

Record CasExporter : Type := {
  extractionInterval : Z;
  ocfStatCount : GaugeVec;       (* ocf_count{device,id,category,subcategory} *)
  ocfStatPercentage : GaugeVec;  (* ocf_percentage{device,id,category,subcategory} *)
  ocfStatDuration : GaugeVec;    (* ocf_duration_seconds{} *)
  ocfStatSuccess : GaugeVec;     (* ocf_success{} *)
}.

Definition NewCasExporter (extractionInterval : Z) : CasExporter :=
  {| extractionInterval := extractionInterval;
     ocfStatCount := ∅;
     ocfStatPercentage := ∅;
     ocfStatDuration := ∅;
     ocfStatSuccess := ∅ |}.

(** [vec.With(labels).Set(v)]: the child gauge is created on first use and
    overwritten afterwards. *)
Definition GaugeVec_Set (labels : list string) (v : float) (vec : GaugeVec) : GaugeVec :=
  <[labels := v]> vec.

(** The four label values of the per-cache vectors, for cache [c]. *)
Definition labels (c : Cache.t) (category subcategory : string) : list string :=
  [Cache.Device c; strconv_Itoa (Cache.ID c); category; subcategory].

(** The [Set] calls on [ocfStatCount] in one pass of the loop body, in
    program order: category, subcategory and the value set. *)
Definition count_sets (stats : CacheStats.t) : list (string * string * float) :=
  let i := float64_of_int in
  [ (* Usage *)
    ("usage", "occupancy", i (CacheStats.Occupancy4K stats));
    ("usage", "free", i (CacheStats.Free4K stats));
    ("usage", "clean", i (CacheStats.Clean4K stats));
    ("usage", "dirty", i (CacheStats.Dirty4K stats));
    (* Requests *)
    ("requests", "rd_hits", i (CacheStats.ReadHitsRequests stats));
    ("requests", "rd_partial_misses", i (CacheStats.ReadPartialMissesRequests stats));
    ("requests", "rd_full_misses", i (CacheStats.ReadFullMissesRequests stats));
    ("requests", "rd_total", i (CacheStats.ReadTotalRequests stats));
    ("requests", "wr_hits", i (CacheStats.WriteHitsRequests stats));
    ("requests", "wr_partial_misses", i (CacheStats.WritePartialMissesRequests stats));
    ("requests", "wr_full_misses", i (CacheStats.WriteFullMissesRequests stats));
    ("requests", "wr_total", i (CacheStats.WriteTotalRequests stats));
    ("requests", "rd_pt", CacheStats.ReadTotalPercent stats);
    ("requests", "wr_pt", CacheStats.WriteTotalPercent stats);
    ("requests", "serviced", i (CacheStats.ServicedRequestsRequests stats));
    ("requests", "total", i (CacheStats.TotalRequestsRequests stats));
    (* Blocks *)
    ("blocks", "core_volume_rd", i (CacheStats.ReadsFromCores4K stats));
    ("blocks", "core_volume_wr", i (CacheStats.WritesFromCores4K stats));
    ("blocks", "core_volume_total", i (CacheStats.TotalToFromCores4K stats));
    ("blocks", "cache_volume_rd", i (CacheStats.ReadsFromCache4K stats));
    ("blocks", "cache_volume_wr", i (CacheStats.WritesToCachce4K stats));
    ("blocks", "cache_volume_total", i (CacheStats.TotalToFromCache4K stats));
    ("blocks", "volume_rd", i (CacheStats.ReadsFromExportedObjects4K stats));
    ("blocks", "volume_wr", i (CacheStats.WritesToExportedObjects4K stats));
    ("blocks", "volume_total", i (CacheStats.TotalToFromExportedObjects4K stats));
    (* Errors *)
    ("errors", "cache_volume_rd", i (CacheStats.CacheReadErrorsRequests stats));
    ("errors", "cache_volume_wr", i (CacheStats.CacheWriteErrorsRequests stats));
    ("errors", "cache_volume_total", i (CacheStats.CacheTotalErrorsRequests stats));
    ("errors", "core_volume_rd", i (CacheStats.CoreReadErrorsRequests stats));
    ("errors", "core_volume_wr", i (CacheStats.CoreWriteErrorsRequests stats));
    ("errors", "core_volume_total", i (CacheStats.CoreTotalErrorsRequests stats));
    ("errors", "total", i (CacheStats.TotalErrorsRequests stats)) ].

(** The [Set] calls on [ocfStatPercentage], in program order. *)
Definition percentage_sets (stats : CacheStats.t) : list (string * string * float) :=
  [ (* Usage *)
    ("usage", "occupancy", CacheStats.OccupancyPercent stats);
    ("usage", "free", CacheStats.FreePercent stats);
    ("usage", "clean", CacheStats.CleanPercent stats);
    ("usage", "dirty", CacheStats.DirtyPercent stats);
    (* Requests *)
    ("requests", "rd_hits", CacheStats.ReadHitsPercent stats);
    ("requests", "rd_partial_misses", CacheStats.ReadPartialMissesPercent stats);
    ("requests", "rd_full_misses", CacheStats.ReadFullMissesPercent stats);
    ("requests", "rd_total", CacheStats.ReadTotalPercent stats);
    ("requests", "wr_hits", CacheStats.WriteHitsPercent stats);
    ("requests", "wr_partial_misses", CacheStats.WritePartialMissesPercent stats);
    ("requests", "wr_full_misses", CacheStats.WriteFullMissesPercent stats);
    ("requests", "wr_total", CacheStats.WriteTotalPercent stats);
    ("requests", "rd_pt", CacheStats.ReadTotalPercent stats);
    ("requests", "wr_pt", CacheStats.WriteTotalPercent stats);
    ("requests", "serviced", CacheStats.ServicedRequestsPercent stats);
    ("requests", "total", CacheStats.TotalRequestsPercent stats);
    (* Blocks *)
    ("blocks", "core_volume_rd", CacheStats.ReadsFromCoresPercent stats);
    ("blocks", "core_volume_wr", CacheStats.WritesFromCoresPercent stats);
    ("blocks", "core_volume_total", CacheStats.TotalToFromCoresPercent stats);
    ("blocks", "cache_volume_rd", CacheStats.ReadsFromCachePercent stats);
    ("blocks", "cache_volume_wr", CacheStats.WritesToCachcePercent stats);
    ("blocks", "cache_volume_total", CacheStats.TotalToFromCachePercent stats);
    ("blocks", "volume_rd", CacheStats.ReadsFromExportedObjectsPercent stats);
    ("blocks", "volume_wr", CacheStats.WritesToExportedObjectsPercent stats);
    ("blocks", "volume_total", CacheStats.TotalToFromExportedObjectsPercent stats);
    (* Errors *)
    ("errors", "cache_volume_rd", CacheStats.CacheReadErrorsPercent stats);
    ("errors", "cache_volume_wr", CacheStats.CacheWriteErrorsPercent stats);
    ("errors", "cache_volume_total", CacheStats.CacheTotalErrorsPercent stats);
    ("errors", "core_volume_rd", CacheStats.CoreReadErrorsPercent stats);
    ("errors", "core_volume_wr", CacheStats.CoreWriteErrorsPercent stats);
    ("errors", "core_volume_total", CacheStats.CoreTotalErrorsPercent stats);
    ("errors", "total", CacheStats.TotalErrorsPercent stats) ].

(** The metric model as the specification relates it to a reading: each
    (category, subcategory) with the reading's field of that name, the
    absolute one for the count and the percent one for the percentage (so
    requests/rd_pt is the pass-through reads, requests/wr_pt the pass-through
    writes).  These two tables are written from the specification, not from
    the loop body; [count_sets] and [percentage_sets] above are what the loop
    body does. *)
Definition reading_counts (stats : CacheStats.t) : list (string * string * float) :=
  let i := float64_of_int in
  [ (* Usage *)
    ("usage", "occupancy", i (CacheStats.Occupancy4K stats));
    ("usage", "free", i (CacheStats.Free4K stats));
    ("usage", "clean", i (CacheStats.Clean4K stats));
    ("usage", "dirty", i (CacheStats.Dirty4K stats));
    (* Requests *)
    ("requests", "rd_hits", i (CacheStats.ReadHitsRequests stats));
    ("requests", "rd_partial_misses", i (CacheStats.ReadPartialMissesRequests stats));
    ("requests", "rd_full_misses", i (CacheStats.ReadFullMissesRequests stats));
    ("requests", "rd_total", i (CacheStats.ReadTotalRequests stats));
    ("requests", "wr_hits", i (CacheStats.WriteHitsRequests stats));
    ("requests", "wr_partial_misses", i (CacheStats.WritePartialMissesRequests stats));
    ("requests", "wr_full_misses", i (CacheStats.WriteFullMissesRequests stats));
    ("requests", "wr_total", i (CacheStats.WriteTotalRequests stats));
    ("requests", "rd_pt", i (CacheStats.PassThroughReadsRequests stats));
    ("requests", "wr_pt", i (CacheStats.PassThroughWritesRequests stats));
    ("requests", "serviced", i (CacheStats.ServicedRequestsRequests stats));
    ("requests", "total", i (CacheStats.TotalRequestsRequests stats));
    (* Blocks *)
    ("blocks", "core_volume_rd", i (CacheStats.ReadsFromCores4K stats));
    ("blocks", "core_volume_wr", i (CacheStats.WritesFromCores4K stats));
    ("blocks", "core_volume_total", i (CacheStats.TotalToFromCores4K stats));
    ("blocks", "cache_volume_rd", i (CacheStats.ReadsFromCache4K stats));
    ("blocks", "cache_volume_wr", i (CacheStats.WritesToCachce4K stats));
    ("blocks", "cache_volume_total", i (CacheStats.TotalToFromCache4K stats));
    ("blocks", "volume_rd", i (CacheStats.ReadsFromExportedObjects4K stats));
    ("blocks", "volume_wr", i (CacheStats.WritesToExportedObjects4K stats));
    ("blocks", "volume_total", i (CacheStats.TotalToFromExportedObjects4K stats));
    (* Errors *)
    ("errors", "cache_volume_rd", i (CacheStats.CacheReadErrorsRequests stats));
    ("errors", "cache_volume_wr", i (CacheStats.CacheWriteErrorsRequests stats));
    ("errors", "cache_volume_total", i (CacheStats.CacheTotalErrorsRequests stats));
    ("errors", "core_volume_rd", i (CacheStats.CoreReadErrorsRequests stats));
    ("errors", "core_volume_wr", i (CacheStats.CoreWriteErrorsRequests stats));
    ("errors", "core_volume_total", i (CacheStats.CoreTotalErrorsRequests stats));
    ("errors", "total", i (CacheStats.TotalErrorsRequests stats)) ].

Definition reading_percentages (stats : CacheStats.t) : list (string * string * float) :=
  [ (* Usage *)
    ("usage", "occupancy", CacheStats.OccupancyPercent stats);
    ("usage", "free", CacheStats.FreePercent stats);
    ("usage", "clean", CacheStats.CleanPercent stats);
    ("usage", "dirty", CacheStats.DirtyPercent stats);
    (* Requests *)
    ("requests", "rd_hits", CacheStats.ReadHitsPercent stats);
    ("requests", "rd_partial_misses", CacheStats.ReadPartialMissesPercent stats);
    ("requests", "rd_full_misses", CacheStats.ReadFullMissesPercent stats);
    ("requests", "rd_total", CacheStats.ReadTotalPercent stats);
    ("requests", "wr_hits", CacheStats.WriteHitsPercent stats);
    ("requests", "wr_partial_misses", CacheStats.WritePartialMissesPercent stats);
    ("requests", "wr_full_misses", CacheStats.WriteFullMissesPercent stats);
    ("requests", "wr_total", CacheStats.WriteTotalPercent stats);
    ("requests", "rd_pt", CacheStats.PassThroughReadsPercent stats);
    ("requests", "wr_pt", CacheStats.PassThroughWritesPercent stats);
    ("requests", "serviced", CacheStats.ServicedRequestsPercent stats);
    ("requests", "total", CacheStats.TotalRequestsPercent stats);
    (* Blocks *)
    ("blocks", "core_volume_rd", CacheStats.ReadsFromCoresPercent stats);
    ("blocks", "core_volume_wr", CacheStats.WritesFromCoresPercent stats);
    ("blocks", "core_volume_total", CacheStats.TotalToFromCoresPercent stats);
    ("blocks", "cache_volume_rd", CacheStats.ReadsFromCachePercent stats);
    ("blocks", "cache_volume_wr", CacheStats.WritesToCachcePercent stats);
    ("blocks", "cache_volume_total", CacheStats.TotalToFromCachePercent stats);
    ("blocks", "volume_rd", CacheStats.ReadsFromExportedObjectsPercent stats);
    ("blocks", "volume_wr", CacheStats.WritesToExportedObjectsPercent stats);
    ("blocks", "volume_total", CacheStats.TotalToFromExportedObjectsPercent stats);
    (* Errors *)
    ("errors", "cache_volume_rd", CacheStats.CacheReadErrorsPercent stats);
    ("errors", "cache_volume_wr", CacheStats.CacheWriteErrorsPercent stats);
    ("errors", "cache_volume_total", CacheStats.CacheTotalErrorsPercent stats);
    ("errors", "core_volume_rd", CacheStats.CoreReadErrorsPercent stats);
    ("errors", "core_volume_wr", CacheStats.CoreWriteErrorsPercent stats);
    ("errors", "core_volume_total", CacheStats.CoreTotalErrorsPercent stats);
    ("errors", "total", CacheStats.TotalErrorsPercent stats) ].

(** Running a sequence of [Set] calls for cache [c] on a vector. *)
Definition set_all (c : Cache.t) (sets : list (string * string * float))
    (vec : GaugeVec) : GaugeVec :=
  fold_left (fun vec '(category, subcategory, v) =>
               GaugeVec_Set (labels c category subcategory) v vec)
            sets vec.

(** The gauge updates of the loop body once [stats] has been obtained. *)
Definition observe (c : Cache.t) (stats : CacheStats.t) (e : CasExporter) : CasExporter :=
  {| extractionInterval := extractionInterval e;
     ocfStatCount := set_all c (count_sets stats) (ocfStatCount e);
     ocfStatPercentage := set_all c (percentage_sets stats) (ocfStatPercentage e);
     ocfStatDuration := ocfStatDuration e;
     ocfStatSuccess := ocfStatSuccess e |}.

(** What an iteration does to the outside, recorded for the statements
    below: the adapter calls with their results, and the [slog] records. *)
Inductive Call : Type :=
| CallListCaches (r : result (list Cache.t))
| CallGetCacheStats (c : Cache.t) (r : result CacheStats.t).

Record LogRecord : Type := {
  log_level : string;
  log_msg : string;
  log_attrs : list (string * string);
}.

(** The state of one iteration of the [default] branch: the exporter, the
    world, the local [success], and the record of calls and logs. *)
Record Iter : Type := {
  exporter : CasExporter;
  world : World;
  success : Z;
  calls : list Call;
  logs : list LogRecord;
}.

Section Scheduler.
Variable env : Env.

(** The body of [for _, c := range caches]. *)
Definition sample (c : Cache.t) (it : Iter) : Iter :=
  if String.eqb (Cache.Device c) "-" then it (* continue *)
  else
    let '(r, w') := GetCacheStats env (world it) (Cache.ID c) in
    match r with
    | Err err =>
        {| exporter := exporter it;
           world := w';
           success := 0;
           calls := calls it ++ [CallGetCacheStats c (Err err)];
           logs := logs it ++
             [{| log_level := "ERROR"; log_msg := "get cache stats";
                 log_attrs := [("cache_id", strconv_Itoa (Cache.ID c));
                               ("err", err)] |}] |} (* continue *)
    | Ok stats =>
        {| exporter := observe c stats (exporter it);
           world := w';
           success := success it;
           calls := calls it ++ [CallGetCacheStats c (Ok stats)];
           logs := logs it |}
    end.

Definition sample_all (caches : list Cache.t) (it : Iter) : Iter :=
  fold_left (fun it c => sample c it) caches it.

(** From [start := time.Now()] to the end of the [if err != nil] block. *)
Definition extract (e : CasExporter) (w : World) : Iter :=
  let '(r, w1) := ListCaches env w in
  match r with
  | Err err =>
      {| exporter := e; world := w1; success := 0;
         calls := [CallListCaches (Err err)];
         logs := [{| log_level := "ERROR"; log_msg := "list caches";
                     log_attrs := [("err", err)] |}] |}
  | Ok caches =>
      sample_all caches
        {| exporter := e; world := w1; success := 1;
           calls := [CallListCaches (Ok caches)]; logs := [] |}
  end.

(** One iteration of the [default] branch, up to but excluding the sleep. *)
Definition cycle (e : CasExporter) (w : World) : Iter :=
  let start := time_Now w in
  let it := extract e w in
  let duration := time_Now (world it) - start in
  let e' := exporter it in
  {| exporter :=
       {| extractionInterval := extractionInterval e';
          ocfStatCount := ocfStatCount e';
          ocfStatPercentage := ocfStatPercentage e';
          ocfStatDuration := GaugeVec_Set [] (Seconds duration) (ocfStatDuration e');
          ocfStatSuccess :=
            GaugeVec_Set [] (float64_of_int (success it)) (ocfStatSuccess e') |};
     world := world it;
     success := success it;
     calls := calls it;
     logs := logs it ++
       [{| log_level := "INFO"; log_msg := "extracted opencas stats";
           log_attrs := [("duration", strconv_Itoa duration);
                         ("success", if success it =? 1 then "true" else "false")] |}] |}.

(** How far [Start] has got when it is looked at. *)
Inductive Progress : Type :=
| Returned (e : CasExporter) (w : World)  (* after [wg.Done()] *)
| Looping (e : CasExporter) (w : World).  (* at the top of the [for] *)

(** [Start]: at most [n] iterations of the [for] loop. *)
Fixpoint Start (n : nat) (e : CasExporter) (w : World) : Progress :=
  match n with
  | O => Looping e w
  | S n' =>
      if ctx_Done w then Returned e w
      else
        let it := cycle e w in
        Start n' (exporter it) (time_Sleep (extractionInterval e) (world it))
  end.
End Scheduler.

(** Notions for stating what an iteration did. *)

(** The caches the loop does not skip. *)
Definition active (c : Cache.t) : bool := negb (String.eqb (Cache.Device c) "-").

(** The caches [GetCacheStats] was called for, in call order. *)
Definition sampled (cs : list Call) : list Cache.t :=
  flat_map (fun call => match call with
                        | CallGetCacheStats c _ => [c]
                        | CallListCaches _ => []
                        end) cs.

(** A sample call that returned an error. *)
Definition failed (call : Call) : bool :=
  match call with
  | CallGetCacheStats _ (Err _) => true
  | _ => false
  end.

(** The gauge updates that follow the successful calls of [cs], in order. *)
Definition replay (cs : list Call) (e : CasExporter) : CasExporter :=
  fold_left (fun e call => match call with
                           | CallGetCacheStats c (Ok stats) => observe c stats e
                           | _ => e
                           end) cs e.

(** The exporter and the world [Start] has reached. *)
Definition progress_exporter (p : Progress) : CasExporter :=
  match p with
  | Returned e _ => e
  | Looping e _ => e
  end.

Definition progress_world (p : Progress) : World :=
  match p with
  | Returned _ w => w
  | Looping _ w => w
  end.

(** Every child of the vector is labelled by an active cache and by one of
    the (category, subcategory) pairs of the loop body. *)
Definition fixed_keyed (vec : GaugeVec) : Prop :=
  forall k, is_Some (vec !! k) ->
    exists c category subcategory stats,
      k = labels c category subcategory
      /\ active c = true
      /\ In (category, subcategory) (map fst (count_sets stats)).

End casexporter.

(** ** Package [transport/http]: the [/metrics] handler *)

Module promhttp.
(** [promhttp.HandlerFor(reg, opts)] allocates the semaphore that enforces
    [opts.MaxRequestsInFlight] when the handler is built: a buffered
    channel of that capacity, owned by the handler it returns. *)
Record Handler : Type := {
  inFlightSem_cap : nat;
  inFlightSem_len : nat;
}.

Definition HandlerFor (MaxRequestsInFlight : nat) : Handler :=
  {| inFlightSem_cap := MaxRequestsInFlight; inFlightSem_len := 0 |}.

(** The entry of [ServeHTTP]:
    [select { case inFlightSem <- struct{}{}: ... default: 503 }]. *)
Definition enter (h : Handler) : option Handler :=
  if (inFlightSem_len h <? inFlightSem_cap h)%nat
  then Some {| inFlightSem_cap := inFlightSem_cap h;
               inFlightSem_len := S (inFlightSem_len h) |}
  else None.
End promhttp.

Module transport.

(** The requests the server is rendering, each with the handler its
    closure built, and the requests answered so far. *)
Record Server : Type := {
  in_flight : list promhttp.Handler;
  served : nat;
  rejected : nat;
}.

Definition idle : Server := {| in_flight := []; served := 0; rejected := 0 |}.

Inductive Event : Type :=
| Arrive              (* a GET /metrics reaches the closure *)
| Finish (i : nat).   (* the [i]-th rendering in flight completes *)

(** The closure registered with [m.HandleFunc("/metrics", ...)], up to the
    point where [ServeHTTP] has taken (or been refused) its slot: the
    handler is built by [HandlerFor] inside the closure, per request. *)
Definition metrics_begin (s : Server) : Server :=
  let h := promhttp.HandlerFor 40 in
  match promhttp.enter h with
  | Some h' =>
      {| in_flight := in_flight s ++ [h'];
         served := served s; rejected := rejected s |}
  | None =>
      {| in_flight := in_flight s;
         served := served s; rejected := S (rejected s) |}
  end.

(** The rest of the closure: rendering done, slot released, log written. *)
Definition metrics_end (i : nat) (s : Server) : Server :=
  match in_flight s !! i with
  | Some _ =>
      {| in_flight := take i (in_flight s) ++ drop (S i) (in_flight s);
         served := S (served s); rejected := rejected s |}
  | None => s
  end.

Definition step (s : Server) (ev : Event) : Server :=
  match ev with
  | Arrive => metrics_begin s
  | Finish i => metrics_end i s
  end.

Definition run (evs : list Event) (s : Server) : Server := fold_left step evs s.

(** The number of requests that have arrived. *)
Definition arrivals (evs : list Event) : nat :=
  length (List.filter (fun ev => match ev with Arrive => true | Finish _ => false end)
            evs).

End transport.

(** ** The process: [main] and the goroutines it starts *)

Module process.

(** Who takes the next step: one of the four goroutines, or the operating
    system delivering the interrupt signal. *)
Inductive Agent : Type := Main | Scheduler | Serve | Listener | Signal.

Inductive MainPC : Type :=
| MGoStart      (* go c.Start(ctx, &wg) *)
| MAddStart     (* wg.Add(1) *)
| MGoServe      (* go http.Serve(ctx, &wg) *)
| MAddServe     (* wg.Add(1) *)
| MAwaitStop    (* <-stop *)
| MCancel       (* cancel() *)
| MWait         (* wg.Wait() *)
| MReturn.      (* end of main *)

Inductive StartPC : Type :=
| STop          (* select on ctx.Done() *)
| SBody         (* the cycle and the sleep *)
| SGone.        (* returned, after wg.Done() *)

Inductive ServePC : Type :=
| VSetup        (* registry, mux, server; go func() { ListenAndServe } *)
| VAwaitDone    (* <-ctx.Done() *)
| VShutdown     (* srv.Shutdown(timeout) *)
| VDone         (* wg.Done() *)
| VGone.

Inductive ListenPC : Type :=
| LServing      (* inside srv.ListenAndServe() *)
| LFailed       (* it returned err != nil: slog.Error, os.Exit(1) *)
.

Record State : Type := {
  main_pc : MainPC;
  start_pc : option StartPC;      (* [None]: goroutine not started yet *)
  serve_pc : option ServePC;
  listen_pc : option ListenPC;
  wg : Z;                         (* the WaitGroup counter *)
  stop : bool;                    (* a signal is buffered in [stop] *)
  cancelled : bool;               (* ctx.Done() is closed *)
  shut_down : bool;               (* srv.Shutdown has been called *)
  bind_fails : bool;              (* the address cannot be listened on *)
  exit_status : option Z;         (* [Some c]: the process has exited *)
}.

Definition boot (bind_fails : bool) : State :=
  {| main_pc := MGoStart; start_pc := None; serve_pc := None;
     listen_pc := None; wg := 0; stop := false; cancelled := false;
     shut_down := false; bind_fails := bind_fails; exit_status := None |}.

Definition set_main (pc : MainPC) (s : State) : State :=
  {| main_pc := pc; start_pc := start_pc s; serve_pc := serve_pc s;
     listen_pc := listen_pc s; wg := wg s; stop := stop s;
     cancelled := cancelled s; shut_down := shut_down s;
     bind_fails := bind_fails s; exit_status := exit_status s |}.
Definition set_start (pc : option StartPC) (s : State) : State :=
  {| main_pc := main_pc s; start_pc := pc; serve_pc := serve_pc s;
     listen_pc := listen_pc s; wg := wg s; stop := stop s;
     cancelled := cancelled s; shut_down := shut_down s;
     bind_fails := bind_fails s; exit_status := exit_status s |}.
Definition set_serve (pc : option ServePC) (s : State) : State :=
  {| main_pc := main_pc s; start_pc := start_pc s; serve_pc := pc;
     listen_pc := listen_pc s; wg := wg s; stop := stop s;
     cancelled := cancelled s; shut_down := shut_down s;
     bind_fails := bind_fails s; exit_status := exit_status s |}.
Definition set_listen (pc : option ListenPC) (s : State) : State :=
  {| main_pc := main_pc s; start_pc := start_pc s; serve_pc := serve_pc s;
     listen_pc := pc; wg := wg s; stop := stop s;
     cancelled := cancelled s; shut_down := shut_down s;
     bind_fails := bind_fails s; exit_status := exit_status s |}.
Definition set_wg (n : Z) (s : State) : State :=
  {| main_pc := main_pc s; start_pc := start_pc s; serve_pc := serve_pc s;
     listen_pc := listen_pc s; wg := n; stop := stop s;
     cancelled := cancelled s; shut_down := shut_down s;
     bind_fails := bind_fails s; exit_status := exit_status s |}.
Definition set_stop (b : bool) (s : State) : State :=
  {| main_pc := main_pc s; start_pc := start_pc s; serve_pc := serve_pc s;
     listen_pc := listen_pc s; wg := wg s; stop := b;
     cancelled := cancelled s; shut_down := shut_down s;
     bind_fails := bind_fails s; exit_status := exit_status s |}.
Definition set_cancelled (s : State) : State :=
  {| main_pc := main_pc s; start_pc := start_pc s; serve_pc := serve_pc s;
     listen_pc := listen_pc s; wg := wg s; stop := stop s;
     cancelled := true; shut_down := shut_down s;
     bind_fails := bind_fails s; exit_status := exit_status s |}.
Definition set_shut_down (s : State) : State :=
  {| main_pc := main_pc s; start_pc := start_pc s; serve_pc := serve_pc s;
     listen_pc := listen_pc s; wg := wg s; stop := stop s;
     cancelled := cancelled s; shut_down := true;
     bind_fails := bind_fails s; exit_status := exit_status s |}.
Definition exit (code : Z) (s : State) : State :=
  {| main_pc := main_pc s; start_pc := start_pc s; serve_pc := serve_pc s;
     listen_pc := listen_pc s; wg := wg s; stop := stop s;
     cancelled := cancelled s; shut_down := shut_down s;
     bind_fails := bind_fails s; exit_status := Some code |}.

(** [wg.Done()]: a counter that would go negative panics (exit status 2). *)
Definition wg_Done (s : State) : State :=
  if wg s <=? 0 then exit 2 s else set_wg (wg s - 1) s.

(** [main], one statement at a time; [None] when it cannot move. *)
Definition main_step (s : State) : option State :=
  match main_pc s with
  | MGoStart => Some (set_main MAddStart (set_start (Some STop) s))
  | MAddStart => Some (set_main MGoServe (set_wg (wg s + 1) s))
  | MGoServe => Some (set_main MAddServe (set_serve (Some VSetup) s))
  | MAddServe => Some (set_main MAwaitStop (set_wg (wg s + 1) s))
  | MAwaitStop => if stop s then Some (set_main MCancel (set_stop false s)) else None
  | MCancel => Some (set_main MWait (set_cancelled s))
  | MWait => if wg s =? 0 then Some (set_main MReturn s) else None
  | MReturn => Some (exit 0 s)
  end.

(** [CasExporter.Start], seen from outside. *)
Definition Start_step (s : State) : option State :=
  match start_pc s with
  | Some STop =>
      if cancelled s then Some (set_start (Some SGone) (wg_Done s))
      else Some (set_start (Some SBody) s)
  | Some SBody => Some (set_start (Some STop) s)
  | Some SGone | None => None
  end.

(** [ExporterServer.Serve]. *)
Definition Serve_step (s : State) : option State :=
  match serve_pc s with
  | Some VSetup => Some (set_serve (Some VAwaitDone) (set_listen (Some LServing) s))
  | Some VAwaitDone => if cancelled s then Some (set_serve (Some VShutdown) s) else None
  | Some VShutdown => Some (set_serve (Some VDone) (set_shut_down s))
  | Some VDone => Some (set_serve (Some VGone) (wg_Done s))
  | Some VGone | None => None
  end.

(** The goroutine [Serve] starts around [srv.ListenAndServe()].  The call
    returns only with a non-nil error: at once when the address cannot be
    bound, and with [http.ErrServerClosed] once [Shutdown] has been
    called.  The goroutine then logs and calls [os.Exit(1)]. *)
Definition listen_step (s : State) : option State :=
  match listen_pc s with
  | Some LServing =>
      if bind_fails s || shut_down s then Some (set_listen (Some LFailed) s)
      else None
  | Some LFailed => Some (exit 1 s)
  | None => None
  end.

(** The interrupt arrives and [signal.Notify(stop, os.Interrupt)] buffers
    it in [stop] (capacity one).  An interrupt before [Notify] is outside
    the model. *)
Definition signal_step (s : State) : option State :=
  match main_pc s with
  | MGoStart | MAddStart | MGoServe | MAddServe => None
  | MAwaitStop | MCancel | MWait | MReturn => Some (set_stop true s)
  end.

Definition step (a : Agent) (s : State) : option State :=
  match exit_status s with
  | Some _ => None
  | None =>
      match a with
      | Main => main_step s
      | Scheduler => Start_step s
      | Serve => Serve_step s
      | Listener => listen_step s
      | Signal => signal_step s
      end
  end.

(** A schedule is the order in which the agents are given a turn; an
    agent that cannot move passes. *)
Definition run (schedule : list Agent) (s : State) : State :=
  fold_left (fun s a => default s (step a s)) schedule s.

(** What the teardown keeps true.  [adds] is the number of [wg.Add(1)]
    behind [main], [dones] the number of [wg.Done()] behind the two tasks. *)
Definition adds (pc : MainPC) : Z :=
  match pc with
  | MGoStart | MAddStart => 0
  | MGoServe | MAddServe => 1
  | MAwaitStop | MCancel | MWait | MReturn => 2
  end.

Definition dones (s : State) : Z :=
  (match start_pc s with Some SGone => 1 | _ => 0 end)
  + (match serve_pc s with Some VGone => 1 | _ => 0 end).

Definition teardown_inv (s : State) : Prop :=
  (match exit_status s with
   | None | Some 0 => wg s = adds (main_pc s) - dones s
   | Some _ => True
   end)
  /\ (match exit_status s with
      | Some 0 => main_pc s = MReturn
      | _ => True
      end)
  /\ (match main_pc s with
      | MGoStart => start_pc s = None /\ serve_pc s = None
      | MAddStart | MGoServe => serve_pc s = None
      | MAwaitStop | MAddServe | MCancel => True
      | MWait => cancelled s = true
      | MReturn =>
          cancelled s = true /\ start_pc s = Some SGone /\ serve_pc s = Some VGone
      end).

(** What every reachable state satisfies besides: cancellation comes from
    [main] only, both tasks act on it only after it has come, and the
    process ends only by [main] returning or by the listener goroutine. *)
Definition safe_inv (s : State) : Prop :=
  teardown_inv s
  /\ (cancelled s = true -> main_pc s = MWait \/ main_pc s = MReturn)
  /\ (match serve_pc s with
      | Some VShutdown | Some VDone | Some VGone => cancelled s = true
      | _ => True
      end)
  /\ (match start_pc s with
      | Some SGone => cancelled s = true
      | _ => True
      end)
  /\ (shut_down s = true -> cancelled s = true)
  /\ (match listen_pc s with
      | Some LFailed => bind_fails s = true \/ shut_down s = true
      | _ => True
      end)
  /\ (match exit_status s with
      | None | Some 0 => True
      | Some 1 => listen_pc s = Some LFailed
      | Some _ => False
      end).

End process.

(** ** The historical exporter ([cas_exporter.go]): start-up *)

Module legacy.

(** [initializeHeaders]: the assignments [headers[internal] = external],
    in program order. *)
Definition header_assignments : list (string * string) :=
  [ ("occupancy_blk", "Occupancy [4KiB blocks]");
    ("occupancy_pct", "Occupancy [%]");
    ("free_blk", "Free [4KiB blocks]");
    ("free_pct", "Free [%]");
    ("clean_blk", "Clean [4KiB blocks]");
    ("clean_pct", "Clean [%]");
    ("diry_blk", "Dirty [4KiB blocks]");
    ("dirty_pct", "Dirty [%]");
    ("rd_hit_blk", "Read hits [Requests]");
    ("rd_hit_pct", "Read hits [%]");
    ("rd_part_misses_blk", "Read partial misses [Requests]");
    ("rd_part_misses_pct", "Read partial misses [%]");
    ("rd_full_misses_blk", "Read full misses [Requests]");
    ("rd_full_misses_pct", "Read full misses [%]");
    ("rd_total_blk", "Read total [Requests]");
    ("rd_total_pct", "Read total [%]");
    ("wt_hit_blk", "Write hits [Requests]");
    ("wt_hit_pct", "Write hits [%]");
    ("wt_part_misses_blk", "Write partial misses [Requests]");
    ("wt_part_misses_pct", "Write partial misses [%]");
    ("wt_full_misses_blk", "Write full misses [Requests]");
    ("wt_full_misses_pct", "Write full misses [%]");
    ("wt_total_blk", "Write total [Requests]");
    ("wt_total_pct", "Write total [%]");
    ("passthru_rd_blk", "Pass-Through reads [Requests]");
    ("passthru_rd_pct", "Pass-Through reads [%]");
    ("passthru_wt_blk", "Pass-Through writes [Requests]");
    ("passthru_wt_pct", "Pass-Through writes [%]");
    ("serviced_blk", "Serviced requests [Requests]");
    ("serviced_pct", "Serviced requests [%]");
    ("total_request_blk", "Total requests [Requests]");
    ("total_request_pct", "Total requests [%]");
    ("rd_core_blk", "Reads from core(s) [4KiB blocks]");
    ("rd_core_pct", "Reads from core(s) [%]");
    ("wt_core_blk", "Writes to core(s) [4KiB blocks]");
    ("wt_core_pct", "Writes to core(s) [%]");
    ("total_core_blk", "Total to/from core(s) [4KiB blocks]");
    ("total_core_pct", "Total to/from core(s) [%]");
    ("rd_cache_blk", "Reads from cache [4KiB blocks]");
    ("rd_cache_pct", "Reads from cache [%]");
    ("wt_cache_blk", "Writes to cache [4KiB blocks]");
    ("wt_cache_pct", "Writes to cache [%]");
    ("total_cache_blk", "Total to/from cache [4KiB blocks]");
    ("total_cache_pct", "Total to/from cache [%]");
    ("rd_cas_blk", "Reads from exported object(s) [4KiB blocks]");
    ("rd_cas_pct", "Reads from exported object(s) [%]");
    ("wt_cas_blk", "Writes to exported object(s) [4KiB blocks]");
    ("wt_cas_pct", "Writes to exported object(s) [%]");
    ("total_cas_blk", "Total to/from exported object(s) [4KiB blocks]");
    ("total_cas_pct", "Total to/from exported object(s) [%]");
    ("cache_rd_error_blk", "Cache read errors [Requests]");
    ("cache_rd_error_pct", "Cache read errors [%]");
    ("cache_wt_error_blk", "Cache write errors [Requests]");
    ("cache_wt_error_pct", "Cache write errors [%]");
    ("cache_total_error_blk", "Cache total errors [Requests]");
    ("cache_total_error_pct", "Cache total errors [%]");
    ("core_rd_error_blk", "Core read errors [Requests]");
    ("core_rd_error_pct", "Core read errors [%]");
    ("core_wt_error_blk", "Core write errors [Requests]");
    ("core_wt_error_pct", "Core write errors [%]");
    ("core_total_error_blk", "Core total errors [Requests]");
    ("core_total_error_pct", "Core total errors [%]");
    ("total_error_blk", "Total errors [Requests]");
    ("total_error_pct", "Total errors [%]") ].

Definition initializeHeaders (headers : gmap string string) : gmap string string :=
  fold_left (fun m '(k, v) => <[k := v]> m) header_assignments headers.

(** The inner [for i := 0; i < len(csv_headers); i++] of [mapHeaders]:
    the first position, from [i] on, whose column text contains the
    keyword. *)
Fixpoint find_column (csv_headers : list string) (i : Z) (header_keyword : string)
    : option Z :=
  match csv_headers with
  | [] => None
  | csv_header :: rest =>
      if strings_Contains csv_header header_keyword then Some i
      else find_column rest (i + 1) header_keyword
  end.

(** The outer [for _, key := range all_keys] of [mapHeaders], with the
    function-level variable [found] and the global [headerMap] threaded
    through.  Returns the return code and [headerMap]. *)
Fixpoint mapHeaders_keys (headers : gmap string string) (csv_headers : list string)
    (all_keys : list string) (found : bool) (headerMap : gmap string Z)
    (stdout : list string) : Z * gmap string Z * list string :=
  match all_keys with
  | [] => (0, headerMap, stdout)
  | key :: rest =>
      let header_keyword := default EmptyString (headers !! key) in
      let '(found, headerMap) :=
        match find_column csv_headers 0 header_keyword with
        | Some i => (true, <[header_keyword := i]> headerMap)
        | None => (found, headerMap)
        end in
      if negb found
      then (1, headerMap,
            (stdout ++ [("WARNING: did not find the header [" ++ header_keyword
                           ++ "] in the csv output")%string])%list)
      else mapHeaders_keys headers csv_headers rest found headerMap stdout
  end.

(** [mapHeaders].  [all_keys] is the order in which [range headers]
    happened to yield the keys (Go leaves it unspecified). *)
Definition mapHeaders (headers : gmap string string) (all_keys : list string)
    (headerline : string) (headerMap : gmap string Z) (stdout : list string)
    : Z * gmap string Z * list string :=
  mapHeaders_keys headers (strings_Split headerline comma) all_keys false
                  headerMap stdout.

(** [xprint]: a line in the log file when logging is enabled. *)
Definition xprint (isLogEnabled : bool) (message : string) (logfile : list string)
    : list string :=
  if isLogEnabled then (logfile ++ [message])%list else logfile.

(** Where the start-up part of [main] ends: the process has exited, has
    panicked, or is about to call [recordMetrics_19_9()].  What [main] does
    from that call on is [step] and [run] below. *)
Inductive Startup : Type :=
| Exited (code : Z) (stdout logfile : list string)
| Panicked (stdout logfile : list string)
| Serving (headerMap : gmap string Z) (stdout logfile : list string).
    (* at the call of [recordMetrics_19_9()] *)

(** The start-up part of [main]: from the probe of
    [casadm -P -i <cache> -o csv] to the call of [recordMetrics_19_9()];
    [probe] is the outcome of that command.  The last three statements of
    [main] are modelled by [start], [step] and [run] below. *)
Definition main (isLogEnabled : bool) (all_keys : list string) (probe : CmdResult)
    (cache : string) : Startup :=
  match cmd_err probe with
  | Some err =>
      Exited 1
        ["ERROR: Unable to start because the command [casadm -P -i " ++ cache
           ++ " -o csv]";
         "ERROR: Please ensure you have configured Open CAS Linux and that this command succeeds";
         err]
        []
  | None =>
      let ocf_csv_data := cmd_out probe in
      let logfile := xprint isLogEnabled ("INITIAL DATA:" ++ String newline ocf_csv_data) [] in
      let outArray := strings_Split ocf_csv_data newline in
      let logfile :=
        if (length outArray <? 1)%nat
        then xprint isLogEnabled
               ("ERROR : data returned did not contain at least 2 lines. OUTPUT:"
                  ++ ocf_csv_data) logfile
        else logfile in
      match outArray with
      | [] => Panicked [] logfile   (* outArray[0]: index out of range *)
      | headerline :: _ =>
          let headers := initializeHeaders ∅ in
          let '(rc, headerMap, stdout) := mapHeaders headers all_keys headerline ∅ [] in
          let logfile :=
            if negb (rc =? 0)
            then xprint isLogEnabled "ERROR : Failed to map header" logfile
            else logfile in
          Serving headerMap stdout logfile
      end
  end.

(** *** [recordMetrics_19_9]: one pass of the recording loop *)

(** The key [main]'s recorder looks up in [headerMap]. *)
Definition occupancy_blk : string := "occupancy_blk".

(** The two global vectors, labelled by category and subcategory. *)
Record Gauges : Type := {
  OCFStat_count : gmap (list string) float;
  OCFStat_percentage : gmap (list string) float;
}.

Inductive Vector : Type := Count | Percentage.

(** Where a statement of the pass reads its field: [parsed_ocf_data[i]]
    for a literal [i], or [parsed_ocf_data[headerMap[key]]]. *)
Inductive Column : Type :=
| At (i : Z)
| Mapped (key : string).

(** The statements
    [if s, err := strconv.ParseFloat(parsed_ocf_data[...], 64); err == nil
       { OCFStat_xxx.With(Labels{category, subcategory}).Set(s) }]
    of [recordMetrics_19_9], in program order. *)
Definition sets_19_9 : list (Column * Vector * string * string) :=
  [
    (Mapped occupancy_blk, Count, "usage", "occupancy");
    (At 18, Count, "usage", "free");
    (At 20, Count, "usage", "clean");
    (At 22, Count, "usage", "dirty");
    (At 24, Count, "requests", "rd_hits");
    (At 26, Count, "requests", "rd_partial_misses");
    (At 28, Count, "requests", "rd_full_misses");
    (At 30, Count, "requests", "rd_total");
    (At 32, Count, "requests", "wr_hits");
    (At 34, Count, "requests", "wr_partial_misses");
    (At 36, Count, "requests", "wr_full_misses");
    (At 38, Count, "requests", "wr_total");
    (At 31, Count, "requests", "rd_pt");
    (At 39, Count, "requests", "wr_pt");
    (At 44, Count, "requests", "serviced");
    (At 46, Count, "requests", "total");
    (At 48, Count, "blocks", "core_volume_rd");
    (At 50, Count, "blocks", "core_volume_wr");
    (At 52, Count, "blocks", "core_volume_total");
    (At 54, Count, "blocks", "cache_volume_rd");
    (At 56, Count, "blocks", "cache_volume_wr");
    (At 58, Count, "blocks", "cache_volume_total");
    (At 60, Count, "blocks", "volume_rd");
    (At 62, Count, "blocks", "volume_wr");
    (At 64, Count, "blocks", "volume_total");
    (At 66, Count, "errors", "cache_volume_rd");
    (At 68, Count, "errors", "cache_volume_wr");
    (At 70, Count, "errors", "cache_volume_total");
    (At 72, Count, "errors", "core_volume_rd");
    (At 74, Count, "errors", "core_volume_wr");
    (At 76, Count, "errors", "core_volume_total");
    (At 78, Count, "errors", "total");
    (At 17, Percentage, "usage", "occupancy");
    (At 19, Percentage, "usage", "free");
    (At 21, Percentage, "usage", "clean");
    (At 23, Percentage, "usage", "dirty");
    (At 25, Percentage, "requests", "rd_hits");
    (At 27, Percentage, "requests", "rd_partial_misses");
    (At 29, Percentage, "requests", "rd_full_misses");
    (At 31, Percentage, "requests", "rd_total");
    (At 33, Percentage, "requests", "wr_hits");
    (At 35, Percentage, "requests", "wr_partial_misses");
    (At 37, Percentage, "requests", "wr_full_misses");
    (At 39, Percentage, "requests", "wr_total");
    (At 31, Percentage, "requests", "rd_pt");
    (At 39, Percentage, "requests", "wr_pt");
    (At 45, Percentage, "requests", "serviced");
    (At 47, Percentage, "requests", "total");
    (At 49, Percentage, "blocks", "core_volume_rd");
    (At 51, Percentage, "blocks", "core_volume_wr");
    (At 53, Percentage, "blocks", "core_volume_total");
    (At 55, Percentage, "blocks", "cache_volume_rd");
    (At 57, Percentage, "blocks", "cache_volume_wr");
    (At 59, Percentage, "blocks", "cache_volume_total");
    (At 61, Percentage, "blocks", "volume_rd");
    (At 63, Percentage, "blocks", "volume_wr");
    (At 65, Percentage, "blocks", "volume_total");
    (At 67, Percentage, "errors", "cache_volume_rd");
    (At 69, Percentage, "errors", "cache_volume_wr");
    (At 71, Percentage, "errors", "cache_volume_total");
    (At 73, Percentage, "errors", "core_volume_rd");
    (At 75, Percentage, "errors", "core_volume_wr");
    (At 77, Percentage, "errors", "core_volume_total");
    (At 79, Percentage, "errors", "total") ].

(** [parsed_ocf_data[i]]; [None] is the index-out-of-range panic. *)
Definition index (parsed_ocf_data : list string) (i : Z) : option string :=
  if i <? 0 then None else parsed_ocf_data !! Z.to_nat i.

(** [headerMap[key]]: a missing key reads as 0. *)
Definition column_index (headerMap : gmap string Z) (col : Column) : Z :=
  match col with
  | At i => i
  | Mapped key => default 0 (headerMap !! key)
  end.

Definition set_gauge (v : Vector) (labels : list string) (x : float) (g : Gauges)
    : Gauges :=
  match v with
  | Count =>
      {| OCFStat_count := <[labels := x]> (OCFStat_count g);
         OCFStat_percentage := OCFStat_percentage g |}
  | Percentage =>
      {| OCFStat_count := OCFStat_count g;
         OCFStat_percentage := <[labels := x]> (OCFStat_percentage g) |}
  end.

Definition get_gauge (v : Vector) (labels : list string) (g : Gauges) : option float :=
  match v with
  | Count => OCFStat_count g !! labels
  | Percentage => OCFStat_percentage g !! labels
  end.

(** How a pass of the loop ends. *)
Inductive Pass : Type :=
| Crashed                                        (* run-time panic in the goroutine *)
| Sleeping (g : Gauges) (logfile : list string). (* reached [time.Sleep] *)

Section Recorder.
(** [strconv.ParseFloat(s, 64)]: the value when [err == nil]. *)
Variable ParseFloat : string -> option float.

(** The statements of a pass, run in order on the parsed fields. *)
Fixpoint run_sets (headerMap : gmap string Z) (parsed_ocf_data : list string)
    (sets : list (Column * Vector * string * string)) (g : Gauges) : option Gauges :=
  match sets with
  | [] => Some g
  | (col, v, category, subcategory) :: rest =>
      match index parsed_ocf_data (column_index headerMap col) with
      | None => None
      | Some field =>
          run_sets headerMap parsed_ocf_data rest
            (match ParseFloat field with
             | Some s => set_gauge v [category; subcategory] s g
             | None => g
             end)
      end
  end.

(** One pass of the [for] of [recordMetrics_19_9], from the command's
    outcome to the sleep. *)
Definition recordMetrics_19_9 (isLogEnabled : bool) (headerMap : gmap string Z)
    (out : CmdResult) (g : Gauges) (logfile : list string) : Pass :=
  match cmd_err out with
  | Some _ => Sleeping g logfile
  | None =>
      let output := cmd_out out in
      let outArray := strings_Split output newline in
      if (length outArray <? 2)%nat
      then Sleeping g
             (xprint isLogEnabled
                ("ERROR : data returned did not contain at least 2 lines. OUTPUT:"
                   ++ output) logfile)
      else
        let headerless := drop 1 outArray in
        let ocf_csv_data := strings_Join headerless (String newline EmptyString) in
        let logfile :=
          xprint isLogEnabled ("CAS DATA:" ++ String newline ocf_csv_data) logfile in
        let parsed_ocf_data := strings_Split ocf_csv_data comma in
        match run_sets headerMap parsed_ocf_data sets_19_9 g with
        | None => Crashed
        | Some g' => Sleeping g' logfile
        end
  end.
End Recorder.

(** The gauge a statement sets: the metric name of its vector, then the
    two label values. *)
Definition vector_name (v : Vector) : string :=
  match v with
  | Count => "ocf_count"
  | Percentage => "ocf_percentage"
  end.

Definition gauge_of (st : Column * Vector * string * string) : list string :=
  let '(_, v, category, subcategory) := st in
  [vector_name v; category; subcategory].

(** The fields a pass splits the command's output into. *)
Definition parsed_fields (out : CmdResult) : list string :=
  strings_Split
    (strings_Join (drop 1 (strings_Split (cmd_out out) newline))
       (String newline EmptyString)) comma.

(** *** [main] from [recordMetrics_19_9()] on

    [main] ends with
    [recordMetrics_19_9(); http.Handle(...); log.Fatal(http.ListenAndServe(port, nil))]:
    the recorder goroutine runs its passes while the main goroutine sits in
    [ListenAndServe].  [ListenAndServe] returns only with an error (the
    address cannot be bound, the listener fails), and [log.Fatal] then exits
    with status 1.  A panic in the recorder goroutine is not recovered and
    takes the process down with status 2.  The run-time decides the order of
    these events. *)
Inductive Event : Type :=
| RecorderPass (out : CmdResult)  (* one pass of the recorder; [out] is what its command gave *)
| ListenFails.                    (* [http.ListenAndServe] returns *)

Inductive Process : Type :=
| Up (headerMap : gmap string Z) (g : Gauges) (logfile : list string)
| Down (code : Z).

(** The process at the call of [recordMetrics_19_9()]: the two vectors have
    no child yet. *)
Definition start (isLogEnabled : bool) (all_keys : list string) (probe : CmdResult)
    (cache : string) : Process :=
  match main isLogEnabled all_keys probe cache with
  | Exited code _ _ => Down code
  | Panicked _ _ => Down 2
  | Serving headerMap _ logfile =>
      Up headerMap {| OCFStat_count := ∅; OCFStat_percentage := ∅ |} logfile
  end.

Section Process.
Variable ParseFloat : string -> option float.

Definition step (isLogEnabled : bool) (p : Process) (ev : Event) : Process :=
  match p with
  | Down code => Down code
  | Up headerMap g logfile =>
      match ev with
      | ListenFails => Down 1
      | RecorderPass out =>
          match recordMetrics_19_9 ParseFloat isLogEnabled headerMap out g logfile with
          | Crashed => Down 2
          | Sleeping g' logfile' => Up headerMap g' logfile'
          end
      end
  end.

(** The whole of [main], followed through the events [events]. *)
Definition run (isLogEnabled : bool) (all_keys : list string) (probe : CmdResult)
    (cache : string) (events : list Event) : Process :=
  fold_left (step isLogEnabled) events (start isLogEnabled all_keys probe cache).
End Process.

End legacy.

(** ** Concrete inputs

    A small installation used to run the definitions: three rows in the
    enumeration (cache 1 on /dev/sda, an inactive cache 2, cache 3 on
    /dev/sdb), a [casadm] whose [--stats] succeeds for cache 1 (two rows),
    prints only a header for cache 4, prints an unreadable table for cache 5
    and fails for every other cache, and a decoder that knows these
    outputs. *)

Module demo.
Import casadm casexporter.

Definition lines (ls : list string) : string :=
  fold_right (fun l s => l ++ String newline s) EmptyString ls.

Definition cache (id : Z) (device : string) : Cache.t :=
  {| Cache.Type_ := "cache"; Cache.ID := id; Cache.Disk := "/dev/nvme0n1";
     Cache.Status := "Running"; Cache.WritePolicy := "wt";
     Cache.Device := device |}.

(** A reading with the given values; every other number is zero. *)
Definition reading (id occupancy : Z) (occupancy_pct rd_total_pct wr_total_pct : float)
    (rd_pt : Z) (rd_pt_pct : float) (wr_pt : Z) (wr_pt_pct : float) : CacheStats.t :=
  {|
     CacheStats.ID := id;
     CacheStats.Size4K := 0%float;
     CacheStats.SizeGB := 0%float;
     CacheStats.Device := "/dev/nvme0n1";
     CacheStats.ExportedObject := "-";
     CacheStats.CoreDevices := 0;
     CacheStats.InactiveCoreDevices := 0;
     CacheStats.WritePolicy := "wt";
     CacheStats.CleaningPolicy := "alru";
     CacheStats.PromotionPolicy := "always";
     CacheStats.CacheLineSizeKB := 0%float;
     CacheStats.MetadataMemoryFootprintMB := 0%float;
     CacheStats.DirtyForS := 0;
     CacheStats.DirtyFor := "Cache clean";
     CacheStats.Status := "Running";
     CacheStats.Occupancy4K := occupancy;
     CacheStats.OccupancyPercent := occupancy_pct;
     CacheStats.Free4K := 0;
     CacheStats.FreePercent := 0%float;
     CacheStats.Clean4K := 0;
     CacheStats.CleanPercent := 0%float;
     CacheStats.Dirty4K := 0;
     CacheStats.DirtyPercent := 0%float;
     CacheStats.ReadHitsRequests := 0;
     CacheStats.ReadHitsPercent := 0%float;
     CacheStats.ReadPartialMissesRequests := 0;
     CacheStats.ReadPartialMissesPercent := 0%float;
     CacheStats.ReadFullMissesRequests := 0;
     CacheStats.ReadFullMissesPercent := 0%float;
     CacheStats.ReadTotalRequests := 0;
     CacheStats.ReadTotalPercent := rd_total_pct;
     CacheStats.WriteHitsRequests := 0;
     CacheStats.WriteHitsPercent := 0%float;
     CacheStats.WritePartialMissesRequests := 0;
     CacheStats.WritePartialMissesPercent := 0%float;
     CacheStats.WriteFullMissesRequests := 0;
     CacheStats.WriteFullMissesPercent := 0%float;
     CacheStats.WriteTotalRequests := 0;
     CacheStats.WriteTotalPercent := wr_total_pct;
     CacheStats.PassThroughReadsRequests := rd_pt;
     CacheStats.PassThroughReadsPercent := rd_pt_pct;
     CacheStats.PassThroughWritesRequests := wr_pt;
     CacheStats.PassThroughWritesPercent := wr_pt_pct;
     CacheStats.ServicedRequestsRequests := 0;
     CacheStats.ServicedRequestsPercent := 0%float;
     CacheStats.TotalRequestsRequests := 0;
     CacheStats.TotalRequestsPercent := 0%float;
     CacheStats.ReadsFromCores4K := 0;
     CacheStats.ReadsFromCoresPercent := 0%float;
     CacheStats.WritesFromCores4K := 0;
     CacheStats.WritesFromCoresPercent := 0%float;
     CacheStats.TotalToFromCores4K := 0;
     CacheStats.TotalToFromCoresPercent := 0%float;
     CacheStats.ReadsFromCache4K := 0;
     CacheStats.ReadsFromCachePercent := 0%float;
     CacheStats.WritesToCachce4K := 0;
     CacheStats.WritesToCachcePercent := 0%float;
     CacheStats.TotalToFromCache4K := 0;
     CacheStats.TotalToFromCachePercent := 0%float;
     CacheStats.ReadsFromExportedObjects4K := 0;
     CacheStats.ReadsFromExportedObjectsPercent := 0%float;
     CacheStats.WritesToExportedObjects4K := 0;
     CacheStats.WritesToExportedObjectsPercent := 0%float;
     CacheStats.TotalToFromExportedObjects4K := 0;
     CacheStats.TotalToFromExportedObjectsPercent := 0%float;
     CacheStats.CacheReadErrorsRequests := 0;
     CacheStats.CacheReadErrorsPercent := 0%float;
     CacheStats.CacheWriteErrorsRequests := 0;
     CacheStats.CacheWriteErrorsPercent := 0%float;
     CacheStats.CacheTotalErrorsRequests := 0;
     CacheStats.CacheTotalErrorsPercent := 0%float;
     CacheStats.CoreReadErrorsRequests := 0;
     CacheStats.CoreReadErrorsPercent := 0%float;
     CacheStats.CoreWriteErrorsRequests := 0;
     CacheStats.CoreWriteErrorsPercent := 0%float;
     CacheStats.CoreTotalErrorsRequests := 0;
     CacheStats.CoreTotalErrorsPercent := 0%float;
     CacheStats.TotalErrorsRequests := 0;
     CacheStats.TotalErrorsPercent := 0%float |}.

Definition cacheA : Cache.t := cache 1 "/dev/sda".
Definition cacheI : Cache.t := cache 2 "-".
Definition cacheB : Cache.t := cache 3 "/dev/sdb".

Definition statsA : CacheStats.t :=
  reading 1 100 42.5%float 50%float 25%float 7 1.5%float 9 2.5%float.
Definition statsA' : CacheStats.t :=
  reading 1 200 85%float 60%float 30%float 8 3.5%float 10 4.5%float.

Definition list_csv : string :=
  lines ["type,id,disk,status,write policy,device";
         "cache,1,/dev/nvme0n1,Running,wt,/dev/sda";
         "cache,2,/dev/nvme1n1,Inactive,wt,-";
         "cache,3,/dev/nvme2n1,Running,wt,/dev/sdb"].
Definition statsA_csv : string :=
  lines ["Cache Id,Occupancy [4KiB Blocks],Occupancy [%],Read total [%],Write total [%],Pass-Through reads [Requests],Pass-Through reads [%],Pass-Through writes [Requests],Pass-Through writes [%]";
         "1,100,42.5,50.0,25.0,7,1.5,9,2.5";
         "1,200,85.0,60.0,30.0,8,3.5,10,4.5"].
Definition header_only_csv : string :=
  lines ["Cache Id,Occupancy [4KiB Blocks],Occupancy [%]"].
Definition unreadable_csv : string :=
  lines ["Cache Id,Occupancy [4KiB Blocks]"; "1,many"].
Definition failure_text : string :=
  lines ["Error while retrieving cache properties"].

Definition ok (out : string) : CmdResult := {| cmd_out := out; cmd_err := None |}.
Definition failed (out : string) : CmdResult :=
  {| cmd_out := out; cmd_err := Some "exit status 1" |}.

Definition gocsv_caches (b : string) : result (list Cache.t) :=
  if String.eqb b list_csv then Ok [cacheA; cacheI; cacheB]
  else Err "empty csv file given".

Definition gocsv_stats (b : string) : result (list CacheStats.t) :=
  if String.eqb b statsA_csv then Ok [statsA; statsA']
  else if String.eqb b header_only_csv then Ok []
  else Err "record on line 2: strconv.ParseInt: parsing many: invalid syntax".

Definition casadm_up (args : list string) (w : World) : CmdResult * N :=
  match args with
  | ["--list-caches"; "--output-format"; "csv"] => (ok list_csv, 5%N)
  | ["--stats"; "--cache-id"; id; "--output-format"; "csv"] =>
      if String.eqb id "1" then (ok statsA_csv, 7%N)
      else if String.eqb id "4" then (ok header_only_csv, 7%N)
      else if String.eqb id "5" then (ok unreadable_csv, 7%N)
      else (failed failure_text, 3%N)
  | _ => (failed failure_text, 1%N)
  end.

Definition casadm_down (args : list string) (w : World) : CmdResult * N :=
  (failed failure_text, 2%N).

Definition env : Env :=
  {| run_casadm := casadm_up;
     unmarshal_caches := gocsv_caches;
     unmarshal_stats := gocsv_stats |}.

Definition env_down : Env :=
  {| run_casadm := casadm_down;
     unmarshal_caches := gocsv_caches;
     unmarshal_stats := gocsv_stats |}.

Definition w0 : World := {| clock := 0; cancel_at := None |}.

Definition interval : Z := 30 * Second.
Definition e0 : CasExporter := NewCasExporter interval.

(** The exporter after one cycle against [env]. *)
Definition e1 : CasExporter := exporter (cycle env e0 w0).

(** The error of any call against [env_down]. *)
Definition down_msg : string :=
"list caches: exit status 1: '" ++ failure_text ++ "'".

(** A world in which [cancel()] comes 15 ns after the start: the instant at
  which the first cycle against [env] ends and its sleep begins. *)
Definition w_cancel : World := {| clock := 0; cancel_at := Some 15 |}.

(** A probe output whose header has none of the columns the historical
  exporter looks for. *)
Definition bare_header : string := "Cache Id,Cache Size [4KiB Blocks]".
Definition bare_probe : CmdResult := ok (lines [bare_header; "1,262144"]).

(** Start-up, an interrupt, and a teardown in which the listener goroutine
  runs after [Shutdown]. *)
Definition interrupted_run : list process.Agent :=
[ process.Main; process.Main; process.Main; process.Main;  (* both goroutines started *)
  process.Scheduler;                         (* a cycle begins *)
  process.Serve;                             (* listener started *)
  process.Signal;                            (* the interrupt *)
  process.Main; process.Main;                (* <-stop; cancel() *)
  process.Serve; process.Serve;              (* <-ctx.Done(); srv.Shutdown *)
  process.Listener; process.Listener ].      (* ListenAndServe returns; os.Exit(1) *)

(** The same, with the listener goroutine never scheduled again. *)
Definition drained_run : list process.Agent :=
[ process.Main; process.Main; process.Main; process.Main;
  process.Scheduler;
  process.Serve;
  process.Signal;
  process.Main; process.Main;
  process.Serve; process.Serve; process.Serve;   (* ...; wg.Done() *)
  process.Scheduler; process.Scheduler;          (* cycle ends; ctx.Done(): wg.Done() *)
  process.Main; process.Main ].                  (* wg.Wait(); return *)
(** A float parser that knows a few numerals. *)
Definition parse (s : string) : option float :=
  if String.eqb s "1" then Some 1%float
  else if String.eqb s "100" then Some 100%float
  else if String.eqb s "42.5" then Some 42.5%float
  else if String.eqb s "0" then Some 0%float
  else None.

(** A probe output of 80 columns: the cache id 1, then zeros, with 100 in
    column 16 and 42.5 in column 17. *)
Definition row_80 : string :=
  strings_Join
    (["1"] ++ repeat "0" 15 ++ ["100"; "42.5"] ++ repeat "0" 62)%list ",".
Definition probe_80 : CmdResult := ok (lines ["header"; row_80]).
Definition no_gauges : legacy.Gauges :=
  {| legacy.OCFStat_count := ∅; legacy.OCFStat_percentage := ∅ |}.
End demo.

(** * Properties *)

(** ** Strings *)

Lemma append_nil_l (s : string) : EmptyString ++ s = s.
Proof. reflexivity. Qed.

Lemma append_cons (x : ascii) (a s : string) : String x a ++ s = String x (a ++ s).
Proof. reflexivity. Qed.

Lemma prefix_app (b c : string) : String.prefix b (b ++ c) = true.
Proof.
  induction b as [|x b IH].
  - rewrite append_nil_l. now destruct c.
  - rewrite append_cons. cbn [String.prefix].
    destruct (Ascii.ascii_dec x x); [exact IH|congruence].
Qed.

Lemma strings_Contains_prefix (s sub : string) :
  String.prefix sub s = true -> strings_Contains s sub = true.
Proof. intros H. destruct s; cbn [strings_Contains]; rewrite H; reflexivity. Qed.

Lemma strings_Contains_app_r (a s sub : string) :
  strings_Contains s sub = true -> strings_Contains (a ++ s) sub = true.
Proof.
  intros H. induction a as [|x a IH].
  - rewrite append_nil_l. exact H.
  - rewrite append_cons. cbn [strings_Contains]. rewrite IH. apply orb_true_r.
Qed.

Lemma strings_Contains_app (a b c : string) :
  strings_Contains (a ++ b ++ c) b = true.
Proof. apply strings_Contains_app_r, strings_Contains_prefix, prefix_app. Qed.

(** The shape of the command-failure message: the output sits between the
    quotes. *)
Lemma failure_message_has_output (op err out : string) :
  strings_Contains (op ++ err ++ ": '" ++ out ++ "'") out = true.
Proof. do 2 apply strings_Contains_app_r. apply strings_Contains_app. Qed.

(** ** The adapter *)

Section AdapterFacts.
Import casadm.
Variable env : Env.

Lemma ListCaches_unfold (w : World) :
  ListCaches env w =
    let r := fst (run_casadm env list_args w) in
    let w' := elapse (snd (run_casadm env list_args w)) w in
    match cmd_err r with
    | Some err => (Err ("list caches: " ++ err ++ ": '" ++ cmd_out r ++ "'"), w')
    | None =>
        match unmarshal_caches env (cmd_out r) with
        | Err err => (Err ("unmarshal list caches csv: " ++ err), w')
        | Ok caches => (Ok caches, w')
        end
    end.
Proof.
  unfold ListCaches, CombinedOutput.
  destruct (run_casadm env list_args w) as [r ns]; reflexivity.
Qed.

Lemma GetCacheStats_unfold (w : World) (cacheID : Z) :
  GetCacheStats env w cacheID =
    let r := fst (run_casadm env (stats_args cacheID) w) in
    let w' := elapse (snd (run_casadm env (stats_args cacheID) w)) w in
    match cmd_err r with
    | Some err => (Err ("list caches: " ++ err ++ ": '" ++ cmd_out r ++ "'"), w')
    | None =>
        match unmarshal_stats env (cmd_out r) with
        | Err err => (Err ("unmarshal cache stats csv: " ++ err), w')
        | Ok [] => (Err "missing cache stats", w')
        | Ok (s0 :: _) => (Ok s0, w')
        end
    end.
Proof.
  unfold GetCacheStats, CombinedOutput.
  destruct (run_casadm env (stats_args cacheID) w) as [r ns]; reflexivity.
Qed.

(** The adapter only lets time pass. *)
Lemma ListCaches_clock (w : World) :
  clock w <= clock (snd (ListCaches env w))
  /\ cancel_at (snd (ListCaches env w)) = cancel_at w.
Proof.
  rewrite ListCaches_unfold; cbv zeta.
  destruct (cmd_err _); [|destruct (unmarshal_caches _ _)];
    cbn [snd elapse clock cancel_at]; split; (lia || reflexivity).
Qed.

Lemma GetCacheStats_clock (w : World) (cacheID : Z) :
  clock w <= clock (snd (GetCacheStats env w cacheID))
  /\ cancel_at (snd (GetCacheStats env w cacheID)) = cancel_at w.
Proof.
  rewrite GetCacheStats_unfold; cbv zeta.
  destruct (cmd_err _); [|destruct (unmarshal_stats _ _) as [[|? ?]|]];
    cbn [snd elapse clock cancel_at]; split; (lia || reflexivity).
Qed.
End AdapterFacts.

(** C10. When the command succeeds and its output decodes to a list of
    records, [GetCacheStats] returns the first record of the list, whatever
    follows it, and it returns an error exactly when the list is empty. *)
Theorem GetCacheStats_returns_first_record
    (env : casadm.Env) (w : World) (cacheID : Z) (stats : list casadm.CacheStats.t) :
  let r := fst (casadm.run_casadm env (casadm.stats_args cacheID) w) in
  cmd_err r = None ->
  casadm.unmarshal_stats env (cmd_out r) = Ok stats ->
  (forall s0 rest, stats = s0 :: rest ->
     fst (casadm.GetCacheStats env w cacheID) = Ok s0)
  /\ (is_Err (fst (casadm.GetCacheStats env w cacheID)) = true <-> stats = []).
Proof.
  intros r Hcmd Hdec. rewrite GetCacheStats_unfold; cbv zeta.
  fold r. rewrite Hcmd, Hdec. split.
  - intros s0 rest ->. reflexivity.
  - destruct stats as [|s0 rest]; cbn [fst is_Err]; split; congruence.
Qed.

Lemma GetCacheStats_returns_first_record_witness :
  cmd_err (fst (casadm.run_casadm demo.env (casadm.stats_args 1) demo.w0)) = None
  /\ casadm.unmarshal_stats demo.env
       (cmd_out (fst (casadm.run_casadm demo.env (casadm.stats_args 1) demo.w0)))
     = Ok [demo.statsA; demo.statsA']
  /\ fst (casadm.GetCacheStats demo.env demo.w0 1) = Ok demo.statsA.
Proof.
  assert (H1 : cmd_err (fst (casadm.run_casadm demo.env (casadm.stats_args 1) demo.w0)) = None)
    by reflexivity.
  assert (H2 : casadm.unmarshal_stats demo.env
                 (cmd_out (fst (casadm.run_casadm demo.env (casadm.stats_args 1) demo.w0)))
               = Ok [demo.statsA; demo.statsA'])
    by (vm_compute; reflexivity).
  split; [exact H1|split; [exact H2|]].
  exact (proj1 (GetCacheStats_returns_first_record demo.env demo.w0 1
                  [demo.statsA; demo.statsA'] H1 H2) demo.statsA [demo.statsA'] eq_refl).
Defined.

(** C4 (amended). [ListCaches] and [GetCacheStats] return an error value
    exactly when the command fails, or its output cannot be decoded, or (for
    [GetCacheStats]) the decoded list is empty.  The message carries the raw
    captured output when the command failed; after a decoding failure it is
    the decoder's error behind a fixed prefix, and for an empty list it is the
    fixed text "missing cache stats". *)
Theorem adapter_errors (env : casadm.Env) (w : World) (cacheID : Z) :
  let rl := fst (casadm.run_casadm env casadm.list_args w) in
  let rs := fst (casadm.run_casadm env (casadm.stats_args cacheID) w) in
  let listed := fst (casadm.ListCaches env w) in
  let sampled := fst (casadm.GetCacheStats env w cacheID) in
  (is_Err listed = true <->
     cmd_err rl <> None \/ is_Err (casadm.unmarshal_caches env (cmd_out rl)) = true)
  /\ (is_Err sampled = true <->
        cmd_err rs <> None
        \/ is_Err (casadm.unmarshal_stats env (cmd_out rs)) = true
        \/ casadm.unmarshal_stats env (cmd_out rs) = Ok [])
  /\ (forall msg, cmd_err rl <> None -> listed = Err msg ->
        strings_Contains msg (cmd_out rl) = true)
  /\ (forall msg, cmd_err rs <> None -> sampled = Err msg ->
        strings_Contains msg (cmd_out rs) = true)
  /\ (forall err, cmd_err rl = None ->
        casadm.unmarshal_caches env (cmd_out rl) = Err err ->
        listed = Err ("unmarshal list caches csv: " ++ err))
  /\ (forall err, cmd_err rs = None ->
        casadm.unmarshal_stats env (cmd_out rs) = Err err ->
        sampled = Err ("unmarshal cache stats csv: " ++ err))
  /\ (cmd_err rs = None ->
        casadm.unmarshal_stats env (cmd_out rs) = Ok [] ->
        sampled = Err "missing cache stats").
Proof.
  intros rl rs listed sampled. subst listed sampled.
  rewrite ListCaches_unfold, GetCacheStats_unfold; cbv zeta. fold rl rs.
  destruct (cmd_err rl) as [el|] eqn:El;
    destruct (cmd_err rs) as [es|] eqn:Es;
    destruct (casadm.unmarshal_caches env (cmd_out rl)) as [cs|dl] eqn:Dl;
    destruct (casadm.unmarshal_stats env (cmd_out rs)) as [[|s0 ss]|ds] eqn:Ds;
    cbn [fst is_Err];
    repeat match goal with
           | |- _ /\ _ => split
           | |- _ <-> _ => split
           end;
    try (intros; congruence);
    try (intros; left; congruence);
    try (intros; right; reflexivity);
    try (intros; right; left; reflexivity);
    try (intros; right; right; reflexivity);
    try (intros [?|?]; congruence);
    try (intros [?|[?|?]]; congruence);
    try (intros msg _ [= <-]; apply failure_message_has_output).
Qed.

Lemma adapter_errors_witness :
  cmd_err (fst (casadm.run_casadm demo.env (casadm.stats_args 3) demo.w0)) <> None
  /\ is_Err (fst (casadm.GetCacheStats demo.env demo.w0 3)) = true.
Proof.
  assert (H : cmd_err (fst (casadm.run_casadm demo.env (casadm.stats_args 3) demo.w0))
              <> None) by (vm_compute; discriminate).
  split; [exact H|].
  exact (proj2 (proj1 (proj2 (adapter_errors demo.env demo.w0 3))) (or_introl H)).
Defined.

(** C4, as stated, fails: cache 4's table has a header and no row, cache 5's
    table cannot be decoded; both calls return an error whose message does
    not contain the output that was captured. *)
Lemma adapter_error_without_output :
  (cmd_out (fst (casadm.run_casadm demo.env (casadm.stats_args 4) demo.w0))
     = demo.header_only_csv
   /\ fst (casadm.GetCacheStats demo.env demo.w0 4) = Err "missing cache stats"
   /\ strings_Contains "missing cache stats" demo.header_only_csv = false)
  /\ (cmd_out (fst (casadm.run_casadm demo.env (casadm.stats_args 5) demo.w0))
        = demo.unreadable_csv
      /\ exists msg, fst (casadm.GetCacheStats demo.env demo.w0 5) = Err msg
                     /\ strings_Contains msg demo.unreadable_csv = false).
Proof.
  split; [repeat split; vm_compute; reflexivity|].
  split; [vm_compute; reflexivity|].
  eexists; split; vm_compute; reflexivity.
Qed.

(** ** Gauge vectors *)

Section GaugeFacts.
Import casadm casexporter.

Lemma labels_inj (c : Cache.t) (cat sub cat' sub' : string) :
  labels c cat sub = labels c cat' sub' -> (cat, sub) = (cat', sub').
Proof. unfold labels. intros [= -> ->]. reflexivity. Qed.

Lemma labels_cache_inj (c c' : Cache.t) (cat sub cat' sub' : string) :
  labels c cat sub = labels c' cat' sub' ->
  Cache.Device c = Cache.Device c' /\ Cache.ID c = Cache.ID c'.
Proof.
  unfold labels, strconv_Itoa. intros [= Hd Hi _ _].
  split; [exact Hd|]. exact (pretty_Z_inj _ _ Hi).
Qed.

Lemma set_all_cons (c : Cache.t) (cat sub : string) (v : float)
    (sets : list (string * string * float)) (vec : gmap (list string) float) :
  set_all c ((cat, sub, v) :: sets) vec
  = set_all c sets (GaugeVec_Set (labels c cat sub) v vec).
Proof. reflexivity. Qed.

(** A key none of the [Set] calls names keeps its gauge. *)
Lemma set_all_lookup_other (c : Cache.t) (sets : list (string * string * float))
    (vec : gmap (list string) float) (k : list string) :
  (forall cat sub v, In (cat, sub, v) sets -> labels c cat sub <> k) ->
  set_all c sets vec !! k = vec !! k.
Proof.
  revert vec. induction sets as [|[[cat sub] v] sets IH]; intros vec Hk.
  - reflexivity.
  - rewrite set_all_cons, IH.
    + unfold GaugeVec_Set. apply lookup_insert_ne. apply (Hk cat sub v). left. reflexivity.
    + intros cat' sub' v' Hin. apply (Hk cat' sub' v'). right. exact Hin.
Qed.

(** When no key is set twice, every [Set] call is visible afterwards. *)
Lemma set_all_lookup_in (c : Cache.t) (sets : list (string * string * float))
    (vec : gmap (list string) float) (cat sub : string) (v : float) :
  NoDup (map fst sets) ->
  In (cat, sub, v) sets ->
  set_all c sets vec !! labels c cat sub = Some v.
Proof.
  revert vec. induction sets as [|[[cat0 sub0] v0] sets IH]; intros vec Hnd Hin.
  - destruct Hin.
  - rewrite set_all_cons. cbn [map fst] in Hnd. apply NoDup_cons in Hnd as [Hfresh Hnd].
    destruct Hin as [[= -> -> ->]|Hin].
    + rewrite set_all_lookup_other.
      * unfold GaugeVec_Set. apply lookup_insert_eq.
      * intros cat' sub' v' Hin' Heq. apply labels_inj in Heq.
        apply Hfresh. rewrite <- Heq. apply list_elem_of_In.
        change (cat', sub') with (fst (cat', sub', v')). apply in_map. exact Hin'.
    + apply IH; assumption.
Qed.

Lemma count_sets_NoDup (stats : CacheStats.t) : NoDup (map fst (count_sets stats)).
Proof. refine (bool_decide_unpack _ _). vm_compute. reflexivity. Qed.

Lemma percentage_sets_NoDup (stats : CacheStats.t) :
  NoDup (map fst (percentage_sets stats)).
Proof. refine (bool_decide_unpack _ _). vm_compute. reflexivity. Qed.

(** [observe] touches only keys that carry the cache's own device and id. *)
Lemma observe_count_other (c : Cache.t) (stats : CacheStats.t) (e : CasExporter)
    (k : list string) :
  (forall cat sub, labels c cat sub <> k) ->
  ocfStatCount (observe c stats e) !! k = ocfStatCount e !! k.
Proof. intros Hk. apply set_all_lookup_other. intros cat sub _ _. apply Hk. Qed.

Lemma observe_percentage_other (c : Cache.t) (stats : CacheStats.t) (e : CasExporter)
    (k : list string) :
  (forall cat sub, labels c cat sub <> k) ->
  ocfStatPercentage (observe c stats e) !! k = ocfStatPercentage e !! k.
Proof. intros Hk. apply set_all_lookup_other. intros cat sub _ _. apply Hk. Qed.

Lemma observe_count_in (c : Cache.t) (stats : CacheStats.t) (e : CasExporter)
    (cat sub : string) (v : float) :
  In (cat, sub, v) (count_sets stats) ->
  ocfStatCount (observe c stats e) !! labels c cat sub = Some v.
Proof. apply set_all_lookup_in, count_sets_NoDup. Qed.

Lemma observe_percentage_in (c : Cache.t) (stats : CacheStats.t) (e : CasExporter)
    (cat sub : string) (v : float) :
  In (cat, sub, v) (percentage_sets stats) ->
  ocfStatPercentage (observe c stats e) !! labels c cat sub = Some v.
Proof. apply set_all_lookup_in, percentage_sets_NoDup. Qed.

End GaugeFacts.

(** ** The scheduler: one pass over the enumeration *)

Section SchedulerFacts.
Import casadm casexporter.
Local Open Scope list_scope.
Variable env : Env.

Lemma active_device (c : Cache.t) : active c = true <-> Cache.Device c <> "-"%string.
Proof.
  unfold active. destruct (String.eqb_spec (Cache.Device c) "-"%string) as [E|E];
    cbn [negb]; split; congruence.
Qed.

Lemma replay_app (cs1 cs2 : list Call) (e : CasExporter) :
  replay (cs1 ++ cs2) e = replay cs2 (replay cs1 e).
Proof. unfold replay. apply fold_left_app. Qed.

Lemma sampled_app (cs1 cs2 : list Call) :
  sampled (cs1 ++ cs2) = sampled cs1 ++ sampled cs2.
Proof. unfold sampled. apply flat_map_app. Qed.

(** What one pass of the loop body adds. *)
Lemma sample_spec (c : Cache.t) (it : Iter) :
  exists new,
    calls (sample env c it) = calls it ++ new
    /\ exporter (sample env c it) = replay new (exporter it)
    /\ sampled new = List.filter active [c]
    /\ success (sample env c it) = (if existsb failed new then 0 else success it)
    /\ clock (world it) <= clock (world (sample env c it))
    /\ cancel_at (world (sample env c it)) = cancel_at (world it).
Proof.
  unfold sample. cbn [List.filter]. unfold active.
  destruct (String.eqb (Cache.Device c) "-"%string); cbn [negb].
  - exists []. rewrite app_nil_r. repeat split; reflexivity || lia.
  - pose proof (GetCacheStats_clock env (world it) (Cache.ID c)) as [Hclk Hcan].
    destruct (GetCacheStats env (world it) (Cache.ID c)) as [[stats|err] w'];
      cbn [snd] in Hclk, Hcan; eexists [_];
      cbn [calls exporter success world sampled flat_map replay fold_left existsb
           failed orb app];
      repeat split; try reflexivity; assumption.
Qed.

(** What the whole [for ... range caches] adds. *)
Lemma sample_all_spec (caches : list Cache.t) (it : Iter) :
  exists new,
    calls (sample_all env caches it) = calls it ++ new
    /\ exporter (sample_all env caches it) = replay new (exporter it)
    /\ sampled new = List.filter active caches
    /\ success (sample_all env caches it) = (if existsb failed new then 0 else success it)
    /\ clock (world it) <= clock (world (sample_all env caches it))
    /\ cancel_at (world (sample_all env caches it)) = cancel_at (world it).
Proof.
  revert it. induction caches as [|c caches IH]; intros it.
  - exists []. cbn. rewrite app_nil_r. repeat split; reflexivity || lia.
  - change (sample_all env (c :: caches) it)
      with (sample_all env caches (sample env c it)).
    destruct (sample_spec c it) as (n1 & C1 & E1 & S1 & F1 & K1 & A1).
    destruct (IH (sample env c it)) as (n2 & C2 & E2 & S2 & F2 & K2 & A2).
    exists (n1 ++ n2). repeat split.
    + rewrite C2, C1, app_assoc. reflexivity.
    + rewrite E2, E1, replay_app. reflexivity.
    + rewrite sampled_app, S1, S2. cbn [List.filter].
      destruct (active c); reflexivity.
    + rewrite F2, F1, existsb_app.
      destruct (existsb failed n1), (existsb failed n2); reflexivity.
    + lia.
    + congruence.
Qed.

(** Every call of the loop is a sample call for an active cache. *)
Lemma sampled_active (new : list Call) (caches : list Cache.t) :
  sampled new = List.filter active caches ->
  forall c r, In (CallGetCacheStats c r) new -> active c = true.
Proof.
  intros Hs c r Hin.
  assert (Hc : In c (sampled new)).
  { unfold sampled. apply in_flat_map. exists (CallGetCacheStats c r).
    split; [exact Hin|left; reflexivity]. }
  rewrite Hs in Hc. apply filter_In in Hc. apply Hc.
Qed.

(** [cycle] only adds the two cycle-level gauges to what [extract] did. *)
Lemma cycle_fields (e : CasExporter) (w : World) :
  let it := extract env e w in
  ocfStatCount (exporter (cycle env e w)) = ocfStatCount (exporter it)
  /\ ocfStatPercentage (exporter (cycle env e w)) = ocfStatPercentage (exporter it)
  /\ ocfStatSuccess (exporter (cycle env e w)) !! [] = Some (float64_of_int (success it))
  /\ ocfStatDuration (exporter (cycle env e w)) !! []
     = Some (Seconds (clock (world it) - clock w))
  /\ calls (cycle env e w) = calls it
  /\ success (cycle env e w) = success it
  /\ world (cycle env e w) = world it
  /\ extractionInterval (exporter (cycle env e w)) = extractionInterval (exporter it).
Proof.
  cbv zeta. unfold cycle, GaugeVec_Set, time_Now.
  cbn [exporter ocfStatCount ocfStatPercentage ocfStatSuccess ocfStatDuration
       calls success world extractionInterval].
  rewrite !lookup_insert_eq. repeat split; reflexivity.
Qed.

Lemma extract_failed (e : CasExporter) (w w1 : World) (err : string) :
  ListCaches env w = (Err err, w1) ->
  extract env e w =
    {| exporter := e; world := w1; success := 0;
       calls := [CallListCaches (Err err)];
       logs := [{| log_level := "ERROR"; log_msg := "list caches";
                   log_attrs := [("err", err)] |}] |}.
Proof. intros H. unfold extract. rewrite H. reflexivity. Qed.

Lemma extract_listed (e : CasExporter) (w w1 : World) (caches : list Cache.t) :
  ListCaches env w = (Ok caches, w1) ->
  exists new,
    calls (extract env e w) = CallListCaches (Ok caches) :: new
    /\ exporter (extract env e w) = replay new e
    /\ sampled new = List.filter active caches
    /\ success (extract env e w) = (if existsb failed new then 0 else 1)
    /\ clock w1 <= clock (world (extract env e w)).
Proof.
  intros H. unfold extract. rewrite H.
  destruct (sample_all_spec caches
              {| exporter := e; world := w1; success := 1;
                 calls := [CallListCaches (Ok caches)]; logs := [] |})
    as (new & C & E & S & F & K & _).
  exists new. cbn [calls exporter success world] in *.
  repeat split; assumption.
Qed.

Lemma replay_interval (cs : list Call) (e : CasExporter) :
  extractionInterval (replay cs e) = extractionInterval e.
Proof.
  revert e. induction cs as [|[r|c [stats|err]] cs IH]; intros e;
    cbn [replay fold_left]; try apply IH.
  - reflexivity.
  - change (extractionInterval (replay cs (observe c stats e)) = extractionInterval e).
    rewrite IH. reflexivity.
Qed.

End SchedulerFacts.

Section ReplayFacts.
Import casadm casexporter.
Local Open Scope list_scope.

Lemma replay_cons (call : Call) (cs : list Call) (e : CasExporter) :
  replay (call :: cs) e = replay cs (replay [call] e).
Proof. reflexivity. Qed.

(** Replaying calls leaves alone every key that no successful call names. *)
Lemma replay_other (cs : list Call) (e : CasExporter) (k : list string) :
  (forall c stats, In (CallGetCacheStats c (Ok stats)) cs ->
     forall cat sub, labels c cat sub <> k) ->
  ocfStatCount (replay cs e) !! k = ocfStatCount e !! k
  /\ ocfStatPercentage (replay cs e) !! k = ocfStatPercentage e !! k.
Proof.
  revert e. induction cs as [|call cs IH]; intros e Hk.
  - split; reflexivity.
  - rewrite replay_cons.
    destruct (IH (replay [call] e)) as [Hc Hp].
    { intros c stats Hin. apply (Hk c stats). right. exact Hin. }
    rewrite Hc, Hp. destruct call as [r|c [stats|err]]; try (split; reflexivity).
    change (replay [CallGetCacheStats c (Ok stats)] e) with (observe c stats e).
    split; [apply observe_count_other|apply observe_percentage_other];
      apply (Hk c stats); left; reflexivity.
Qed.

Lemma labels_not_dash (c : Cache.t) (cat sub : string) (rest : list string) :
  active c = true -> labels c cat sub <> "-"%string :: rest.
Proof.
  intros Ha. apply active_device in Ha. unfold labels. intros [= Hd _]. tauto.
Qed.

End ReplayFacts.

(** ** The scheduler: claims about one cycle *)

(** C7. When the enumeration fails, the cycle ends with [success] 0 in the
    success gauge, still sets the duration gauge (to the time the failed call
    took), makes no sample call, and leaves both per-cache vectors exactly as
    they were. *)
Theorem cycle_enumerate_fails
    (env : casadm.Env) (e : casexporter.CasExporter) (w : World) (err : string) :
  fst (casadm.ListCaches env w) = Err err ->
  let it := casexporter.cycle env e w in
  casexporter.success it = 0
  /\ casexporter.ocfStatSuccess (casexporter.exporter it) !! [] = Some 0%float
  /\ casexporter.ocfStatDuration (casexporter.exporter it) !! []
     = Some (Seconds (time_Now (snd (casadm.ListCaches env w)) - time_Now w))
  /\ casexporter.calls it = [casexporter.CallListCaches (Err err)]
  /\ casexporter.sampled (casexporter.calls it) = []
  /\ casexporter.ocfStatCount (casexporter.exporter it) = casexporter.ocfStatCount e
  /\ casexporter.ocfStatPercentage (casexporter.exporter it)
     = casexporter.ocfStatPercentage e.
Proof.
  intros H it.
  destruct (casadm.ListCaches env w) as [r w1] eqn:HL. cbn [fst snd] in *. subst r.
  destruct (cycle_fields env e w) as (Hc & Hp & Hs & Hd & Hcalls & Hsucc & Hw & _).
  rewrite (extract_failed env e w w1 err HL) in *.
  cbn [casexporter.exporter casexporter.success casexporter.calls casexporter.world] in *.
  subst it. rewrite Hsucc, Hs, Hd, Hcalls, Hc, Hp.
  repeat split; reflexivity.
Qed.

Lemma cycle_enumerate_fails_witness :
  fst (casadm.ListCaches demo.env_down demo.w0) = Err demo.down_msg
  /\ casexporter.ocfStatSuccess
       (casexporter.exporter (casexporter.cycle demo.env_down demo.e1 demo.w0)) !! []
     = Some 0%float
  /\ casexporter.ocfStatCount
       (casexporter.exporter (casexporter.cycle demo.env_down demo.e1 demo.w0))
     = casexporter.ocfStatCount demo.e1.
Proof.
  assert (H : fst (casadm.ListCaches demo.env_down demo.w0) = Err demo.down_msg)
    by (vm_compute; reflexivity).
  pose proof (cycle_enumerate_fails demo.env_down demo.e1 demo.w0 demo.down_msg H) as T.
  cbv zeta in T. split; [exact H|]. split; [apply T|apply T].
Defined.

(** C5. Whatever the enumeration returns, the caches sampled in the cycle
    are exactly the enumerated ones whose device is not "-", in order; no
    sample call is made for a cache with device "-"; and no gauge carrying
    the device label "-" is created or changed by the cycle. *)
Theorem cycle_skips_inactive
    (env : casadm.Env) (e : casexporter.CasExporter) (w : World)
    (caches : list casadm.Cache.t) :
  fst (casadm.ListCaches env w) = Ok caches ->
  let it := casexporter.cycle env e w in
  casexporter.sampled (casexporter.calls it) = List.filter casexporter.active caches
  /\ (forall c r, In (casexporter.CallGetCacheStats c r) (casexporter.calls it) ->
        casadm.Cache.Device c <> "-")
  /\ (forall rest : list string,
        casexporter.ocfStatCount (casexporter.exporter it) !! ("-" :: rest)
        = casexporter.ocfStatCount e !! ("-" :: rest))
  /\ (forall rest : list string,
        casexporter.ocfStatPercentage (casexporter.exporter it) !! ("-" :: rest)
        = casexporter.ocfStatPercentage e !! ("-" :: rest)).
Proof.
  intros H it.
  destruct (casadm.ListCaches env w) as [r w1] eqn:HL. cbn [fst] in H. subst r.
  destruct (cycle_fields env e w) as (Hc & Hp & _ & _ & Hcalls & _).
  destruct (extract_listed env e w w1 caches HL) as (new & C & E & S & _).
  subst it. rewrite Hcalls, Hc, Hp, C, E.
  assert (Hact : forall c r, In (casexporter.CallGetCacheStats c r) new ->
                             casexporter.active c = true)
    by (apply (sampled_active new caches S)).
  split; [exact S|]. split.
  - intros c r [Hin|Hin]; [discriminate|].
    apply active_device. apply (Hact c r Hin).
  - split; intros rest;
      apply (replay_other new e ("-"%string :: rest));
      intros c stats Hin cat sub; apply labels_not_dash; apply (Hact _ _ Hin).
Qed.

Lemma cycle_skips_inactive_witness :
  fst (casadm.ListCaches demo.env demo.w0) = Ok [demo.cacheA; demo.cacheI; demo.cacheB]
  /\ casexporter.sampled (casexporter.calls (casexporter.cycle demo.env demo.e0 demo.w0))
     = [demo.cacheA; demo.cacheB].
Proof.
  assert (H : fst (casadm.ListCaches demo.env demo.w0)
              = Ok [demo.cacheA; demo.cacheI; demo.cacheB])
    by (vm_compute; reflexivity).
  split; [exact H|].
  exact (proj1 (cycle_skips_inactive demo.env demo.e0 demo.w0 _ H)).
Defined.

(** A successful sample survives a failed one: in a cycle in which the
    sample call for cache [A] succeeds with [sA] and the sample call for
    cache [B] fails, and no later successful call of the cycle is for a cache
    with [A]'s device and id, every [Set] of the loop body for [A] is still
    in force at the end of the cycle, every active cache has been sampled,
    and the success flag is 0. *)
Lemma cycle_sample_survives
    (env : casadm.Env) (e : casexporter.CasExporter) (w : World)
    (caches : list casadm.Cache.t)
    (pre post : list casexporter.Call)
    (A B : casadm.Cache.t) (sA : casadm.CacheStats.t) (errB : string) :
  fst (casadm.ListCaches env w) = Ok caches ->
  let it := casexporter.cycle env e w in
  casexporter.calls it = (pre ++ casexporter.CallGetCacheStats A (Ok sA) :: post)%list ->
  (forall c s, In (casexporter.CallGetCacheStats c (Ok s)) post ->
     (casadm.Cache.Device c, casadm.Cache.ID c)
     <> (casadm.Cache.Device A, casadm.Cache.ID A)) ->
  In (casexporter.CallGetCacheStats B (Err errB)) (casexporter.calls it) ->
  (forall cat sub v, In (cat, sub, v) (casexporter.count_sets sA) ->
     casexporter.ocfStatCount (casexporter.exporter it) !! casexporter.labels A cat sub
     = Some v)
  /\ (forall cat sub v, In (cat, sub, v) (casexporter.percentage_sets sA) ->
        casexporter.ocfStatPercentage (casexporter.exporter it)
          !! casexporter.labels A cat sub
        = Some v)
  /\ casexporter.sampled (casexporter.calls it) = List.filter casexporter.active caches
  /\ casexporter.success it = 0
  /\ casexporter.ocfStatSuccess (casexporter.exporter it) !! [] = Some 0%float.
Proof.
  intros H it Hcalls Hlast HB.
  destruct (casadm.ListCaches env w) as [r w1] eqn:HL. cbn [fst] in H. subst r.
  destruct (cycle_fields env e w) as (Hc & Hp & Hs & _ & Hcs & Hsucc & _).
  destruct (extract_listed env e w w1 caches HL) as (new & C & E & S & F & _).
  subst it. rewrite Hcs in Hcalls, HB |- *. rewrite C in Hcalls, HB |- *.
  rewrite Hc, Hp, Hs, Hsucc, E, F.
  (* the failed call is one of the loop's calls *)
  assert (Hfail : existsb casexporter.failed new = true).
  { apply existsb_exists. exists (casexporter.CallGetCacheStats B (Err errB)).
    split; [|reflexivity]. destruct HB as [HB|HB]; [discriminate|exact HB]. }
  rewrite Hfail.
  (* the successful call splits the loop's calls *)
  destruct pre as [|p pre]; [discriminate|].
  injection Hcalls as _ Hnew. subst new.
  rewrite replay_app, replay_cons.
  change (casexporter.replay [casexporter.CallGetCacheStats A (Ok sA)]
            (casexporter.replay pre e))
    with (casexporter.observe A sA (casexporter.replay pre e)).
  assert (Hframe : forall cat sub c stats,
             In (casexporter.CallGetCacheStats c (Ok stats)) post ->
             forall cat' sub', casexporter.labels c cat' sub'
                               <> casexporter.labels A cat sub).
  { intros cat sub c stats Hin cat' sub' Heq.
    apply labels_cache_inj in Heq as [Hd Hi].
    apply (Hlast c stats Hin). congruence. }
  repeat split.
  - intros cat sub v Hin.
    rewrite (proj1 (replay_other post _ _ (Hframe cat sub))).
    apply observe_count_in. exact Hin.
  - intros cat sub v Hin.
    rewrite (proj2 (replay_other post _ _ (Hframe cat sub))).
    apply observe_percentage_in. exact Hin.
  - exact S.
Qed.

(** The loop body's tables and the reading's differ at requests/rd_pt and
    requests/wr_pt only. *)
Lemma reading_counts_split (s : casadm.CacheStats.t) :
  casexporter.reading_counts s
  = (take 12 (casexporter.count_sets s)
     ++ [("requests", "rd_pt",
          float64_of_int (casadm.CacheStats.PassThroughReadsRequests s));
         ("requests", "wr_pt",
          float64_of_int (casadm.CacheStats.PassThroughWritesRequests s))]
     ++ drop 14 (casexporter.count_sets s))%list.
Proof. reflexivity. Qed.

Lemma reading_percentages_split (s : casadm.CacheStats.t) :
  casexporter.reading_percentages s
  = (take 12 (casexporter.percentage_sets s)
     ++ [("requests", "rd_pt", casadm.CacheStats.PassThroughReadsPercent s);
         ("requests", "wr_pt", casadm.CacheStats.PassThroughWritesPercent s)]
     ++ drop 14 (casexporter.percentage_sets s))%list.
Proof. reflexivity. Qed.

Lemma split_at_pass_through (l : list (string * string * float))
    (a b : string * string * float) (cat sub : string) (v : float) :
  In (cat, sub, v) (take 12 l ++ [a; b] ++ drop 14 l)%list ->
  snd (fst a) = "rd_pt"%string ->
  snd (fst b) = "wr_pt"%string ->
  sub <> "rd_pt"%string ->
  sub <> "wr_pt"%string ->
  In (cat, sub, v) l.
Proof.
  intros H Ha Hb Hr Hw. apply in_app_or in H as [H|H].
  - rewrite <- (take_drop 12 l). apply in_or_app. left. exact H.
  - destruct H as [H|[H|H]].
    + subst a. cbn in Ha. congruence.
    + subst b. cbn in Hb. congruence.
    + rewrite <- (take_drop 14 l). apply in_or_app. right. exact H.
Qed.

Lemma reading_count_is_set (s : casadm.CacheStats.t) (cat sub : string) (v : float) :
  In (cat, sub, v) (casexporter.reading_counts s) ->
  sub <> "rd_pt"%string ->
  sub <> "wr_pt"%string ->
  In (cat, sub, v) (casexporter.count_sets s).
Proof.
  intros H. rewrite reading_counts_split in H.
  apply (split_at_pass_through _ _ _ _ _ _ H); reflexivity.
Qed.

Lemma reading_percentage_is_set (s : casadm.CacheStats.t) (cat sub : string)
    (v : float) :
  In (cat, sub, v) (casexporter.reading_percentages s) ->
  sub <> "rd_pt"%string ->
  sub <> "wr_pt"%string ->
  In (cat, sub, v) (casexporter.percentage_sets s).
Proof.
  intros H. rewrite reading_percentages_split in H.
  apply (split_at_pass_through _ _ _ _ _ _ H); reflexivity.
Qed.

(** C6 (the code departs from it, by the defect of C1).  In a cycle in which
    the sample call for cache [A] succeeds with reading [sA] and the sample
    call for cache [B] fails, and no later successful call of the cycle is
    for a cache with [A]'s device and id: at the end of the cycle every gauge
    of [A] is present; each one other than requests/rd_pt and requests/wr_pt
    holds the field of [sA] the specification names for it; the gauges
    requests/rd_pt and requests/wr_pt, in both vectors, hold [sA]'s read-total
    and write-total percentages, not its pass-through fields; every active
    cache of the enumeration has been sampled, in order, those after [B]
    included; and the success flag recorded for the cycle is 0. *)
Theorem cycle_isolates_failure
    (env : casadm.Env) (e : casexporter.CasExporter) (w : World)
    (caches : list casadm.Cache.t)
    (pre post : list casexporter.Call)
    (A B : casadm.Cache.t) (sA : casadm.CacheStats.t) (errB : string) :
  fst (casadm.ListCaches env w) = Ok caches ->
  let it := casexporter.cycle env e w in
  let count := casexporter.ocfStatCount (casexporter.exporter it) in
  let percentage := casexporter.ocfStatPercentage (casexporter.exporter it) in
  casexporter.calls it = (pre ++ casexporter.CallGetCacheStats A (Ok sA) :: post)%list ->
  (forall c s, In (casexporter.CallGetCacheStats c (Ok s)) post ->
     (casadm.Cache.Device c, casadm.Cache.ID c)
     <> (casadm.Cache.Device A, casadm.Cache.ID A)) ->
  In (casexporter.CallGetCacheStats B (Err errB)) (casexporter.calls it) ->
  (forall cat sub v, In (cat, sub, v) (casexporter.reading_counts sA) ->
     sub <> "rd_pt"%string -> sub <> "wr_pt"%string ->
     count !! casexporter.labels A cat sub = Some v)
  /\ (forall cat sub v, In (cat, sub, v) (casexporter.reading_percentages sA) ->
        sub <> "rd_pt"%string -> sub <> "wr_pt"%string ->
        percentage !! casexporter.labels A cat sub = Some v)
  /\ count !! casexporter.labels A "requests" "rd_pt"
     = Some (casadm.CacheStats.ReadTotalPercent sA)
  /\ count !! casexporter.labels A "requests" "wr_pt"
     = Some (casadm.CacheStats.WriteTotalPercent sA)
  /\ percentage !! casexporter.labels A "requests" "rd_pt"
     = Some (casadm.CacheStats.ReadTotalPercent sA)
  /\ percentage !! casexporter.labels A "requests" "wr_pt"
     = Some (casadm.CacheStats.WriteTotalPercent sA)
  /\ casexporter.sampled (casexporter.calls it) = List.filter casexporter.active caches
  /\ casexporter.success it = 0
  /\ casexporter.ocfStatSuccess (casexporter.exporter it) !! [] = Some 0%float.
Proof.
  intros H it count percentage Hcalls Hlast HB.
  destruct (cycle_sample_survives env e w caches pre post A B sA errB
              H Hcalls Hlast HB) as (Tc & Tp & S & Su & G).
  repeat apply conj; try assumption.
  - intros cat sub v Hin Hr Hw. apply Tc, reading_count_is_set; assumption.
  - intros cat sub v Hin Hr Hw. apply Tp, reading_percentage_is_set; assumption.
  - apply Tc. unfold casexporter.count_sets. do 12 right. left. reflexivity.
  - apply Tc. unfold casexporter.count_sets. do 13 right. left. reflexivity.
  - apply Tp. unfold casexporter.percentage_sets. do 12 right. left. reflexivity.
  - apply Tp. unfold casexporter.percentage_sets. do 13 right. left. reflexivity.
Qed.

Lemma cycle_isolates_failure_witness :
  let it := casexporter.cycle demo.env demo.e0 demo.w0 in
  let count := casexporter.ocfStatCount (casexporter.exporter it) in
  let percentage := casexporter.ocfStatPercentage (casexporter.exporter it) in
  fst (casadm.ListCaches demo.env demo.w0) = Ok [demo.cacheA; demo.cacheI; demo.cacheB]
  /\ casexporter.calls it
     = [casexporter.CallListCaches (Ok [demo.cacheA; demo.cacheI; demo.cacheB]);
        casexporter.CallGetCacheStats demo.cacheA (Ok demo.statsA);
        casexporter.CallGetCacheStats demo.cacheB (Err demo.down_msg)]
  /\ casadm.CacheStats.Occupancy4K demo.statsA = 100
  /\ count !! ["/dev/sda"; "1"; "usage"; "occupancy"] = Some (float64_of_int 100)
  /\ casadm.CacheStats.OccupancyPercent demo.statsA = 42.5%float
  /\ percentage !! ["/dev/sda"; "1"; "usage"; "occupancy"] = Some 42.5%float
  /\ casadm.CacheStats.PassThroughReadsRequests demo.statsA = 7
  /\ casadm.CacheStats.ReadTotalPercent demo.statsA = 50%float
  /\ count !! ["/dev/sda"; "1"; "requests"; "rd_pt"] = Some 50%float
  /\ casexporter.ocfStatSuccess (casexporter.exporter it) !! [] = Some 0%float.
Proof.
  cbv zeta.
  assert (H : fst (casadm.ListCaches demo.env demo.w0)
              = Ok [demo.cacheA; demo.cacheI; demo.cacheB])
    by (vm_compute; reflexivity).
  assert (Hcalls : casexporter.calls (casexporter.cycle demo.env demo.e0 demo.w0)
     = ([casexporter.CallListCaches (Ok [demo.cacheA; demo.cacheI; demo.cacheB])]
        ++ casexporter.CallGetCacheStats demo.cacheA (Ok demo.statsA)
        :: [casexporter.CallGetCacheStats demo.cacheB (Err demo.down_msg)])%list)
    by (vm_compute; reflexivity).
  assert (Hlast : forall c s,
             In (casexporter.CallGetCacheStats c (Ok s))
                [casexporter.CallGetCacheStats demo.cacheB (Err demo.down_msg)] ->
             (casadm.Cache.Device c, casadm.Cache.ID c)
             <> (casadm.Cache.Device demo.cacheA, casadm.Cache.ID demo.cacheA)).
  { intros c s [Hin|[]]. discriminate Hin. }
  assert (HB : In (casexporter.CallGetCacheStats demo.cacheB (Err demo.down_msg))
                  (casexporter.calls (casexporter.cycle demo.env demo.e0 demo.w0))).
  { rewrite Hcalls. right. right. left. reflexivity. }
  pose proof (cycle_isolates_failure demo.env demo.e0 demo.w0 _ _ _
                demo.cacheA demo.cacheB demo.statsA demo.down_msg
                H Hcalls Hlast HB) as (Tc & Tp & Tr & _ & _ & _ & _ & _ & Ts).
  cbv zeta in Tc, Tp, Tr.
  split; [exact H|]. split; [exact Hcalls|]. split; [reflexivity|].
  split; [|split; [reflexivity|split; [|split; [reflexivity|split;
    [reflexivity|split; [exact Tr|exact Ts]]]]]].
  - apply (Tc "usage" "occupancy" (float64_of_int 100));
      [left; reflexivity|discriminate|discriminate].
  - apply (Tp "usage" "occupancy" 42.5%float);
      [left; reflexivity|discriminate|discriminate].
Defined.

(** The gauges named after the pass-through requests are fed from the
    read-total and write-total percentages, in both vectors. *)
Lemma observe_pass_through
    (c : casadm.Cache.t) (stats : casadm.CacheStats.t) (e : casexporter.CasExporter) :
  let e' := casexporter.observe c stats e in
  casexporter.ocfStatCount e' !! casexporter.labels c "requests" "rd_pt"
    = Some (casadm.CacheStats.ReadTotalPercent stats)
  /\ casexporter.ocfStatCount e' !! casexporter.labels c "requests" "wr_pt"
     = Some (casadm.CacheStats.WriteTotalPercent stats)
  /\ casexporter.ocfStatPercentage e' !! casexporter.labels c "requests" "rd_pt"
     = Some (casadm.CacheStats.ReadTotalPercent stats)
  /\ casexporter.ocfStatPercentage e' !! casexporter.labels c "requests" "wr_pt"
     = Some (casadm.CacheStats.WriteTotalPercent stats).
Proof.
  cbv zeta. repeat apply conj.
  - apply observe_count_in. do 12 right. left. reflexivity.
  - apply observe_count_in. do 13 right. left. reflexivity.
  - apply observe_percentage_in. do 12 right. left. reflexivity.
  - apply observe_percentage_in. do 13 right. left. reflexivity.
Qed.

(** C1 (the code departs from it).  One cycle over a reading with 7
    pass-through reads (1.5 %), 9 pass-through writes (2.5 %), a read total
    of 50 % and a write total of 25 %: the count gauges requests/rd_pt and
    requests/wr_pt hold 50 and 25, not 7 and 9, and so do the percentage
    gauges, not 1.5 and 2.5.  The other gauges of the reading are as decoded
    (occupancy 100 and 42.5 %). *)
Theorem pass_through_gauges_hold_totals :
  let it := casexporter.cycle demo.env demo.e0 demo.w0 in
  let count := casexporter.ocfStatCount (casexporter.exporter it) in
  let percentage := casexporter.ocfStatPercentage (casexporter.exporter it) in
  In (casexporter.CallGetCacheStats demo.cacheA (Ok demo.statsA)) (casexporter.calls it)
  /\ casadm.CacheStats.PassThroughReadsRequests demo.statsA = 7
  /\ casadm.CacheStats.PassThroughWritesRequests demo.statsA = 9
  /\ casadm.CacheStats.PassThroughReadsPercent demo.statsA = 1.5%float
  /\ casadm.CacheStats.PassThroughWritesPercent demo.statsA = 2.5%float
  /\ count !! ["/dev/sda"; "1"; "requests"; "rd_pt"] = Some 50%float
  /\ count !! ["/dev/sda"; "1"; "requests"; "wr_pt"] = Some 25%float
  /\ percentage !! ["/dev/sda"; "1"; "requests"; "rd_pt"] = Some 50%float
  /\ percentage !! ["/dev/sda"; "1"; "requests"; "wr_pt"] = Some 25%float
  /\ PrimFloat.eqb 50%float (float64_of_int 7) = false
  /\ PrimFloat.eqb 25%float (float64_of_int 9) = false
  /\ PrimFloat.eqb 50%float 1.5%float = false
  /\ PrimFloat.eqb 25%float 2.5%float = false
  /\ count !! ["/dev/sda"; "1"; "usage"; "occupancy"] = Some (float64_of_int 100)
  /\ percentage !! ["/dev/sda"; "1"; "usage"; "occupancy"] = Some 42.5%float.
Proof.
  cbv zeta.
  split; [vm_compute; right; left; reflexivity|].
  repeat apply conj; vm_compute; reflexivity.
Qed.

(** ** The scheduler: the loop *)

Section LoopFacts.
Import casadm casexporter.
Variable env : Env.

Lemma cycle_world (e : CasExporter) (w : World) :
  clock w <= clock (world (cycle env e w))
  /\ cancel_at (world (cycle env e w)) = cancel_at w
  /\ extractionInterval (exporter (cycle env e w)) = extractionInterval e.
Proof.
  destruct (cycle_fields env e w) as (_ & _ & _ & _ & _ & _ & Hw & Hi).
  rewrite Hw, Hi. unfold extract.
  pose proof (ListCaches_clock env w) as [Hclk Hcan].
  destruct (ListCaches env w) as [[caches|err] w1]; cbn [snd] in Hclk, Hcan.
  - destruct (sample_all_spec env caches
                {| exporter := e; world := w1; success := 1;
                   calls := [CallListCaches (Ok caches)]; logs := [] |})
      as (new & _ & E & _ & _ & K & A).
    cbn [world exporter] in *. rewrite E, replay_interval.
    repeat split; [lia|congruence].
  - cbn [world exporter]. repeat split; [lia|congruence].
Qed.

Lemma Start_unfold (n : nat) (e : CasExporter) (w : World) :
  Start env (S n) e w =
    if ctx_Done w then Returned e w
    else Start env n (exporter (cycle env e w))
           (time_Sleep (extractionInterval e) (world (cycle env e w))).
Proof. reflexivity. Qed.

End LoopFacts.

(** C8 (amended). Every iteration first checks the cancellation signal
    and returns at once when it is raised; otherwise it runs the cycle and
    then sleeps for the whole configured interval.  The sleep is not cut
    short: when the signal is raised after the check, during the cycle or
    during the sleep, [Start] returns when that sleep ends, without
    starting another cycle. *)
Theorem Start_sleeps_whole_interval (env : casadm.Env) :
  (forall n e w,
     ctx_Done w = true ->
     casexporter.Start env (S n) e w = casexporter.Returned e w)
  /\ (forall n e w tc,
        cancel_at w = Some tc ->
        clock w < tc ->
        tc <= clock (casexporter.world (casexporter.cycle env e w))
              + Z.max 0 (casexporter.extractionInterval e) ->
        casexporter.Start env (S (S n)) e w
        = casexporter.Returned
            (casexporter.exporter (casexporter.cycle env e w))
            (time_Sleep (casexporter.extractionInterval e)
               (casexporter.world (casexporter.cycle env e w)))).
Proof.
  split.
  - intros n e w H. rewrite Start_unfold, H. reflexivity.
  - intros n e w tc Hc Hlt Hle.
    destruct (cycle_world env e w) as (Hclk & Hcan & _).
    rewrite Start_unfold.
    replace (ctx_Done w) with false
      by (unfold ctx_Done; rewrite Hc; symmetry; apply Z.leb_gt; exact Hlt).
    rewrite Start_unfold.
    replace (ctx_Done _) with true; [reflexivity|].
    unfold ctx_Done, time_Sleep. cbn [cancel_at clock].
    rewrite Hcan, Hc. symmetry. apply Z.leb_le. exact Hle.
Qed.

Lemma Start_sleeps_whole_interval_witness :
  cancel_at demo.w_cancel = Some 15
  /\ clock demo.w_cancel < 15
  /\ 15 <= clock (casexporter.world (casexporter.cycle demo.env demo.e0 demo.w_cancel))
           + Z.max 0 (casexporter.extractionInterval demo.e0)
  /\ casexporter.Start demo.env 2 demo.e0 demo.w_cancel
     = casexporter.Returned
         (casexporter.exporter (casexporter.cycle demo.env demo.e0 demo.w_cancel))
         (time_Sleep (casexporter.extractionInterval demo.e0)
            (casexporter.world (casexporter.cycle demo.env demo.e0 demo.w_cancel))).
Proof.
  assert (H1 : cancel_at demo.w_cancel = Some 15) by reflexivity.
  assert (H2 : clock demo.w_cancel < 15) by (vm_compute; reflexivity).
  assert (H3 : 15 <= clock (casexporter.world
                              (casexporter.cycle demo.env demo.e0 demo.w_cancel))
                     + Z.max 0 (casexporter.extractionInterval demo.e0))
    by (vm_compute; discriminate).
  split; [exact H1|]. split; [exact H2|]. split; [exact H3|].
  exact (proj2 (Start_sleeps_whole_interval demo.env) 0%nat demo.e0 demo.w_cancel 15
           H1 H2 H3).
Defined.

(** C8, as stated, fails: cancellation is raised at the very instant the
    first cycle ends and the wait begins (15 ns), and [Start] returns a full
    interval (30 s) later. *)
Lemma Start_wait_not_interruptible :
  cancel_at demo.w_cancel = Some 15
  /\ clock (casexporter.world (casexporter.cycle demo.env demo.e0 demo.w_cancel)) = 15
  /\ casexporter.extractionInterval demo.e0 = 30 * Second
  /\ match casexporter.Start demo.env 2 demo.e0 demo.w_cancel with
     | casexporter.Returned _ w' => clock w' - 15 = 30 * Second
     | casexporter.Looping _ _ => False
     end.
Proof.
  split; [reflexivity|]. split; [vm_compute; reflexivity|]. split; [reflexivity|].
  vm_compute. reflexivity.
Qed.

(** ** The [/metrics] handler *)

Lemma metrics_begin_admits (s : transport.Server) :
  transport.metrics_begin s
  = {| transport.in_flight :=
         (transport.in_flight s
            ++ [{| promhttp.inFlightSem_cap := 40; promhttp.inFlightSem_len := 1 |}])%list;
       transport.served := transport.served s;
       transport.rejected := transport.rejected s |}.
Proof. reflexivity. Qed.

Lemma step_rejected (s : transport.Server) (ev : transport.Event) :
  transport.rejected (transport.step s ev) = transport.rejected s.
Proof.
  destruct ev as [|i]; cbn [transport.step].
  - rewrite metrics_begin_admits. reflexivity.
  - unfold transport.metrics_end. destruct (transport.in_flight s !! i); reflexivity.
Qed.

Lemma run_rejected (evs : list transport.Event) (s : transport.Server) :
  transport.rejected (transport.run evs s) = transport.rejected s.
Proof.
  revert s. induction evs as [|ev evs IH]; intros s; [reflexivity|].
  change (transport.run (ev :: evs) s) with (transport.run evs (transport.step s ev)).
  rewrite IH. apply step_rejected.
Qed.

Lemma run_arrivals (n : nat) (s : transport.Server) :
  length (transport.in_flight (transport.run (repeat transport.Arrive n) s))
  = (length (transport.in_flight s) + n)%nat.
Proof.
  revert s. induction n as [|n IH]; intros s; [cbn; lia|].
  change (transport.run (repeat transport.Arrive (S n)) s)
    with (transport.run (repeat transport.Arrive n) (transport.metrics_begin s)).
  rewrite IH, metrics_begin_admits. cbn [transport.in_flight].
  rewrite length_app. cbn [length]. lia.
Qed.

(** C9 (the code departs from it).  The closure builds its handler, and
    with it the in-flight semaphore, for each request: every request finds
    a free slot.  No sequence of arrivals and completions makes the server
    reject a request, and [n] requests that arrive before any completes are
    all rendering at once: 41 of them exceed the ceiling of 40. *)
Theorem in_flight_not_bounded :
  (forall evs, transport.rejected (transport.run evs transport.idle) = 0%nat)
  /\ (forall n, length (transport.in_flight
                          (transport.run (repeat transport.Arrive n) transport.idle))
                = n)
  /\ length (transport.in_flight
               (transport.run (repeat transport.Arrive 41) transport.idle)) = 41%nat
  /\ (40 < 41)%nat.
Proof.
  split; [intros evs; apply run_rejected|].
  split; [intros n; rewrite run_arrivals; reflexivity|].
  split; [rewrite run_arrivals; reflexivity|lia].
Qed.

(** ** Teardown *)

Section TeardownInvariant.
Import process.

Ltac inv_close :=
  unfold teardown_inv, dones, wg_Done in *; cbn in *;
  repeat match goal with
         | |- _ /\ _ => split
         | |- _ -> _ => intro
         | H : _ \/ _ |- _ => destruct H
         | H : _ /\ _ |- _ => destruct H
         | H : Some _ = Some _ |- _ => injection H as H; try subst
         end;
  try discriminate; try congruence; try lia; try tauto.

Lemma teardown_inv_boot (b : bool) : teardown_inv (boot b).
Proof. inv_close. Qed.

Lemma teardown_inv_step (a : Agent) (s s' : State) :
  teardown_inv s -> step a s = Some s' -> teardown_inv s'.
Proof.
  intros (A & B & C). unfold step.
  destruct s as [mpc spc vpc lpc wg0 stop0 can0 shut0 bf0 ex0].
  unfold dones in *. cbn in *.
  destruct ex0; [discriminate|]. clear B.
  destruct a; cbn.
  - destruct mpc; cbn; try destruct stop0;
      try (destruct (wg0 =? 0) eqn:W; [apply Z.eqb_eq in W|]);
      intros [= <-]; inv_close;
      destruct spc as [[]|], vpc as [[]|]; cbn in *;
      try lia; try reflexivity; try discriminate.
  - unfold Start_step; cbn. destruct spc as [[]|]; cbn; try discriminate;
      try destruct can0; unfold wg_Done; cbn; try destruct (wg0 <=? 0) eqn:W; cbn;
      intros [= <-]; try (apply Z.leb_gt in W);
      destruct mpc, vpc as [[]|]; inv_close.
  - unfold Serve_step; cbn. destruct vpc as [[]|]; cbn; try discriminate;
      try destruct can0; unfold wg_Done; cbn; try destruct (wg0 <=? 0) eqn:W; cbn;
      intros [= <-]; try (apply Z.leb_gt in W);
      destruct mpc, spc as [[]|]; inv_close.
  - unfold listen_step; cbn. destruct lpc as [[]|]; cbn; try discriminate;
      try destruct (bf0 || shut0); intros [= <-]; destruct mpc; inv_close.
  - unfold signal_step; cbn. destruct mpc; cbn; try discriminate;
      intros [= <-]; inv_close.
Qed.

Lemma teardown_inv_run (schedule : list Agent) (s : State) :
  teardown_inv s -> teardown_inv (run schedule s).
Proof.
  revert s. induction schedule as [|a schedule IH]; intros s H; [exact H|].
  change (run (a :: schedule) s) with (run schedule (default s (step a s))).
  apply IH. destruct (step a s) as [s'|] eqn:E; [|exact H].
  exact (teardown_inv_step a s s' H E).
Qed.

(** X11. On every schedule, status 0 comes only after [cancel()] and after both
    tasks have called [wg.Done()]. *)
Lemma exit_0_after_teardown (schedule : list Agent) (b : bool) :
  let s := run schedule (boot b) in
  exit_status s = Some 0 ->
  cancelled s = true /\ start_pc s = Some SGone /\ serve_pc s = Some VGone
  /\ wg s = 0.
Proof.
  intros s H.
  destruct (teardown_inv_run schedule (boot b) (teardown_inv_boot b)) as (A & B & C).
  fold s in A, B, C.
  rewrite H in A, B. rewrite B in A, C. destruct C as (Cc & Cs & Cv).
  unfold dones in A. rewrite Cs, Cv in A. auto.
Qed.

End TeardownInvariant.

(** C2 (the code departs from it).  The address can be bound and the
    interrupt arrives: [main] cancels and waits, [Serve] shuts the server
    down, [ListenAndServe] returns [ErrServerClosed] to the listener
    goroutine, which exits the process with status 1 while [main] is still
    in [wg.Wait()].  Status 0 is reached only on schedules in which that
    goroutine does not run again before [main] returns. *)
Theorem interrupt_can_exit_1 :
  let s := process.run demo.interrupted_run (process.boot false) in
  let s' := process.run demo.drained_run (process.boot false) in
  process.bind_fails s = false
  /\ process.cancelled s = true
  /\ process.main_pc s = process.MWait
  /\ process.wg s = 2
  /\ process.exit_status s = Some 1
  /\ process.exit_status s' = Some 0
  /\ process.wg s' = 0.
Proof. cbv zeta. repeat apply conj; vm_compute; reflexivity. Qed.

(** ** Start-up *)

Lemma strings_Split_nonempty (s : string) (sep : ascii) :
  exists piece rest, strings_Split s sep = piece :: rest.
Proof.
  induction s as [|c s (piece & rest & IH)]; cbn [strings_Split].
  - eauto.
  - destruct (Ascii.eqb c sep); [eauto|]. rewrite IH. eauto.
Qed.

(** Once the probe command has succeeded, the historical [main] reaches the
    point where it records and serves, whatever the header says. *)
Lemma legacy_main_serves (isLogEnabled : bool) (all_keys : list string)
    (probe : CmdResult) (cache : string) :
  cmd_err probe = None ->
  exists headerMap stdout logfile,
    legacy.main isLogEnabled all_keys probe cache
    = legacy.Serving headerMap stdout logfile.
Proof.
  intros H. unfold legacy.main. rewrite H.
  destruct (strings_Split_nonempty (cmd_out probe) newline) as (headerline & rest & ->).
  destruct (legacy.mapHeaders _ all_keys headerline ∅ []) as [[rc headerMap] stdout].
  eauto.
Qed.

(** [found] is never reset: after one keyword has been found, a keyword that
    is absent from the header no longer makes [mapHeaders] return 1. *)
Lemma mapHeaders_found_sticks :
  fst (fst (legacy.mapHeaders (legacy.initializeHeaders ∅)
              ["occupancy_blk"; "free_blk"] "Cache Id,Occupancy [4KiB blocks]" ∅ []))
  = 0
  /\ fst (fst (legacy.mapHeaders (legacy.initializeHeaders ∅)
                 ["free_blk"; "occupancy_blk"] "Cache Id,Occupancy [4KiB blocks]" ∅ []))
     = 1.
Proof. split; vm_compute; reflexivity. Qed.

(** A failed sample call changes no gauge and clears [success]. *)
Lemma sample_failed (env : casadm.Env) (c : casadm.Cache.t) (it : casexporter.Iter)
    (err : string) :
  casexporter.active c = true ->
  fst (casadm.GetCacheStats env (casexporter.world it) (casadm.Cache.ID c)) = Err err ->
  casexporter.exporter (casexporter.sample env c it) = casexporter.exporter it
  /\ casexporter.success (casexporter.sample env c it) = 0.
Proof.
  unfold casexporter.active, casexporter.sample. intros Ha H.
  destruct (String.eqb (casadm.Cache.Device c) "-"); [discriminate|].
  destruct (casadm.GetCacheStats env (casexporter.world it) (casadm.Cache.ID c))
    as [r w']. cbn [fst] in H. subst r. split; reflexivity.
Qed.

(** * Further properties *)

(** ** Gauge vectors: what [observe] keeps *)

Section ObserveFacts.
Import casadm casexporter.
Local Open Scope list_scope.

(** After the same [Set] calls, two vectors agree on every key the calls
    name and on every key they agreed on before. *)
Lemma set_all_lookup_congr (c : Cache.t) (sets : list (string * string * float))
    (vec vec' : gmap (list string) float) (k : list string) :
  vec !! k = vec' !! k
  \/ In k (map (fun x => labels c (fst (fst x)) (snd (fst x))) sets) ->
  set_all c sets vec !! k = set_all c sets vec' !! k.
Proof.
  revert vec vec'. induction sets as [|[[cat sub] v] sets IH]; intros vec vec' H.
  - destruct H as [H|[]]. exact H.
  - rewrite !set_all_cons. apply IH. unfold GaugeVec_Set.
    destruct (decide (labels c cat sub = k)) as [->|Hne].
    + left. rewrite !lookup_insert_eq. reflexivity.
    + rewrite !lookup_insert_ne by exact Hne.
      destruct H as [H|[H|H]]; [left; exact H|contradiction|right; exact H].
Qed.

Lemma set_all_is_Some (c : Cache.t) (sets : list (string * string * float))
    (vec : gmap (list string) float) (k : list string) :
  is_Some (vec !! k) -> is_Some (set_all c sets vec !! k).
Proof.
  revert vec. induction sets as [|[[cat sub] v] sets IH]; intros vec H; [exact H|].
  rewrite set_all_cons. apply IH. unfold GaugeVec_Set.
  apply lookup_insert_is_Some'. right. exact H.
Qed.

Lemma set_all_dom (c : Cache.t) (sets : list (string * string * float))
    (vec : gmap (list string) float) :
  dom (set_all c sets vec)
  = list_to_set (map (fun x => labels c (fst x).1 (fst x).2) sets) ∪ dom vec.
Proof.
  revert vec. induction sets as [|[[cat sub] v] sets IH]; intros vec.
  - cbn [map list_to_set]. rewrite (left_id_L ∅ (∪)). reflexivity.
  - rewrite set_all_cons, IH. unfold GaugeVec_Set. rewrite dom_insert_L.
    cbn [map list_to_set fst snd].
    rewrite (assoc_L (∪)), (comm_L (∪) (list_to_set _) {[_]}). reflexivity.
Qed.

(** The two tables name the same pairs, in the same order, whatever the
    reading. *)
Lemma sets_same_keys (stats stats' : CacheStats.t) :
  map fst (count_sets stats) = map fst (percentage_sets stats')
  /\ map fst (count_sets stats) = map fst (count_sets stats')
  /\ length (count_sets stats) = 32%nat.
Proof. repeat apply conj; reflexivity. Qed.

Lemma set_keys_fst (c : Cache.t) (sets : list (string * string * float)) :
  map (fun x : string * string * float => labels c (fst x).1 (fst x).2) sets
  = map (fun p : string * string => labels c p.1 p.2) (map fst sets).
Proof. rewrite map_map. reflexivity. Qed.

End ObserveFacts.

(** X1. Observing a cache twice leaves, in both vectors, exactly what the
    second observation alone leaves: the last write wins for every key and
    nothing of the first reading survives. *)
Theorem observe_last_write_wins
    (c : casadm.Cache.t) (s1 s2 : casadm.CacheStats.t) (e : casexporter.CasExporter) :
  casexporter.ocfStatCount (casexporter.observe c s2 (casexporter.observe c s1 e))
  = casexporter.ocfStatCount (casexporter.observe c s2 e)
  /\ casexporter.ocfStatPercentage
       (casexporter.observe c s2 (casexporter.observe c s1 e))
     = casexporter.ocfStatPercentage (casexporter.observe c s2 e).
Proof.
  split; apply map_eq; intros k; cbn [casexporter.observe casexporter.ocfStatCount
                                        casexporter.ocfStatPercentage];
    apply set_all_lookup_congr.
  - destruct (decide (k ∈ map (fun x => casexporter.labels c (fst x).1 (fst x).2)
                              (casexporter.count_sets s2))) as [Hin|Hout];
      rewrite list_elem_of_In in *; [right; exact Hin|].
    left. apply set_all_lookup_other. intros cat sub v Hin Heq. apply Hout.
    rewrite set_keys_fst, (proj1 (proj2 (sets_same_keys s2 s1))), <- set_keys_fst.
    rewrite <- Heq.
    apply (in_map (fun x => casexporter.labels c (fst x).1 (fst x).2) _ (cat, sub, v) Hin).
  - destruct (decide (k ∈ map (fun x => casexporter.labels c (fst x).1 (fst x).2)
                              (casexporter.percentage_sets s2))) as [Hin|Hout];
      rewrite list_elem_of_In in *; [right; exact Hin|].
    left. apply set_all_lookup_other. intros cat sub v Hin Heq. apply Hout.
    rewrite set_keys_fst.
    rewrite <- (proj1 (sets_same_keys s1 s2)), (proj1 (sets_same_keys s1 s1)).
    rewrite <- set_keys_fst. rewrite <- Heq.
    apply (in_map (fun x => casexporter.labels c (fst x).1 (fst x).2) _ (cat, sub, v) Hin).
Qed.

(** ** One cycle, seen through its calls *)

Section CycleFacts.
Import casadm casexporter.
Local Open Scope list_scope.
Variable env : Env.

(** A cycle is its enumeration call followed by sample calls for active
    caches; its per-cache vectors are the replay of those calls. *)
Lemma cycle_replay (e : CasExporter) (w : World) :
  exists new,
    calls (cycle env e w) = CallListCaches (fst (ListCaches env w)) :: new
    /\ ocfStatCount (exporter (cycle env e w)) = ocfStatCount (replay new e)
    /\ ocfStatPercentage (exporter (cycle env e w)) = ocfStatPercentage (replay new e)
    /\ (forall c r, In (CallGetCacheStats c r) new -> active c = true)
    /\ success (cycle env e w)
       = (if is_Err (fst (ListCaches env w)) || existsb failed new then 0 else 1).
Proof.
  destruct (cycle_fields env e w) as (Hc & Hp & _ & _ & Hcalls & Hsucc & _).
  rewrite Hc, Hp, Hcalls, Hsucc.
  destruct (ListCaches env w) as [[caches|err] w1] eqn:HL; cbn [fst is_Err orb].
  - destruct (extract_listed env e w w1 caches HL) as (new & C & E & S & F & _).
    exists new. rewrite C, E, F. repeat apply conj; try reflexivity.
    apply (sampled_active new caches S).
  - rewrite (extract_failed env e w w1 err HL). exists [].
    cbn [calls exporter success replay fold_left].
    repeat apply conj; try reflexivity. intros c r [].
Qed.

Lemma observe_is_Some (c : Cache.t) (stats : CacheStats.t) (e : CasExporter)
    (k : list string) :
  (is_Some (ocfStatCount e !! k) -> is_Some (ocfStatCount (observe c stats e) !! k))
  /\ (is_Some (ocfStatPercentage e !! k)
      -> is_Some (ocfStatPercentage (observe c stats e) !! k)).
Proof. split; apply set_all_is_Some. Qed.

Lemma replay_is_Some (cs : list Call) (e : CasExporter) (k : list string) :
  (is_Some (ocfStatCount e !! k) -> is_Some (ocfStatCount (replay cs e) !! k))
  /\ (is_Some (ocfStatPercentage e !! k)
      -> is_Some (ocfStatPercentage (replay cs e) !! k)).
Proof.
  revert e. induction cs as [|call cs IH]; intros e; [split; auto|].
  rewrite replay_cons. destruct (IH (replay [call] e)) as [Hc Hp].
  destruct call as [r|c [stats|err]]; try (split; assumption).
  change (replay [CallGetCacheStats c (Ok stats)] e) with (observe c stats e) in *.
  destruct (observe_is_Some c stats e k) as [Oc Op]. split; auto.
Qed.

Lemma observe_dom (c : Cache.t) (stats : CacheStats.t) (e : CasExporter) :
  dom (ocfStatCount e) = dom (ocfStatPercentage e) ->
  dom (ocfStatCount (observe c stats e)) = dom (ocfStatPercentage (observe c stats e)).
Proof.
  intros H. cbn [observe ocfStatCount ocfStatPercentage].
  rewrite !set_all_dom, !set_keys_fst, H, (proj1 (sets_same_keys stats stats)).
  reflexivity.
Qed.

Lemma replay_dom (cs : list Call) (e : CasExporter) :
  dom (ocfStatCount e) = dom (ocfStatPercentage e) ->
  dom (ocfStatCount (replay cs e)) = dom (ocfStatPercentage (replay cs e)).
Proof.
  revert e. induction cs as [|call cs IH]; intros e H; [exact H|].
  rewrite replay_cons. apply IH.
  destruct call as [r|c [stats|err]]; try exact H.
  apply observe_dom, H.
Qed.

Lemma set_all_fixed_keyed (c : Cache.t) (stats : CacheStats.t)
    (sets : list (string * string * float)) (vec : gmap (list string) float) :
  active c = true ->
  map fst sets = map fst (count_sets stats) ->
  fixed_keyed vec -> fixed_keyed (set_all c sets vec).
Proof.
  intros Ha Hk Hvec k Hsome.
  apply elem_of_dom in Hsome. rewrite set_all_dom in Hsome.
  apply elem_of_union in Hsome as [Hin|Hin].
  - apply elem_of_list_to_set, list_elem_of_In in Hin.
    rewrite set_keys_fst in Hin. apply in_map_iff in Hin as ([cat sub] & <- & Hin).
    exists c, cat, sub, stats. rewrite <- Hk. auto.
  - apply Hvec, elem_of_dom, Hin.
Qed.

Lemma replay_fixed_keyed (cs : list Call) (e : CasExporter) :
  (forall c r, In (CallGetCacheStats c r) cs -> active c = true) ->
  fixed_keyed (ocfStatCount e) /\ fixed_keyed (ocfStatPercentage e) ->
  fixed_keyed (ocfStatCount (replay cs e))
  /\ fixed_keyed (ocfStatPercentage (replay cs e)).
Proof.
  revert e. induction cs as [|call cs IH]; intros e Hact H; [exact H|].
  rewrite replay_cons. apply IH.
  - intros c r Hin. apply (Hact c r). right. exact Hin.
  - destruct call as [r|c [stats|err]]; try exact H.
    destruct H as [Hc Hp].
    assert (Ha : active c = true) by (apply (Hact c (Ok stats)); left; reflexivity).
    change (replay [CallGetCacheStats c (Ok stats)] e) with (observe c stats e).
    split; cbn [observe ocfStatCount ocfStatPercentage].
    + apply (set_all_fixed_keyed c stats); auto.
    + apply (set_all_fixed_keyed c stats); auto.
Qed.

(** The success gauge after a cycle is 0 or 1. *)
Lemma cycle_success_flag_gauge (e : CasExporter) (w : World) :
  ocfStatSuccess (exporter (cycle env e w)) !! [] = Some 0%float
  \/ ocfStatSuccess (exporter (cycle env e w)) !! [] = Some 1%float.
Proof.
  destruct (cycle_replay e w) as (new & _ & _ & _ & _ & S).
  destruct (cycle_fields env e w) as (_ & _ & Hs & _ & _ & Hsucc & _).
  rewrite Hs, <- Hsucc, S.
  destruct (is_Err (fst (ListCaches env w)) || existsb failed new); auto.
Qed.

End CycleFacts.

(** X2. The success flag of a cycle is 1 exactly when the enumeration
    succeeded and no sample call of the cycle failed, and 0 otherwise; the
    success gauge holds that flag. *)
Theorem cycle_success_flag
    (env : casadm.Env) (e : casexporter.CasExporter) (w : World) :
  let it := casexporter.cycle env e w in
  casexporter.success it
  = (if is_Err (fst (casadm.ListCaches env w))
        || existsb casexporter.failed (casexporter.calls it)
     then 0 else 1)
  /\ casexporter.ocfStatSuccess (casexporter.exporter it) !! []
     = Some (float64_of_int (casexporter.success it)).
Proof.
  cbv zeta. destruct (cycle_replay env e w) as (new & C & _ & _ & _ & S).
  destruct (cycle_fields env e w) as (_ & _ & Hs & _ & _ & Hsucc & _).
  rewrite Hs, Hsucc, <- Hsucc, S, C. split; reflexivity.
Qed.

(** X3. A cycle leaves alone every gauge of a cache it did not sample
    successfully: if no successful sample call of the cycle is for device
    [device] and id [id], the count and percentage gauges labelled with that
    device and id are exactly as before (created neither, changed neither). *)
Theorem cycle_keeps_unsampled
    (env : casadm.Env) (e : casexporter.CasExporter) (w : World)
    (device : string) (id : Z) :
  let it := casexporter.cycle env e w in
  (forall c stats,
     In (casexporter.CallGetCacheStats c (Ok stats)) (casexporter.calls it) ->
     (casadm.Cache.Device c, casadm.Cache.ID c) <> (device, id)) ->
  forall rest : list string,
    casexporter.ocfStatCount (casexporter.exporter it)
      !! (device :: strconv_Itoa id :: rest)
    = casexporter.ocfStatCount e !! (device :: strconv_Itoa id :: rest)
    /\ casexporter.ocfStatPercentage (casexporter.exporter it)
         !! (device :: strconv_Itoa id :: rest)
       = casexporter.ocfStatPercentage e !! (device :: strconv_Itoa id :: rest).
Proof.
  intros it H rest. subst it.
  destruct (cycle_replay env e w) as (new & C & Hc & Hp & _ & _).
  rewrite Hc, Hp. apply replay_other.
  intros c stats Hin cat sub. unfold casexporter.labels, strconv_Itoa.
  intros [= Hd Hi]. apply (H c stats).
  - rewrite C. right. exact Hin.
  - f_equal; [exact Hd|]. exact (pretty_Z_inj _ _ Hi).
Qed.

Lemma cycle_keeps_unsampled_witness :
  (forall c stats,
     In (casexporter.CallGetCacheStats c (Ok stats))
        (casexporter.calls (casexporter.cycle demo.env_down demo.e1 demo.w0)) ->
     (casadm.Cache.Device c, casadm.Cache.ID c) <> ("/dev/sda"%string, 1))
  /\ casexporter.ocfStatCount
       (casexporter.exporter (casexporter.cycle demo.env_down demo.e1 demo.w0))
       !! ["/dev/sda"; "1"; "usage"; "occupancy"]
     = casexporter.ocfStatCount demo.e1 !! ["/dev/sda"; "1"; "usage"; "occupancy"].
Proof.
  assert (H : forall c stats,
     In (casexporter.CallGetCacheStats c (Ok stats))
        (casexporter.calls (casexporter.cycle demo.env_down demo.e1 demo.w0)) ->
     (casadm.Cache.Device c, casadm.Cache.ID c) <> ("/dev/sda"%string, 1)).
  { intros c stats Hin.
    assert (Hcalls : casexporter.calls (casexporter.cycle demo.env_down demo.e1 demo.w0)
                     = [casexporter.CallListCaches (Err demo.down_msg)])
      by (vm_compute; reflexivity).
    rewrite Hcalls in Hin. destruct Hin as [Hin|[]]. discriminate Hin. }
  split; [exact H|].
  exact (proj1 (cycle_keeps_unsampled demo.env_down demo.e1 demo.w0 "/dev/sda" 1 H
                  ["usage"; "occupancy"])).
Defined.

(** X4. After a cycle, every cache that was sampled successfully in it has
    all 32 (category, subcategory) gauges of the loop body, in the count
    vector and in the percentage vector. *)
Theorem cycle_sets_every_key
    (env : casadm.Env) (e : casexporter.CasExporter) (w : World)
    (c : casadm.Cache.t) (stats : casadm.CacheStats.t) :
  let it := casexporter.cycle env e w in
  In (casexporter.CallGetCacheStats c (Ok stats)) (casexporter.calls it) ->
  length (casexporter.count_sets stats) = 32%nat
  /\ forall category subcategory,
       In (category, subcategory) (map fst (casexporter.count_sets stats)) ->
       is_Some (casexporter.ocfStatCount (casexporter.exporter it)
                  !! casexporter.labels c category subcategory)
       /\ is_Some (casexporter.ocfStatPercentage (casexporter.exporter it)
                     !! casexporter.labels c category subcategory).
Proof.
  intros it H. subst it. split; [reflexivity|]. intros cat sub Hk.
  destruct (cycle_replay env e w) as (new & C & Hc & Hp & _ & _).
  rewrite C in H. destruct H as [H|H]; [discriminate|].
  apply in_split in H as (pre & post & ->).
  rewrite Hc, Hp, replay_app, replay_cons.
  change (casexporter.replay [casexporter.CallGetCacheStats c (Ok stats)]
            (casexporter.replay pre e))
    with (casexporter.observe c stats (casexporter.replay pre e)).
  destruct (replay_is_Some post
              (casexporter.observe c stats (casexporter.replay pre e))
              (casexporter.labels c cat sub)) as [Kc Kp].
  split.
  - apply Kc. apply in_map_iff in Hk as ([[cat' sub'] v] & [= -> ->] & Hin).
    rewrite (observe_count_in c stats _ cat sub v Hin). eauto.
  - apply Kp. rewrite (proj1 (sets_same_keys stats stats)) in Hk.
    apply in_map_iff in Hk as ([[cat' sub'] v] & [= -> ->] & Hin).
    rewrite (observe_percentage_in c stats _ cat sub v Hin). eauto.
Qed.

Lemma cycle_sets_every_key_witness :
  In (casexporter.CallGetCacheStats demo.cacheA (Ok demo.statsA))
     (casexporter.calls (casexporter.cycle demo.env demo.e0 demo.w0))
  /\ is_Some (casexporter.ocfStatCount
                (casexporter.exporter (casexporter.cycle demo.env demo.e0 demo.w0))
                !! casexporter.labels demo.cacheA "errors" "total").
Proof.
  assert (H : In (casexporter.CallGetCacheStats demo.cacheA (Ok demo.statsA))
                 (casexporter.calls (casexporter.cycle demo.env demo.e0 demo.w0)))
    by (vm_compute; right; left; reflexivity).
  split; [exact H|].
  refine (proj1 (proj2 (cycle_sets_every_key demo.env demo.e0 demo.w0
                          demo.cacheA demo.statsA H) "errors" "total" _)).
  do 31 right. left. reflexivity.
Defined.

(** ** The loop, over any number of iterations *)

Section StartFacts.
Import casadm casexporter.
Variable env : Env.

(** What every cycle preserves, [Start] preserves. *)
Lemma Start_preserves (P : CasExporter -> Prop) :
  (forall e w, P e -> P (exporter (cycle env e w))) ->
  forall n e w, P e -> P (progress_exporter (Start env n e w)).
Proof.
  intros Hcycle n. induction n as [|n IH]; intros e w H; [exact H|].
  rewrite Start_unfold. destruct (ctx_Done w); [exact H|].
  apply IH, Hcycle, H.
Qed.

Lemma cycle_dom (e : CasExporter) (w : World) :
  dom (ocfStatCount e) = dom (ocfStatPercentage e) ->
  dom (ocfStatCount (exporter (cycle env e w)))
  = dom (ocfStatPercentage (exporter (cycle env e w))).
Proof.
  intros H. destruct (cycle_replay env e w) as (new & _ & Ec & Ep & _).
  rewrite Ec, Ep. apply replay_dom, H.
Qed.

Lemma cycle_fixed_keyed (e : CasExporter) (w : World) :
  fixed_keyed (ocfStatCount e) /\ fixed_keyed (ocfStatPercentage e) ->
  fixed_keyed (ocfStatCount (exporter (cycle env e w)))
  /\ fixed_keyed (ocfStatPercentage (exporter (cycle env e w))).
Proof.
  intros H. destruct (cycle_replay env e w) as (new & _ & Ec & Ep & Hact & _).
  rewrite Ec, Ep. apply replay_fixed_keyed; assumption.
Qed.

Lemma Start_world (n : nat) (e : CasExporter) (w : World) :
  clock w <= clock (progress_world (Start env n e w))
  /\ cancel_at (progress_world (Start env n e w)) = cancel_at w
  /\ extractionInterval (progress_exporter (Start env n e w)) = extractionInterval e.
Proof.
  revert e w. induction n as [|n IH]; intros e w.
  - cbn. repeat split; reflexivity || lia.
  - rewrite Start_unfold. destruct (ctx_Done w).
    + cbn. repeat split; reflexivity || lia.
    + destruct (cycle_world env e w) as (Hclk & Hcan & Hint).
      destruct (IH (exporter (cycle env e w))
                  (time_Sleep (extractionInterval e) (world (cycle env e w))))
        as (K & C & I).
      assert (Hs : clock (world (cycle env e w))
                   <= clock (time_Sleep (extractionInterval e) (world (cycle env e w))))
        by (unfold time_Sleep; cbn [clock]; lia).
      repeat split; [lia| |congruence].
      rewrite C. exact Hcan.
Qed.

End StartFacts.

(** X5. The loop never deletes a per-cache gauge: a label tuple present in
    the count (or percentage) vector is still present after any number of
    iterations, whatever the enumeration returns meanwhile. *)
Theorem Start_never_deletes
    (env : casadm.Env) (n : nat) (e : casexporter.CasExporter) (w : World)
    (k : list string) :
  (is_Some (casexporter.ocfStatCount e !! k) ->
   is_Some (casexporter.ocfStatCount
              (casexporter.progress_exporter (casexporter.Start env n e w)) !! k))
  /\ (is_Some (casexporter.ocfStatPercentage e !! k) ->
      is_Some (casexporter.ocfStatPercentage
                 (casexporter.progress_exporter (casexporter.Start env n e w)) !! k)).
Proof.
  split; intros H.
  - apply (Start_preserves env
             (fun e => is_Some (casexporter.ocfStatCount e !! k))); [|exact H].
    intros e0 w0 H0. destruct (cycle_replay env e0 w0) as (new & _ & Ec & _).
    rewrite Ec. apply replay_is_Some, H0.
  - apply (Start_preserves env
             (fun e => is_Some (casexporter.ocfStatPercentage e !! k))); [|exact H].
    intros e0 w0 H0. destruct (cycle_replay env e0 w0) as (new & _ & _ & Ep & _).
    rewrite Ep. apply replay_is_Some, H0.
Qed.

Lemma Start_never_deletes_witness :
  is_Some (casexporter.ocfStatCount demo.e1 !! ["/dev/sda"; "1"; "usage"; "occupancy"])
  /\ is_Some (casexporter.ocfStatCount
                (casexporter.progress_exporter
                   (casexporter.Start demo.env_down 3 demo.e1 demo.w0))
                !! ["/dev/sda"; "1"; "usage"; "occupancy"]).
Proof.
  assert (H : is_Some (casexporter.ocfStatCount demo.e1
                         !! ["/dev/sda"; "1"; "usage"; "occupancy"]))
    by (exists 100%float; vm_compute; reflexivity).
  split; [exact H|].
  exact (proj1 (Start_never_deletes demo.env_down 3 demo.e1 demo.w0 _) H).
Defined.

(** X6. Started from [NewCasExporter], the loop keeps the two per-cache
    vectors over the same label tuples, and every tuple in them is
    (device, id, category, subcategory) of a cache whose device is not "-"
    with (category, subcategory) one of the 32 pairs of the loop body. *)
Theorem Start_keys_are_fixed
    (env : casadm.Env) (n : nat) (extractionInterval : Z) (w : World) :
  let e := casexporter.progress_exporter
             (casexporter.Start env n (casexporter.NewCasExporter extractionInterval) w) in
  dom (casexporter.ocfStatCount e) = dom (casexporter.ocfStatPercentage e)
  /\ casexporter.fixed_keyed (casexporter.ocfStatCount e)
  /\ casexporter.fixed_keyed (casexporter.ocfStatPercentage e).
Proof.
  cbv zeta. split.
  - apply (Start_preserves env
             (fun e => dom (casexporter.ocfStatCount e)
                       = dom (casexporter.ocfStatPercentage e))).
    + intros e0 w0. apply cycle_dom.
    + reflexivity.
  - apply (Start_preserves env
             (fun e => casexporter.fixed_keyed (casexporter.ocfStatCount e)
                       /\ casexporter.fixed_keyed (casexporter.ocfStatPercentage e))).
    + intros e0 w0. apply cycle_fixed_keyed.
    + split; intros k [v Hv]; cbn in Hv; rewrite lookup_empty in Hv; discriminate.
Qed.

(** X7. [Start] returns only once the context is done: whenever it has
    returned, cancellation had been raised by then, at the instant the world
    fixed from the start, and time has not gone backwards. *)
Theorem Start_returns_only_cancelled
    (env : casadm.Env) (n : nat) (e e' : casexporter.CasExporter) (w w' : World) :
  casexporter.Start env n e w = casexporter.Returned e' w' ->
  ctx_Done w' = true /\ cancel_at w' = cancel_at w /\ clock w <= clock w'.
Proof.
  intros H. destruct (Start_world env n e w) as (K & C & _).
  rewrite H in K, C. cbn [casexporter.progress_world] in K, C.
  repeat split; auto. clear K C.
  revert e w H. induction n as [|n IH]; intros e w H; [discriminate|].
  rewrite Start_unfold in H. destruct (ctx_Done w) eqn:D.
  - injection H as _ <-. exact D.
  - exact (IH _ _ H).
Qed.

Lemma Start_returns_only_cancelled_witness :
  casexporter.Start demo.env 1 demo.e0 {| clock := 20; cancel_at := Some 15 |}
  = casexporter.Returned demo.e0 {| clock := 20; cancel_at := Some 15 |}
  /\ ctx_Done {| clock := 20; cancel_at := Some 15 |} = true.
Proof.
  assert (H : casexporter.Start demo.env 1 demo.e0 {| clock := 20; cancel_at := Some 15 |}
              = casexporter.Returned demo.e0 {| clock := 20; cancel_at := Some 15 |})
    by reflexivity.
  split; [exact H|].
  exact (proj1 (Start_returns_only_cancelled demo.env 1 _ _ _ _ H)).
Defined.

(** X8. Without cancellation the loop never returns: after any number of
    iterations [Start] is still at the top of its [for]. *)
Theorem Start_runs_until_cancelled
    (env : casadm.Env) (n : nat) (e : casexporter.CasExporter) (w : World) :
  cancel_at w = None ->
  exists e' w', casexporter.Start env n e w = casexporter.Looping e' w'.
Proof.
  revert e w. induction n as [|n IH]; intros e w H; [cbn; eauto|].
  rewrite Start_unfold. unfold ctx_Done. rewrite H.
  apply IH. unfold time_Sleep. cbn [cancel_at].
  rewrite (proj1 (proj2 (cycle_world env e w))). exact H.
Qed.

Lemma Start_runs_until_cancelled_witness :
  cancel_at demo.w0 = None
  /\ exists e' w', casexporter.Start demo.env 3 demo.e0 demo.w0
                   = casexporter.Looping e' w'.
Proof.
  assert (H : cancel_at demo.w0 = None) by reflexivity.
  split; [exact H|]. exact (Start_runs_until_cancelled demo.env 3 demo.e0 demo.w0 H).
Defined.

(** X9. With a positive interval, cancellation always ends the loop: if
    [cancel()] comes at some instant, there is a number of iterations after
    which [Start] has returned, and it stays returned with the same exporter
    and world for any larger number. *)
Theorem Start_returns_after_cancel
    (env : casadm.Env) (e : casexporter.CasExporter) (w : World) (tc : Z) :
  cancel_at w = Some tc ->
  0 < casexporter.extractionInterval e ->
  exists n e' w',
    forall m, (n <= m)%nat ->
              casexporter.Start env m e w = casexporter.Returned e' w'.
Proof.
  remember (Z.to_nat (tc - clock w)) as d eqn:Hd.
  assert (Hle : (Z.to_nat (tc - clock w) <= d)%nat) by lia. clear Hd.
  revert e w Hle. induction d as [|d IH]; intros e w Hle Hc Hi.
  - exists 1%nat, e, w. intros [|m] Hm; [lia|].
    rewrite Start_unfold. unfold ctx_Done. rewrite Hc.
    replace (tc <=? clock w) with true by (symmetry; apply Z.leb_le; lia).
    reflexivity.
  - destruct (ctx_Done w) eqn:D.
    + exists 1%nat, e, w. intros [|m] Hm; [lia|]. rewrite Start_unfold, D. reflexivity.
    + destruct (cycle_world env e w) as (Hclk & Hcan & Hint).
      destruct (IH (casexporter.exporter (casexporter.cycle env e w))
                  (time_Sleep (casexporter.extractionInterval e)
                     (casexporter.world (casexporter.cycle env e w))))
        as (n & e' & w' & Hn).
      * unfold time_Sleep. cbn [clock]. lia.
      * unfold time_Sleep. cbn [cancel_at]. congruence.
      * rewrite Hint. exact Hi.
      * exists (S n), e', w'. intros [|m] Hm; [lia|].
        rewrite Start_unfold, D. apply Hn. lia.
Qed.

Lemma Start_returns_after_cancel_witness :
  cancel_at demo.w_cancel = Some 15
  /\ 0 < casexporter.extractionInterval demo.e0
  /\ exists n e' w',
       forall m, (n <= m)%nat ->
                 casexporter.Start demo.env m demo.e0 demo.w_cancel
                 = casexporter.Returned e' w'.
Proof.
  assert (H1 : cancel_at demo.w_cancel = Some 15) by reflexivity.
  assert (H2 : 0 < casexporter.extractionInterval demo.e0) by reflexivity.
  split; [exact H1|]. split; [exact H2|].
  exact (Start_returns_after_cancel demo.env demo.e0 demo.w_cancel 15 H1 H2).
Defined.

(** X10. Once the loop has run a cycle, the cycle outcome is always there:
    after one or more iterations started with the context not yet done, the
    success gauge holds 0 or 1 and the duration gauge is set. *)
Theorem Start_cycle_outcome_present
    (env : casadm.Env) (n : nat) (e : casexporter.CasExporter) (w : World) :
  ctx_Done w = false ->
  let e' := casexporter.progress_exporter (casexporter.Start env (S n) e w) in
  (casexporter.ocfStatSuccess e' !! [] = Some 0%float
   \/ casexporter.ocfStatSuccess e' !! [] = Some 1%float)
  /\ is_Some (casexporter.ocfStatDuration e' !! []).
Proof.
  intros D. cbv zeta. rewrite Start_unfold, D.
  assert (C : forall e0 w0,
             (casexporter.ocfStatSuccess
                (casexporter.exporter (casexporter.cycle env e0 w0)) !! []
              = Some 0%float
              \/ casexporter.ocfStatSuccess
                   (casexporter.exporter (casexporter.cycle env e0 w0)) !! []
                 = Some 1%float)
             /\ is_Some (casexporter.ocfStatDuration
                           (casexporter.exporter (casexporter.cycle env e0 w0)) !! [])).
  { intros e0 w0.
    destruct (cycle_fields env e0 w0) as (_ & _ & _ & Hd & _).
    destruct (cycle_success_flag_gauge env e0 w0) as [Hs|Hs]; rewrite Hd; eauto. }
  apply (Start_preserves env
           (fun e => (casexporter.ocfStatSuccess e !! [] = Some 0%float
                      \/ casexporter.ocfStatSuccess e !! [] = Some 1%float)
                     /\ is_Some (casexporter.ocfStatDuration e !! []))).
  - intros e0 w0 _. apply C.
  - apply C.
Qed.

Lemma Start_cycle_outcome_present_witness :
  ctx_Done demo.w0 = false
  /\ is_Some (casexporter.ocfStatDuration
                (casexporter.progress_exporter
                   (casexporter.Start demo.env_down 2 demo.e0 demo.w0)) !! []).
Proof.
  assert (H : ctx_Done demo.w0 = false) by reflexivity.
  split; [exact H|].
  exact (proj2 (Start_cycle_outcome_present demo.env_down 1 demo.e0 demo.w0 H)).
Defined.

(** ** The process: every schedule *)

Section ProcessFacts.
Import process.

Ltac step_done H := injection H as <-; cbn in *.

Ltac pc_close :=
  auto; try discriminate;
  try match goal with
      | |- match ?x with _ => _ end => destruct x as [[]|]; cbn in *; auto
      end;
  try tauto.

Lemma safe_step_cancel (a : Agent) (s s' : State) :
  safe_inv s -> step a s = Some s' ->
  (cancelled s' = true -> main_pc s' = MWait \/ main_pc s' = MReturn)
  /\ (shut_down s' = true -> cancelled s' = true)
  /\ (match serve_pc s' with
      | Some VShutdown | Some VDone | Some VGone => cancelled s' = true
      | _ => True
      end)
  /\ (match start_pc s' with
      | Some SGone => cancelled s' = true
      | _ => True
      end)
  /\ (match listen_pc s' with
      | Some LFailed => bind_fails s' = true \/ shut_down s' = true
      | _ => True
      end).
Proof.
  intros (_ & D & E & F & G & L & _) H.
  destruct s as [mpc spc vpc lpc wg0 stop0 can0 shut0 bf0 ex0].
  cbn in D, E, F, G, L. unfold step in H. cbn in H.
  destruct ex0; [discriminate|]. destruct a; cbn in H.
  - unfold main_step in H; cbn in H.
    destruct mpc; cbn in H; try destruct stop0; try destruct (wg0 =? 0);
      try discriminate; step_done H;
      repeat apply conj; pc_close;
      try (intros Hc; destruct (D Hc); discriminate).
  - unfold Start_step, wg_Done in H; cbn in H.
    destruct spc as [[]|]; try discriminate; cbn in H;
      try destruct can0; try destruct (wg0 <=? 0); step_done H;
      repeat apply conj; pc_close.
  - unfold Serve_step, wg_Done in H; cbn in H.
    destruct vpc as [[]|]; try discriminate; cbn in H;
      try destruct can0; try destruct (wg0 <=? 0); try discriminate; step_done H;
      repeat apply conj; pc_close.
  - unfold listen_step in H; cbn in H.
    destruct lpc as [[]|]; try discriminate; cbn in H;
      try (destruct bf0, shut0; cbn in H; try discriminate); step_done H;
      repeat apply conj; pc_close.
  - unfold signal_step in H; cbn in H.
    destruct mpc; try discriminate; step_done H; repeat apply conj; pc_close.
Qed.

Lemma safe_step_exit (a : Agent) (s s' : State) :
  safe_inv s -> step a s = Some s' ->
  match exit_status s' with
  | None | Some 0 => True
  | Some 1 => listen_pc s' = Some LFailed
  | Some _ => False
  end.
Proof.
  intros ((A & _ & C) & D & E & F & _) H.
  destruct s as [mpc spc vpc lpc wg0 stop0 can0 shut0 bf0 ex0].
  unfold dones in A. cbn in A, C, D, E, F. unfold step in H. cbn in H.
  destruct ex0; [discriminate|]. destruct a; cbn in H.
  - unfold main_step in H; cbn in H.
    destruct mpc; cbn in H; try destruct stop0; try destruct (wg0 =? 0);
      try discriminate; step_done H; exact I.
  - unfold Start_step, wg_Done in H; cbn in H.
    destruct spc as [[]|]; try discriminate; cbn in H.
    + destruct can0; [|step_done H; exact I].
      destruct (D eq_refl) as [-> | ->]; [|destruct C as (_ & Cs & _); discriminate].
      cbn in A. destruct (wg0 <=? 0) eqn:W; [|step_done H; exact I].
      apply Z.leb_le in W. destruct vpc as [[]|]; cbn in A; lia.
    + step_done H. exact I.
  - unfold Serve_step, wg_Done in H; cbn in H.
    destruct vpc as [[]|]; try discriminate; cbn in H;
      try (destruct can0; try discriminate); try (step_done H; exact I).
    destruct (D E) as [-> | ->]; [|destruct C as (_ & _ & Cv); discriminate].
    cbn in A. destruct (wg0 <=? 0) eqn:W; [|step_done H; exact I].
    apply Z.leb_le in W. destruct spc as [[]|]; cbn in A; lia.
  - unfold listen_step in H; cbn in H.
    destruct lpc as [[]|]; try discriminate; cbn in H;
      try (destruct (bf0 || shut0); try discriminate); step_done H;
      exact I || reflexivity.
  - unfold signal_step in H; cbn in H.
    destruct mpc; try discriminate; step_done H; exact I.
Qed.

Lemma safe_inv_boot (b : bool) : safe_inv (boot b).
Proof.
  split; [apply teardown_inv_boot|]. cbn.
  repeat apply conj; auto; discriminate.
Qed.

Lemma safe_inv_step (a : Agent) (s s' : State) :
  safe_inv s -> step a s = Some s' -> safe_inv s'.
Proof.
  intros H E.
  destruct (safe_step_cancel a s s' H E) as (D & G & V & F & L).
  pose proof (safe_step_exit a s s' H E) as X.
  destruct H as (T & _).
  pose proof (teardown_inv_step a s s' T E) as T'.
  unfold safe_inv. auto 10.
Qed.

Lemma safe_inv_run (schedule : list Agent) (s : State) :
  safe_inv s -> safe_inv (run schedule s).
Proof.
  revert s. induction schedule as [|a schedule IH]; intros s H; [exact H|].
  change (run (a :: schedule) s) with (run schedule (default s (step a s))).
  apply IH. destruct (step a s) as [s'|] eqn:E; [|exact H].
  exact (safe_inv_step a s s' H E).
Qed.

Lemma step_bind_fails (a : Agent) (s s' : State) :
  step a s = Some s' -> bind_fails s' = bind_fails s.
Proof.
  intros H. destruct s as [mpc spc vpc lpc wg0 stop0 can0 shut0 bf0 ex0].
  unfold step in H. cbn in H. destruct ex0; [discriminate|]. destruct a; cbn in H.
  - unfold main_step in H; cbn in H.
    destruct mpc; cbn in H; try destruct stop0; try destruct (wg0 =? 0);
      try discriminate; step_done H; reflexivity.
  - unfold Start_step, wg_Done in H; cbn in H.
    destruct spc as [[]|]; try discriminate; cbn in H;
      try destruct can0; try destruct (wg0 <=? 0); step_done H; reflexivity.
  - unfold Serve_step, wg_Done in H; cbn in H.
    destruct vpc as [[]|]; try discriminate; cbn in H;
      try destruct can0; try destruct (wg0 <=? 0); try discriminate; step_done H;
      reflexivity.
  - unfold listen_step in H; cbn in H.
    destruct lpc as [[]|]; try discriminate; cbn in H;
      try (destruct (bf0 || shut0); try discriminate); step_done H; reflexivity.
  - unfold signal_step in H; cbn in H.
    destruct mpc; try discriminate; step_done H; reflexivity.
Qed.

Lemma run_bind_fails (schedule : list Agent) (s : State) :
  bind_fails (run schedule s) = bind_fails s.
Proof.
  revert s. induction schedule as [|a schedule IH]; intros s; [reflexivity|].
  change (run (a :: schedule) s) with (run schedule (default s (step a s))).
  rewrite IH. destruct (step a s) as [s'|] eqn:E; [|reflexivity].
  exact (step_bind_fails a s s' E).
Qed.

End ProcessFacts.

Lemma exit_0_after_teardown_witness :
  process.exit_status (process.run demo.drained_run (process.boot false)) = Some 0
  /\ process.cancelled (process.run demo.drained_run (process.boot false)) = true
  /\ process.start_pc (process.run demo.drained_run (process.boot false))
     = Some process.SGone
  /\ process.serve_pc (process.run demo.drained_run (process.boot false))
     = Some process.VGone
  /\ process.wg (process.run demo.drained_run (process.boot false)) = 0.
Proof.
  assert (H : process.exit_status (process.run demo.drained_run (process.boot false))
              = Some 0) by (vm_compute; reflexivity).
  split; [exact H|]. exact (exit_0_after_teardown demo.drained_run false H).
Defined.

(** X12. On every schedule the process ends, if at all, with status 0 or
    1: the WaitGroup counter never goes negative, although both goroutines
    are started before their [wg.Add(1)].  Status 1 needs a listen failure
    or a shutdown that followed a cancellation; so when the address can be
    bound the process stays up until [main] has called [cancel()]. *)
Theorem process_exits_only_after_cancel (schedule : list process.Agent) (b : bool) :
  let s := process.run schedule (process.boot b) in
  (process.exit_status s = None
   \/ process.exit_status s = Some 0
   \/ process.exit_status s = Some 1)
  /\ (process.exit_status s = Some 1 ->
      b = true \/ (process.shut_down s = true /\ process.cancelled s = true))
  /\ (b = false /\ process.cancelled s = false -> process.exit_status s = None).
Proof.
  cbv zeta.
  pose proof (safe_inv_run schedule (process.boot b) (safe_inv_boot b))
    as ((A & B & C) & D & E & F & G & L & X).
  pose proof (run_bind_fails schedule (process.boot b)) as Hb.
  cbn [process.boot process.bind_fails] in Hb.
  set (s := process.run schedule (process.boot b)) in *.
  assert (H1 : process.exit_status s = Some 1 ->
               b = true \/ (process.shut_down s = true /\ process.cancelled s = true)).
  { intros H. rewrite H in X. rewrite X in L. rewrite Hb in L.
    destruct L as [L|L]; [left; exact L|right; auto]. }
  split; [|split; [exact H1|]].
  - destruct (process.exit_status s) as [[|[p|p|]|p]|]; auto; contradiction.
  - intros [Hbf Hc].
    destruct (process.exit_status s) as [[|[p|p|]|p]|] eqn:Ex;
      try contradiction; try reflexivity.
    + rewrite B in C. destruct C as (Cc & _). congruence.
    + destruct (H1 eq_refl) as [?|[_ ?]]; congruence.
Qed.

(** ** The [/metrics] handler: every request is accounted for *)

Lemma step_accounts (s : transport.Server) (ev : transport.Event) :
  (transport.served (transport.step s ev)
   + length (transport.in_flight (transport.step s ev)))%nat
  = (transport.served s + length (transport.in_flight s)
     + transport.arrivals [ev])%nat.
Proof.
  destruct ev as [|i]; cbn [transport.step].
  - rewrite metrics_begin_admits. cbn. rewrite length_app. cbn. lia.
  - unfold transport.metrics_end.
    destruct (transport.in_flight s !! i) as [h|] eqn:Hi; cbn; [|lia].
    apply lookup_lt_Some in Hi.
    rewrite length_app, length_take, length_drop. lia.
Qed.

(** X13. At every moment each request that has arrived is either being
    rendered or has been served, and none has been rejected; completing a
    rendering that is not in flight changes nothing. *)
Theorem requests_accounted (evs : list transport.Event) :
  let s := transport.run evs transport.idle in
  (transport.served s + length (transport.in_flight s))%nat = transport.arrivals evs
  /\ transport.rejected s = 0%nat.
Proof.
  cbv zeta. split; [|apply run_rejected].
  assert (G : forall s,
             (transport.served (transport.run evs s)
              + length (transport.in_flight (transport.run evs s)))%nat
             = (transport.served s + length (transport.in_flight s)
                + transport.arrivals evs)%nat).
  { induction evs as [|ev evs IH]; intros s; [cbn; lia|].
    change (transport.run (ev :: evs) s)
      with (transport.run evs (transport.step s ev)).
    rewrite IH, step_accounts. unfold transport.arrivals. cbn [List.filter].
    destruct ev; cbn [length]; lia. }
  rewrite G. reflexivity.
Qed.

(** ** The historical exporter: [mapHeaders] *)

Section MapHeadersFacts.
Import legacy.

(** Once [found] is set, [mapHeaders] cannot return 1 any more. *)
Lemma mapHeaders_keys_found (headers : gmap string string) (csv_headers : list string)
    (all_keys : list string) (headerMap : gmap string Z) (stdout : list string) :
  fst (fst (mapHeaders_keys headers csv_headers all_keys true headerMap stdout)) = 0.
Proof.
  revert headerMap. induction all_keys as [|key rest IH]; intros headerMap;
    [reflexivity|].
  cbn [mapHeaders_keys].
  destruct (find_column csv_headers 0 (default EmptyString (headers !! key)));
    cbn [negb]; apply IH.
Qed.

(** The keys [mapHeaders] adds to [headerMap] are header keywords. *)
Lemma mapHeaders_keys_dom (headers : gmap string string) (csv_headers : list string)
    (all_keys : list string) (found : bool) (headerMap : gmap string Z)
    (stdout : list string) (k : string) :
  is_Some (snd (fst (mapHeaders_keys headers csv_headers all_keys found headerMap
                       stdout)) !! k) ->
  is_Some (headerMap !! k)
  \/ exists key, In key all_keys /\ k = default EmptyString (headers !! key).
Proof.
  revert found headerMap.
  induction all_keys as [|key rest IH]; intros found headerMap H; [left; exact H|].
  cbn [mapHeaders_keys] in H.
  destruct (find_column csv_headers 0 (default EmptyString (headers !! key)))
    as [i|] eqn:F; cbn [negb] in H.
  - apply IH in H as [H|(key' & Hin & ->)].
    + apply lookup_insert_is_Some in H as [<-|[_ H]]; [|left; exact H].
      right. exists key. split; [left; reflexivity|reflexivity].
    + right. exists key'. split; [right; exact Hin|reflexivity].
  - destruct found; cbn [negb] in H.
    + apply IH in H as [H|(key' & Hin & ->)]; [left; exact H|].
      right. exists key'. split; [right; exact Hin|reflexivity].
    + left. exact H.
Qed.

(** What [initializeHeaders] leaves under a key is one of the assigned
    values. *)
Lemma assignments_lookup (l : list (string * string)) (m : gmap string string)
    (key : string) :
  fold_left (fun m '(k, v) => <[k := v]> m) l m !! key = m !! key
  \/ exists v, fold_left (fun m '(k, v) => <[k := v]> m) l m !! key = Some v
               /\ In v (map snd l).
Proof.
  revert m. induction l as [|[k v] l IH]; intros m; [left; reflexivity|].
  cbn [fold_left map snd].
  destruct (IH (<[k := v]> m)) as [H|(v' & H & Hin)].
  - destruct (decide (k = key)) as [->|Hne].
    + right. exists v. rewrite H, lookup_insert_eq. split; [reflexivity|left; reflexivity].
    + left. rewrite H. apply lookup_insert_ne, Hne.
  - right. exists v'. split; [exact H|right; exact Hin].
Qed.

Lemma initializeHeaders_lookup (key : string) :
  In (default EmptyString (initializeHeaders ∅ !! key))
     (EmptyString :: map snd header_assignments).
Proof.
  unfold initializeHeaders.
  destruct (assignments_lookup header_assignments ∅ key) as [H|(v & H & Hin)];
    rewrite H.
  - rewrite lookup_empty. left. reflexivity.
  - right. exact Hin.
Qed.

End MapHeadersFacts.

(** X14. The return code of [mapHeaders] reflects the first key visited
    only: it is 1 exactly when no column of the header line contains that
    key's keyword, and a keyword missing for any later key is not reported. *)
Theorem mapHeaders_reports_first_key_only
    (headers : gmap string string) (key : string) (rest : list string)
    (headerline : string) (headerMap : gmap string Z) (stdout : list string) :
  fst (fst (legacy.mapHeaders headers (key :: rest) headerline headerMap stdout))
  = match legacy.find_column (strings_Split headerline comma) 0
            (default EmptyString (headers !! key)) with
    | Some _ => 0
    | None => 1
    end.
Proof.
  unfold legacy.mapHeaders. cbn [legacy.mapHeaders_keys].
  destruct (legacy.find_column _ 0 _); cbn [negb fst].
  - apply mapHeaders_keys_found.
  - reflexivity.
Qed.

(** No internal name is a key of the map [mapHeaders] builds from nothing. *)
Lemma mapHeaders_internal_None
    (all_keys : list string) (headerline : string) (stdout : list string)
    (internal : string) :
  In internal (map fst legacy.header_assignments) ->
  snd (fst (legacy.mapHeaders (legacy.initializeHeaders ∅) all_keys headerline ∅
              stdout)) !! internal = None.
Proof.
  intros Hint. apply eq_None_not_Some. intros H.
  apply mapHeaders_keys_dom in H as [H|(key & _ & ->)].
  - rewrite lookup_empty in H. destruct H as [? H]. discriminate H.
  - pose proof (initializeHeaders_lookup key) as Hk.
    revert Hint Hk.
    generalize (default EmptyString (legacy.initializeHeaders ∅ !! key)).
    intros s Hs Hk.
    assert (D : forallb (fun a => forallb (fun b => negb (String.eqb a b))
                                    (EmptyString :: map snd legacy.header_assignments))
                        (map fst legacy.header_assignments) = true)
      by (vm_compute; reflexivity).
    rewrite forallb_forall in D. specialize (D s Hs).
    rewrite forallb_forall in D. specialize (D s Hk).
    rewrite String.eqb_refl in D. discriminate D.
Qed.

(** X15. Whatever the header line and the order of the keys, the map
    [mapHeaders] builds at start-up is keyed by the CSV keywords (the values
    of [headers]), never by the internal names: looking up any internal name,
    [occupancy_blk] among them, finds nothing. *)
Theorem headerMap_has_no_internal_key
    (all_keys : list string) (headerline : string) (stdout : list string)
    (internal : string) :
  In internal (map fst legacy.header_assignments) ->
  snd (fst (legacy.mapHeaders (legacy.initializeHeaders ∅) all_keys headerline ∅
              stdout)) !! internal = None.
Proof.
  intros Hint. apply eq_None_not_Some. intros H.
  apply mapHeaders_keys_dom in H as [H|(key & _ & ->)].
  - rewrite lookup_empty in H. destruct H as [? H]. discriminate H.
  - pose proof (initializeHeaders_lookup key) as Hk.
    revert Hint Hk.
    generalize (default EmptyString (legacy.initializeHeaders ∅ !! key)).
    intros s Hs Hk.
    assert (D : forallb (fun a => forallb (fun b => negb (String.eqb a b))
                                    (EmptyString :: map snd legacy.header_assignments))
                        (map fst legacy.header_assignments) = true)
      by (vm_compute; reflexivity).
    rewrite forallb_forall in D. specialize (D s Hs).
    rewrite forallb_forall in D. specialize (D s Hk).
    rewrite String.eqb_refl in D. discriminate D.
Qed.

Lemma headerMap_has_no_internal_key_witness :
  In legacy.occupancy_blk (map fst legacy.header_assignments)
  /\ snd (fst (legacy.mapHeaders (legacy.initializeHeaders ∅)
                 (map fst legacy.header_assignments)
                 "Cache Id,Occupancy [4KiB blocks],Occupancy [%]" ∅ []))
       !! legacy.occupancy_blk = None.
Proof.
  assert (H : In legacy.occupancy_blk (map fst legacy.header_assignments))
    by (left; reflexivity).
  split; [exact H|].
  exact (headerMap_has_no_internal_key _ _ _ _ H).
Defined.

(** ** The historical exporter: one pass of [recordMetrics_19_9] *)

Section RecorderFacts.
Import legacy.
Variable ParseFloat : string -> option float.

Lemma get_set_gauge (v v' : Vector) (l l' : list string) (x : float) (g : Gauges) :
  get_gauge v l (set_gauge v' l' x g)
  = if decide (vector_name v :: l = vector_name v' :: l') then Some x
    else get_gauge v l g.
Proof.
  destruct v, v'; cbn [get_gauge set_gauge OCFStat_count OCFStat_percentage vector_name];
    case_decide as E; try (injection E as E); try discriminate; subst;
    rewrite ?lookup_insert_eq; try reflexivity;
    rewrite lookup_insert_ne; try reflexivity; congruence.
Qed.

(** The pass gets through exactly when every index it uses is in range. *)
Lemma run_sets_in_range (headerMap : gmap string Z) (parsed : list string)
    (sets : list (Column * Vector * string * string)) (g : Gauges) :
  run_sets ParseFloat headerMap parsed sets g = None
  <-> exists st, In st sets
                 /\ index parsed (column_index headerMap (fst (fst (fst st)))) = None.
Proof.
  revert g. induction sets as [|[[[col v] cat] sub] sets IH]; intros g.
  - cbn. split; [discriminate|]. intros (st & [] & _).
  - cbn [run_sets].
    destruct (index parsed (column_index headerMap col)) as [field|] eqn:E.
    + rewrite IH. split.
      * intros (st & Hin & Hst). exists st. split; [right; exact Hin|exact Hst].
      * intros (st & [<-|Hin] & Hst); [cbn in Hst; congruence|].
        exists st. split; assumption.
    + split; [|reflexivity]. intros _. exists (col, v, cat, sub).
      split; [left; reflexivity|exact E].
Qed.

(** A gauge no statement names is not touched. *)
Lemma run_sets_frame (headerMap : gmap string Z) (parsed : list string)
    (sets : list (Column * Vector * string * string)) (g g' : Gauges)
    (v : Vector) (l : list string) :
  run_sets ParseFloat headerMap parsed sets g = Some g' ->
  ~ In (vector_name v :: l) (map gauge_of sets) ->
  get_gauge v l g' = get_gauge v l g.
Proof.
  revert g. induction sets as [|[[[col v0] cat] sub] sets IH]; intros g H Hout.
  - injection H as <-. reflexivity.
  - cbn [run_sets] in H. cbn [map gauge_of] in Hout.
    destruct (index parsed (column_index headerMap col)) as [field|]; [|discriminate].
    rewrite (IH _ H) by (intros Hin; apply Hout; right; exact Hin).
    destruct (ParseFloat field); [|reflexivity].
    rewrite get_set_gauge. case_decide as E; [|reflexivity].
    exfalso. apply Hout. left. symmetry. exact E.
Qed.

(** Each statement's gauge ends up with the parsed field, or keeps its old
    value when the field does not parse. *)
Lemma run_sets_get (headerMap : gmap string Z) (parsed : list string)
    (sets : list (Column * Vector * string * string)) (g g' : Gauges)
    (col : Column) (v : Vector) (cat sub : string) :
  NoDup (map gauge_of sets) ->
  run_sets ParseFloat headerMap parsed sets g = Some g' ->
  In (col, v, cat, sub) sets ->
  exists field,
    index parsed (column_index headerMap col) = Some field
    /\ get_gauge v [cat; sub] g'
       = match ParseFloat field with
         | Some s => Some s
         | None => get_gauge v [cat; sub] g
         end.
Proof.
  revert g. induction sets as [|[[[col0 v0] cat0] sub0] sets IH]; intros g Hnd H Hin.
  - destruct Hin.
  - cbn [run_sets] in H. cbn [map] in Hnd. apply NoDup_cons in Hnd as [Hfresh Hnd].
    destruct (index parsed (column_index headerMap col0)) as [field|] eqn:E;
      [|discriminate].
    destruct Hin as [[= -> -> -> ->]|Hin].
    + exists field. split; [exact E|].
      rewrite (run_sets_frame _ _ _ _ _ v [cat; sub] H)
        by (rewrite <- list_elem_of_In; exact Hfresh).
      destruct (ParseFloat field); [|reflexivity].
      rewrite get_set_gauge. case_decide; [reflexivity|congruence].
    + destruct (IH _ Hnd H Hin) as (field' & E' & G). exists field'.
      split; [exact E'|]. rewrite G. destruct (ParseFloat field'); [reflexivity|].
      destruct (ParseFloat field); [|reflexivity].
      rewrite get_set_gauge. case_decide as K; [|reflexivity].
      exfalso. apply Hfresh. rewrite list_elem_of_In.
      change (gauge_of (col, v, cat, sub) = gauge_of (col0, v0, cat0, sub0)) in K.
      rewrite <- K. apply in_map, Hin.
Qed.

Lemma sets_19_9_NoDup : NoDup (map gauge_of sets_19_9).
Proof. refine (bool_decide_unpack _ _). vm_compute. reflexivity. Qed.

(** With [occupancy_blk] absent from [headerMap], the indices of a pass are
    0 and 18 to 79. *)
Lemma sets_19_9_columns (headerMap : gmap string Z) :
  headerMap !! occupancy_blk = None ->
  Forall (fun st => 0 <= column_index headerMap (fst (fst (fst st))) <= 79) sets_19_9
  /\ In (At 79, Percentage, "errors", "total") sets_19_9.
Proof.
  intros H. split.
  - assert (D : forallb (fun st : Column * Vector * string * string =>
                           match fst (fst (fst st)) with
                           | At i => (0 <=? i) && (i <=? 79)
                           | Mapped key => String.eqb key occupancy_blk
                           end) sets_19_9 = true) by (vm_compute; reflexivity).
    rewrite forallb_forall in D. apply Forall_forall. intros st Hin.
    rewrite list_elem_of_In in Hin.
    specialize (D st Hin). destruct st as [[[[i|key] v] cat] sub]; cbn in *.
    + apply andb_true_iff in D as [D1 D2]. lia.
    + apply String.eqb_eq in D. subst key. rewrite H. cbn. lia.
  - unfold sets_19_9. do 63 right. left. reflexivity.
Qed.

Lemma index_in_range (parsed : list string) (i : Z) :
  index parsed i = None <-> i < 0 \/ (length parsed <= Z.to_nat i)%nat.
Proof.
  unfold index. destruct (i <? 0) eqn:N.
  - apply Z.ltb_lt in N. split; [left; exact N|reflexivity].
  - apply Z.ltb_ge in N. rewrite lookup_ge_None. split; [right; assumption|].
    intros [?|?]; [lia|assumption].
Qed.

Lemma recordMetrics_19_9_unfold (isLogEnabled : bool) (headerMap : gmap string Z)
    (out : CmdResult) (g : Gauges) (logfile : list string) :
  cmd_err out = None ->
  (2 <= length (strings_Split (cmd_out out) newline))%nat ->
  recordMetrics_19_9 ParseFloat isLogEnabled headerMap out g logfile
  = match run_sets ParseFloat headerMap (parsed_fields out) sets_19_9 g with
    | None => Crashed
    | Some g' =>
        Sleeping g'
          (xprint isLogEnabled
             ("CAS DATA:" ++ String newline
                (strings_Join (drop 1 (strings_Split (cmd_out out) newline))
                   (String newline EmptyString))) logfile)
    end.
Proof.
  intros Hc Hl. unfold recordMetrics_19_9. rewrite Hc.
  replace (length (strings_Split (cmd_out out) newline) <? 2)%nat with false
    by (symmetry; apply Nat.ltb_ge; exact Hl).
  reflexivity.
Qed.

(** [main] hands the recorder the map [mapHeaders] built from nothing. *)
Lemma main_headerMap (isLogEnabled : bool) (all_keys : list string)
    (probe : CmdResult) (cache : string) (headerMap : gmap string Z)
    (stdout logfile : list string) :
  main isLogEnabled all_keys probe cache = Serving headerMap stdout logfile ->
  headerMap !! occupancy_blk = None.
Proof.
  unfold main. destruct (cmd_err probe); [discriminate|].
  destruct (strings_Split (cmd_out probe) newline) as [|headerline rest];
    [discriminate|].
  destruct (mapHeaders (initializeHeaders ∅) all_keys headerline ∅ [])
    as [[rc hm] so] eqn:M.
  intros [= <- _ _].
  change hm with (snd (fst (rc, hm, so))). rewrite <- M.
  apply mapHeaders_internal_None. left. reflexivity.
Qed.

(** When a pass crashes. *)
Lemma pass_crashes_iff_short (isLogEnabled : bool) (headerMap : gmap string Z)
    (out : CmdResult) (g : Gauges) (logfile : list string) :
  cmd_err out = None ->
  (2 <= length (strings_Split (cmd_out out) newline))%nat ->
  headerMap !! occupancy_blk = None ->
  recordMetrics_19_9 ParseFloat isLogEnabled headerMap out g logfile = Crashed
  <-> (length (parsed_fields out) < 80)%nat.
Proof.
  intros Hc Hl Hm. rewrite recordMetrics_19_9_unfold by assumption.
  destruct (sets_19_9_columns headerMap Hm) as [Hcols Hlast].
  rewrite Forall_forall in Hcols.
  destruct (run_sets ParseFloat headerMap (parsed_fields out) sets_19_9 g)
    as [g'|] eqn:R.
  - split; [discriminate|]. intros Hshort. exfalso.
    assert (N : run_sets ParseFloat headerMap (parsed_fields out) sets_19_9 g = None);
      [|congruence].
    apply run_sets_in_range. eexists. split; [exact Hlast|].
    cbn [fst column_index]. apply index_in_range. right.
    change (Z.to_nat 79) with 79%nat. lia.
  - split; [|reflexivity]. intros _.
    apply run_sets_in_range in R as (st & Hin & Hst).
    apply index_in_range in Hst.
    specialize (Hcols st (proj2 (list_elem_of_In _ _) Hin)). lia.
Qed.

(** What a pass that gets through leaves in the gauges. *)
Lemma pass_sets_fields (isLogEnabled : bool) (headerMap : gmap string Z)
    (out : CmdResult) (g : Gauges) (logfile : list string) :
  cmd_err out = None ->
  (2 <= length (strings_Split (cmd_out out) newline))%nat ->
  match recordMetrics_19_9 ParseFloat isLogEnabled headerMap out g logfile with
  | Crashed => True
  | Sleeping g' _ =>
      forall col v category subcategory,
        In (col, v, category, subcategory) sets_19_9 ->
        exists field,
          index (parsed_fields out) (column_index headerMap col) = Some field
          /\ get_gauge v [category; subcategory] g'
             = match ParseFloat field with
               | Some s => Some s
               | None => get_gauge v [category; subcategory] g
               end
  end.
Proof.
  intros Hc Hl. rewrite recordMetrics_19_9_unfold by assumption.
  destruct (run_sets ParseFloat headerMap (parsed_fields out) sets_19_9 g)
    as [g'|] eqn:R; [|exact I].
  intros col v cat sub Hin.
  exact (run_sets_get headerMap _ _ g g' col v cat sub sets_19_9_NoDup R Hin).
Qed.

End RecorderFacts.

(** X16. With a header map that does not hold [occupancy_blk] (the one
    built at start-up never does), a pass of the recorder over a command
    that succeeded and printed at least two lines crashes with an index out
    of range exactly when the output after the header line splits into fewer
    than 80 fields. *)
Theorem recordMetrics_19_9_crashes_iff_short
    (ParseFloat : string -> option float) (isLogEnabled : bool)
    (headerMap : gmap string Z) (out : CmdResult) (g : legacy.Gauges)
    (logfile : list string) :
  cmd_err out = None ->
  (2 <= length (strings_Split (cmd_out out) newline))%nat ->
  headerMap !! legacy.occupancy_blk = None ->
  legacy.recordMetrics_19_9 ParseFloat isLogEnabled headerMap out g logfile
  = legacy.Crashed
  <-> (length (legacy.parsed_fields out) < 80)%nat.
Proof.
  intros Hc Hl Hm. rewrite recordMetrics_19_9_unfold by assumption.
  destruct (sets_19_9_columns headerMap Hm) as [Hcols Hlast].
  rewrite Forall_forall in Hcols.
  destruct (legacy.run_sets ParseFloat headerMap (legacy.parsed_fields out)
              legacy.sets_19_9 g) as [g'|] eqn:R.
  - split; [discriminate|]. intros Hshort. exfalso.
    assert (N : legacy.run_sets ParseFloat headerMap (legacy.parsed_fields out)
                  legacy.sets_19_9 g = None); [|congruence].
    apply run_sets_in_range. eexists. split; [exact Hlast|].
    cbn [fst legacy.column_index]. apply index_in_range. right.
    change (Z.to_nat 79) with 79%nat. lia.
  - split; [|reflexivity]. intros _.
    apply run_sets_in_range in R as (st & Hin & Hst).
    apply index_in_range in Hst.
    specialize (Hcols st (proj2 (list_elem_of_In _ _) Hin)). lia.
Qed.

Lemma recordMetrics_19_9_crashes_iff_short_witness :
  cmd_err demo.bare_probe = None
  /\ (2 <= length (strings_Split (cmd_out demo.bare_probe) newline))%nat
  /\ (∅ : gmap string Z) !! legacy.occupancy_blk = None
  /\ (length (legacy.parsed_fields demo.bare_probe) < 80)%nat
  /\ legacy.recordMetrics_19_9 demo.parse true ∅ demo.bare_probe demo.no_gauges []
     = legacy.Crashed.
Proof.
  assert (H1 : cmd_err demo.bare_probe = None) by reflexivity.
  assert (H2 : (2 <= length (strings_Split (cmd_out demo.bare_probe) newline))%nat)
    by (vm_compute; lia).
  assert (H3 : (∅ : gmap string Z) !! legacy.occupancy_blk = None)
    by apply lookup_empty.
  assert (H4 : (length (legacy.parsed_fields demo.bare_probe) < 80)%nat)
    by (vm_compute; lia).
  repeat apply conj; try assumption.
  exact (proj2 (recordMetrics_19_9_crashes_iff_short demo.parse true ∅ demo.bare_probe
                  demo.no_gauges [] H1 H2 H3) H4).
Defined.

(** X17. When a pass of the recorder gets through, every gauge one of its
    statements names holds the field at that statement's column if the field
    parses as a float, and keeps its previous value (or absence) if not. *)
Theorem recordMetrics_19_9_sets_fields
    (ParseFloat : string -> option float) (isLogEnabled : bool)
    (headerMap : gmap string Z) (out : CmdResult) (g : legacy.Gauges)
    (logfile : list string) :
  cmd_err out = None ->
  (2 <= length (strings_Split (cmd_out out) newline))%nat ->
  match legacy.recordMetrics_19_9 ParseFloat isLogEnabled headerMap out g logfile with
  | legacy.Crashed => True
  | legacy.Sleeping g' _ =>
      forall col v category subcategory,
        In (col, v, category, subcategory) legacy.sets_19_9 ->
        exists field,
          legacy.index (legacy.parsed_fields out) (legacy.column_index headerMap col)
          = Some field
          /\ legacy.get_gauge v [category; subcategory] g'
             = match ParseFloat field with
               | Some s => Some s
               | None => legacy.get_gauge v [category; subcategory] g
               end
  end.
Proof.
  intros Hc Hl. rewrite recordMetrics_19_9_unfold by assumption.
  destruct (legacy.run_sets ParseFloat headerMap (legacy.parsed_fields out)
              legacy.sets_19_9 g) as [g'|] eqn:R; [|exact I].
  intros col v cat sub Hin.
  exact (run_sets_get ParseFloat headerMap _ _ g g' col v cat sub
           sets_19_9_NoDup R Hin).
Qed.

Lemma recordMetrics_19_9_sets_fields_witness :
  cmd_err demo.probe_80 = None
  /\ (2 <= length (strings_Split (cmd_out demo.probe_80) newline))%nat
  /\ match legacy.recordMetrics_19_9 demo.parse true ∅ demo.probe_80
             demo.no_gauges [] with
     | legacy.Crashed => False
     | legacy.Sleeping g' _ =>
         legacy.get_gauge legacy.Percentage ["usage"; "occupancy"] g' = Some 42.5%float
     end.
Proof.
  assert (H1 : cmd_err demo.probe_80 = None) by reflexivity.
  assert (H2 : (2 <= length (strings_Split (cmd_out demo.probe_80) newline))%nat)
    by (vm_compute; lia).
  split; [exact H1|]. split; [exact H2|].
  pose proof (recordMetrics_19_9_sets_fields demo.parse true ∅ demo.probe_80
                demo.no_gauges [] H1 H2) as T.
  assert (N : match legacy.recordMetrics_19_9 demo.parse true ∅ demo.probe_80
                      demo.no_gauges [] with
              | legacy.Crashed => true
              | legacy.Sleeping _ _ => false
              end = false) by (vm_compute; reflexivity).
  destruct (legacy.recordMetrics_19_9 demo.parse true ∅ demo.probe_80
              demo.no_gauges []) as [|g' lf]; [discriminate N|].
  destruct (T (legacy.At 17) legacy.Percentage "usage" "occupancy") as (field & F & G).
  { unfold legacy.sets_19_9. do 32 right. left. reflexivity. }
  rewrite G.
  assert (F' : legacy.index (legacy.parsed_fields demo.probe_80) 17 = Some "42.5")
    by (vm_compute; reflexivity).
  cbn [legacy.column_index] in F. rewrite F' in F. injection F as <-. reflexivity.
Defined.

(** X18. The occupancy count is read from the first field of the data, not
    from the occupancy column: with the map [main] built at start-up, a pass
    that gets through sets ocf_count{usage,occupancy} to the first field
    after the header line when it parses, and leaves the gauge alone when it
    does not. *)
Theorem occupancy_count_reads_first_field
    (ParseFloat : string -> option float) (isLogEnabled : bool)
    (all_keys : list string) (probe : CmdResult) (cache : string)
    (headerMap : gmap string Z) (stdout startlog : list string)
    (out : CmdResult) (g : legacy.Gauges) (logfile : list string) :
  legacy.main isLogEnabled all_keys probe cache
  = legacy.Serving headerMap stdout startlog ->
  cmd_err out = None ->
  (2 <= length (strings_Split (cmd_out out) newline))%nat ->
  match legacy.recordMetrics_19_9 ParseFloat isLogEnabled headerMap out g logfile with
  | legacy.Crashed => True
  | legacy.Sleeping g' _ =>
      exists field,
        head (legacy.parsed_fields out) = Some field
        /\ legacy.OCFStat_count g' !! ["usage"; "occupancy"]
           = match ParseFloat field with
             | Some s => Some s
             | None => legacy.OCFStat_count g !! ["usage"; "occupancy"]
             end
  end.
Proof.
  intros Hmain Hc Hl.
  pose proof (main_headerMap _ _ _ _ _ _ _ Hmain) as Hm.
  pose proof (pass_sets_fields ParseFloat isLogEnabled headerMap out g
                logfile Hc Hl) as T.
  destruct (legacy.recordMetrics_19_9 ParseFloat isLogEnabled headerMap out g logfile)
    as [|g' lf]; [exact I|].
  destruct (T (legacy.Mapped legacy.occupancy_blk) legacy.Count "usage" "occupancy")
    as (field & F & G); [left; reflexivity|].
  exists field. split; [|exact G].
  cbn [legacy.column_index] in F. rewrite Hm in F. cbn in F.
  destruct (legacy.parsed_fields out); [discriminate F|exact F].
Qed.

Lemma occupancy_count_reads_first_field_witness :
  legacy.main true (map fst legacy.header_assignments) demo.bare_probe "1"
  = legacy.Serving ∅
      ["WARNING: did not find the header [Occupancy [4KiB blocks]] in the csv output"]
      ["INITIAL DATA:" ++ String newline (cmd_out demo.bare_probe);
       "ERROR : Failed to map header"]
  /\ cmd_err demo.probe_80 = None
  /\ (2 <= length (strings_Split (cmd_out demo.probe_80) newline))%nat
  /\ match legacy.recordMetrics_19_9 demo.parse true ∅ demo.probe_80
             demo.no_gauges [] with
     | legacy.Crashed => False
     | legacy.Sleeping g' _ =>
         legacy.OCFStat_count g' !! ["usage"; "occupancy"] = Some 1%float
     end.
Proof.
  assert (H0 : legacy.main true (map fst legacy.header_assignments) demo.bare_probe "1"
    = legacy.Serving ∅
        ["WARNING: did not find the header [Occupancy [4KiB blocks]] in the csv output"]
        ["INITIAL DATA:" ++ String newline (cmd_out demo.bare_probe);
         "ERROR : Failed to map header"]) by (vm_compute; reflexivity).
  assert (H1 : cmd_err demo.probe_80 = None) by reflexivity.
  assert (H2 : (2 <= length (strings_Split (cmd_out demo.probe_80) newline))%nat)
    by (vm_compute; lia).
  split; [exact H0|]. split; [exact H1|]. split; [exact H2|].
  pose proof (occupancy_count_reads_first_field demo.parse true _ _ _ _ _ _
                demo.probe_80 demo.no_gauges [] H0 H1 H2) as T.
  assert (N : match legacy.recordMetrics_19_9 demo.parse true ∅ demo.probe_80
                      demo.no_gauges [] with
              | legacy.Crashed => true
              | legacy.Sleeping _ _ => false
              end = false) by (vm_compute; reflexivity).
  destruct (legacy.recordMetrics_19_9 demo.parse true ∅ demo.probe_80
              demo.no_gauges []) as [|g' lf]; [discriminate N|].
  destruct T as (field & F & G). rewrite G.
  assert (F' : head (legacy.parsed_fields demo.probe_80) = Some "1")
    by (vm_compute; reflexivity).
  rewrite F' in F. injection F as <-. reflexivity.
Defined.

(** ** The historical exporter: the process from start-up on *)

Section LegacyProcessFacts.
Import legacy.
Variable ParseFloat : string -> option float.
Variable isLogEnabled : bool.

(** A pass that panics: its command succeeded and printed at least two
    lines, and what follows the first line has fewer than 80 fields. *)
Local Abbreviation short out :=
  (cmd_err out = None
   /\ le 2 (length (strings_Split (cmd_out out) newline))
   /\ lt (length (parsed_fields out)) 80).

Lemma run_Down (events : list Event) (code : Z) :
  fold_left (step ParseFloat isLogEnabled) events (Down code) = Down code.
Proof. induction events as [|ev events IH]; [reflexivity|exact IH]. Qed.

(** A pass over a failed command, or over fewer than two lines, sleeps. *)
Lemma pass_sleeps (headerMap : gmap string Z) (out : CmdResult) (g : Gauges)
    (logfile : list string) :
  cmd_err out <> None \/ (length (strings_Split (cmd_out out) newline) < 2)%nat ->
  exists g' logfile',
    recordMetrics_19_9 ParseFloat isLogEnabled headerMap out g logfile
    = Sleeping g' logfile'.
Proof.
  unfold recordMetrics_19_9. intros [H|H].
  - destruct (cmd_err out); [eauto|congruence].
  - destruct (cmd_err out); [eauto|].
    apply Nat.ltb_lt in H. rewrite H. eauto.
Qed.

Lemma step_Up (headerMap : gmap string Z) (g : Gauges) (logfile : list string)
    (ev : Event) :
  headerMap !! occupancy_blk = None ->
  match step ParseFloat isLogEnabled (Up headerMap g logfile) ev with
  | Down _ => ev = ListenFails \/ exists out, ev = RecorderPass out /\ short out
  | Up headerMap' _ _ =>
      headerMap' = headerMap
      /\ ev <> ListenFails
      /\ forall out, ev = RecorderPass out -> ~ short out
  end.
Proof.
  intros Hm. destruct ev as [out|]; cbn [step]; [|left; reflexivity].
  destruct (cmd_err out) as [err|] eqn:Hc.
  - destruct (pass_sleeps headerMap out g logfile) as (g' & lf' & ->);
      [left; congruence|].
    split; [reflexivity|]. split; [discriminate|].
    intros out' [= <-] (Hc' & _). congruence.
  - destruct (le_lt_dec 2 (length (strings_Split (cmd_out out) newline))) as [Hl|Hl].
    + pose proof (pass_crashes_iff_short ParseFloat isLogEnabled headerMap out g logfile
                    Hc Hl Hm) as K.
      destruct (recordMetrics_19_9 ParseFloat isLogEnabled headerMap out g logfile)
        as [|g' lf'].
      * right. exists out. split; [reflexivity|]. split; [exact Hc|].
        split; [exact Hl|]. apply K. reflexivity.
      * split; [reflexivity|]. split; [discriminate|].
        intros out' [= <-] (_ & _ & Hs). apply K in Hs. discriminate Hs.
    + destruct (pass_sleeps headerMap out g logfile) as (g' & lf' & ->);
        [right; exact Hl|].
      split; [reflexivity|]. split; [discriminate|].
      intros out' [= <-] (_ & Hl' & _). lia.
Qed.

(** From the call of [recordMetrics_19_9()] on, the process goes down
    exactly when the listener returns or a pass is short. *)
Lemma run_Up (events : list Event) (headerMap : gmap string Z) (g : Gauges)
    (logfile : list string) :
  headerMap !! occupancy_blk = None ->
  (exists code,
     fold_left (step ParseFloat isLogEnabled) events (Up headerMap g logfile)
     = Down code)
  <-> (In ListenFails events
       \/ exists out, In (RecorderPass out) events /\ short out).
Proof.
  intros Hm. revert g logfile.
  induction events as [|ev events IH]; intros g logfile.
  - cbn. split.
    + intros (code & H). discriminate H.
    + intros [[]|(out & [] & _)].
  - cbn [fold_left]. pose proof (step_Up headerMap g logfile ev Hm) as K.
    destruct (step ParseFloat isLogEnabled (Up headerMap g logfile) ev)
      as [hm' g' lf'|code].
    + destruct K as (-> & Hev & Hshort). rewrite IH. split.
      * intros [H|(out & Hin & Hs)].
        -- left. right. exact H.
        -- right. exists out. split; [right; exact Hin|exact Hs].
      * intros [[H|H]|(out & [H|H] & Hs)].
        -- congruence.
        -- left. exact H.
        -- exfalso. exact (Hshort out H Hs).
        -- right. exists out. split; assumption.
    + rewrite run_Down. split; [|eauto]. intros _.
      destruct K as [->|(out & -> & Hs)].
      * left. left. reflexivity.
      * right. exists out. split; [left; reflexivity|exact Hs].
Qed.

(** [start] is up, with the map [mapHeaders] built, once the probe has
    succeeded. *)
Lemma start_Up (all_keys : list string) (probe : CmdResult) (cache : string) :
  cmd_err probe = None ->
  exists headerMap logfile,
    start isLogEnabled all_keys probe cache
    = Up headerMap {| OCFStat_count := ∅; OCFStat_percentage := ∅ |} logfile
    /\ headerMap !! occupancy_blk = None.
Proof.
  intros H. unfold start.
  destruct (legacy_main_serves isLogEnabled all_keys probe cache H)
    as (headerMap & stdout & logfile & E).
  rewrite E. exists headerMap, logfile. split; [reflexivity|].
  exact (main_headerMap _ _ _ _ _ _ _ E).
Qed.

Lemma run_probe_ok (all_keys : list string) (probe : CmdResult) (cache : string)
    (events : list Event) :
  cmd_err probe = None ->
  (exists code, run ParseFloat isLogEnabled all_keys probe cache events = Down code)
  <-> (In ListenFails events
       \/ exists out, In (RecorderPass out) events /\ short out).
Proof.
  intros H. unfold run.
  destruct (start_Up all_keys probe cache H) as (headerMap & logfile & -> & Hm).
  apply run_Up, Hm.
Qed.

Lemma run_probe_failed (all_keys : list string) (probe : CmdResult) (cache : string)
    (events : list Event) (err : string) :
  cmd_err probe = Some err ->
  run ParseFloat isLogEnabled all_keys probe cache events = Down 1.
Proof.
  intros H. unfold run, start, main. rewrite H. apply run_Down.
Qed.

End LegacyProcessFacts.

(** The loop body of the adapter-based exporter takes what the decoder
    returns: the first row as it is, or nothing. *)
Lemma sample_decoded (env : casadm.Env) (c : casadm.Cache.t) (it : casexporter.Iter) :
  casexporter.active c = true ->
  let out := fst (casadm.run_casadm env (casadm.stats_args (casadm.Cache.ID c))
                    (casexporter.world it)) in
  cmd_err out = None ->
  match casadm.unmarshal_stats env (cmd_out out) with
  | Ok (stats :: _) =>
      casexporter.exporter (casexporter.sample env c it)
      = casexporter.observe c stats (casexporter.exporter it)
      /\ casexporter.success (casexporter.sample env c it) = casexporter.success it
  | _ =>
      casexporter.exporter (casexporter.sample env c it) = casexporter.exporter it
      /\ casexporter.success (casexporter.sample env c it) = 0
  end.
Proof.
  intros Ha out Hc.
  pose proof (GetCacheStats_unfold env (casexporter.world it) (casadm.Cache.ID c)) as U.
  cbv zeta in U. fold out in U. rewrite Hc in U.
  destruct (casadm.unmarshal_stats env (cmd_out out)) as [[|stats rest]|err].
  - apply (sample_failed env c it "missing cache stats"); [exact Ha|].
    rewrite U. reflexivity.
  - unfold casexporter.active in Ha. unfold casexporter.sample.
    destruct (String.eqb (casadm.Cache.Device c) "-"); [discriminate|].
    rewrite U. split; reflexivity.
  - apply (sample_failed env c it ("unmarshal cache stats csv: " ++ err)); [exact Ha|].
    rewrite U. reflexivity.
Qed.

(** C3 (amended). A header without a required column does not make the
    process refuse to run.  Historical exporter: when the probe command
    fails the process is down with status 1; when it succeeds, whatever its
    header line, the process goes down exactly when [ListenAndServe] returns
    or a pass of the recorder, over a command that succeeded and printed at
    least two lines, finds fewer than 80 fields after the first line; the
    header line enters neither condition.  Adapter-based exporter: the loop
    body takes what the decoder returns for the sample output; a decoding
    error or an empty list changes no gauge and sets the cycle's success to
    0, a non-empty list sets the gauges from its first row and leaves the
    success as it was. *)
Theorem missing_column_is_not_fatal :
  (forall ParseFloat isLogEnabled all_keys probe cache events err,
     cmd_err probe = Some err ->
     legacy.run ParseFloat isLogEnabled all_keys probe cache events = legacy.Down 1)
  /\ (forall ParseFloat isLogEnabled all_keys probe cache events,
        cmd_err probe = None ->
        (exists code,
           legacy.run ParseFloat isLogEnabled all_keys probe cache events
           = legacy.Down code)
        <-> (In legacy.ListenFails events
             \/ exists out,
                  In (legacy.RecorderPass out) events
                  /\ cmd_err out = None
                  /\ (2 <= length (strings_Split (cmd_out out) newline))%nat
                  /\ (length (legacy.parsed_fields out) < 80)%nat))
  /\ (forall env c it,
        casexporter.active c = true ->
        let out := fst (casadm.run_casadm env (casadm.stats_args (casadm.Cache.ID c))
                          (casexporter.world it)) in
        cmd_err out = None ->
        match casadm.unmarshal_stats env (cmd_out out) with
        | Ok (stats :: _) =>
            casexporter.exporter (casexporter.sample env c it)
            = casexporter.observe c stats (casexporter.exporter it)
            /\ casexporter.success (casexporter.sample env c it)
               = casexporter.success it
        | _ =>
            casexporter.exporter (casexporter.sample env c it) = casexporter.exporter it
            /\ casexporter.success (casexporter.sample env c it) = 0
        end).
Proof.
  split; [|split].
  - intros. eapply run_probe_failed. eassumption.
  - intros. apply run_probe_ok. assumption.
  - exact sample_decoded.
Qed.

Lemma missing_column_is_not_fatal_witness :
  cmd_err demo.bare_probe = None
  /\ (2 <= length (strings_Split (cmd_out demo.bare_probe) newline))%nat
  /\ (length (legacy.parsed_fields demo.bare_probe) < 80)%nat
  /\ exists code,
       legacy.run demo.parse true (map fst legacy.header_assignments) demo.bare_probe "1"
         [legacy.RecorderPass demo.bare_probe]
       = legacy.Down code.
Proof.
  assert (H1 : cmd_err demo.bare_probe = None) by reflexivity.
  assert (H2 : (2 <= length (strings_Split (cmd_out demo.bare_probe) newline))%nat)
    by (vm_compute; lia).
  assert (H3 : (length (legacy.parsed_fields demo.bare_probe) < 80)%nat)
    by (vm_compute; lia).
  split; [exact H1|]. split; [exact H2|]. split; [exact H3|].
  apply (proj2 (proj1 (proj2 missing_column_is_not_fatal) demo.parse true
                  (map fst legacy.header_assignments) demo.bare_probe "1"
                  [legacy.RecorderPass demo.bare_probe] H1)).
  right. exists demo.bare_probe. split; [left; reflexivity|].
  split; [exact H1|]. split; [exact H2|exact H3].
Defined.

(** C3, as stated, fails: the header line of the probe output has none of
    the required columns, the data line has 80 fields; the process starts,
    stays up through the recorder's passes, and its occupancy gauges hold the
    cache id (1) and the field at position 17 (42.5).  This is so in whatever
    order the keys are visited, with logging on or off, and for any number
    of passes. *)
Lemma process_serves_without_columns :
  forallb (fun kv : string * string =>
             negb (existsb (fun csv_header => strings_Contains csv_header (snd kv))
                     (strings_Split
                        (hd EmptyString (strings_Split (cmd_out demo.probe_80) newline))
                        comma)))
          legacy.header_assignments = true
  /\ hd EmptyString (strings_Split (cmd_out demo.probe_80) newline) = "header"%string
  /\ length (legacy.parsed_fields demo.probe_80) = 80%nat
  /\ match legacy.run demo.parse true (map fst legacy.header_assignments)
             demo.probe_80 "1"
             [legacy.RecorderPass demo.probe_80; legacy.RecorderPass demo.probe_80] with
     | legacy.Down _ => False
     | legacy.Up _ g _ =>
         legacy.OCFStat_count g !! ["usage"; "occupancy"] = Some 1%float
         /\ legacy.OCFStat_percentage g !! ["usage"; "occupancy"] = Some 42.5%float
         /\ legacy.OCFStat_count g !! ["usage"; "free"] = Some 0%float
     end
  /\ (forall isLogEnabled all_keys n,
        exists headerMap g logfile,
          legacy.run demo.parse isLogEnabled all_keys demo.probe_80 "1"
            (repeat (legacy.RecorderPass demo.probe_80) n)
          = legacy.Up headerMap g logfile).
Proof.
  split; [vm_compute; reflexivity|]. split; [vm_compute; reflexivity|].
  split; [vm_compute; reflexivity|]. split.
  - vm_compute. repeat apply conj; reflexivity.
  - intros isLogEnabled all_keys n.
    destruct (legacy.run demo.parse isLogEnabled all_keys demo.probe_80 "1"
                (repeat (legacy.RecorderPass demo.probe_80) n))
      as [headerMap g logfile|code] eqn:E; [eauto|exfalso].
    assert (D : exists code,
               legacy.run demo.parse isLogEnabled all_keys demo.probe_80 "1"
                 (repeat (legacy.RecorderPass demo.probe_80) n)
               = legacy.Down code) by eauto.
    apply run_probe_ok in D; [|reflexivity].
    destruct D as [D|(out & D & _ & _ & Hs)].
    + apply repeat_spec in D. discriminate D.
    + apply repeat_spec in D. injection D as ->.
      revert Hs. vm_compute. lia.
Qed.
